(** * EMAIL-Consumption-Values: the message parser and the candidate ranker

    A shallow embedding of [src/parser.py], [src/models.py] and of the
    text-extraction and ranking methods of [src/scraper.py], together with
    the parts of the Python runtime they call ([str] methods, the [re]
    module on the patterns of the program, [hashlib.sha256], [datetime.date],
    [float] and [int] on decimal literals). *)

From Stdlib Require Import List NArith ZArith QArith Lia Bool String Ascii.
From Stdlib Require Import Permutation Sorted.
From stdpp Require Import gmap.
Import ListNotations.

Local Open Scope N_scope.

(** ** Python strings

    A Python [str] is a sequence of Unicode code points; [len], indexing,
    comparison and the regular expressions of [re] all work on code points.
    The character tables below are those of Unicode 14 (CPython 3.11). *)

Module Py.

Definition char := N.
Definition str := list char.

(** Every code point of a [str] is at most U+10FFFF; lone surrogates are
    allowed (json.loads produces them from escapes such as \ud800). *)
Definition is_codepoint (c : char) : bool := c <=? 0x10FFFF.
Definition is_surrogate (c : char) : bool := (0xD800 <=? c) && (c <=? 0xDFFF).
Definition wf_str (s : str) : Prop := Forall (fun c => is_codepoint c = true) s.

(** A Unicode scalar value: a code point that is not a surrogate.  Text
    that is valid UTF-8 decodes to scalar values only. *)
Definition is_scalar (c : char) : bool := is_codepoint c && negb (is_surrogate c).

(** *** Literals: the UTF-8 text of a Rocq string, decoded to code points *)

Definition cont (b : N) : N := N.land b 0x3F.

Fixpoint decode_utf8 (bs : list N) : str :=
  match bs with
  | [] => []
  | b0 :: t0 =>
      if b0 <? 0x80 then b0 :: decode_utf8 t0
      else if b0 <? 0xE0 then
        match t0 with
        | b1 :: t1 => (N.shiftl (N.land b0 0x1F) 6 + cont b1) :: decode_utf8 t1
        | [] => []
        end
      else if b0 <? 0xF0 then
        match t0 with
        | b1 :: b2 :: t2 =>
            (N.shiftl (N.land b0 0x0F) 12 + N.shiftl (cont b1) 6 + cont b2)
              :: decode_utf8 t2
        | _ => []
        end
      else
        match t0 with
        | b1 :: b2 :: b3 :: t3 =>
            (N.shiftl (N.land b0 0x07) 18 + N.shiftl (cont b1) 12
             + N.shiftl (cont b2) 6 + cont b3) :: decode_utf8 t3
        | _ => []
        end
  end.

Definition lit (s : string) : str :=
  decode_utf8 (List.map N_of_ascii (list_ascii_of_string s)).

(** *** Equality, prefixes, containment *)

Fixpoint eqb (a b : str) : bool :=
  match a, b with
  | [], [] => true
  | x :: a', y :: b' => (x =? y) && eqb a' b'
  | _, _ => false
  end.

(** [s.startswith(p)] *)
Fixpoint startswith (s p : str) : bool :=
  match p, s with
  | [], _ => true
  | x :: p', y :: s' => (x =? y) && startswith s' p'
  | _ :: _, [] => false
  end.

(** [p in s] *)
Fixpoint contains (p s : str) : bool :=
  startswith s p ||
  match s with
  | [] => false
  | _ :: s' => contains p s'
  end.

(** [s.find(p)], with [None] for -1 *)
Fixpoint find_from (i : nat) (p s : str) : option nat :=
  if startswith s p then Some i
  else match s with
       | [] => None
       | _ :: s' => find_from (S i) p s'
       end.

Definition find (s p : str) : option nat := find_from 0 p s.

(** *** str.isspace, str.strip, str.lower *)

Definition isspace (c : char) : bool :=
  ((0x09 <=? c) && (c <=? 0x0D)) || ((0x1C <=? c) && (c <=? 0x20))
  || (c =? 0x85) || (c =? 0xA0) || (c =? 0x1680)
  || ((0x2000 <=? c) && (c <=? 0x200A))
  || (c =? 0x2028) || (c =? 0x2029) || (c =? 0x202F) || (c =? 0x205F)
  || (c =? 0x3000).

Fixpoint lstrip (s : str) : str :=
  match s with
  | c :: s' => if isspace c then lstrip s' else s
  | [] => []
  end.

Definition rstrip (s : str) : str := rev (lstrip (rev s)).
Definition strip (s : str) : str := rstrip (lstrip s).

(** The simple lower-case mapping ([Py_UNICODE_TOLOWER], which [re] uses).
    It is exact on ASCII and Latin-1 and on the four code points above
    U+00FF whose lower case lies below U+0100, and on U+0130 and U+039C;
    every other code point is left where it is, above U+00FF, so that every
    comparison of a lowered character with a character of the program's
    patterns and tables (all below U+0100) has the outcome it has in Python. *)
Definition tolower (c : char) : char :=
  if (0x41 <=? c) && (c <=? 0x5A) then c + 32
  else if (0xC0 <=? c) && (c <=? 0xDE) && negb (c =? 0xD7) then c + 32
  else if c =? 0x130 then 0x69
  else if c =? 0x178 then 0xFF
  else if c =? 0x39C then 0x3BC
  else if c =? 0x1E9E then 0xDF
  else if c =? 0x212A then 0x6B
  else if c =? 0x212B then 0xE5
  else c.

(** [str.lower] uses the full mapping: U+0130 becomes two code points. *)
Definition lower_char (c : char) : str :=
  if c =? 0x130 then [0x69; 0x307] else [tolower c].

Definition lower (s : str) : str := flat_map lower_char s.

(** *** str.replace (for a non-empty [old]), str.split on one character,
    str.join *)

Fixpoint replace_go (old new : str) (skip : nat) (s : str) : str :=
  match s with
  | [] => []
  | c :: t =>
      match skip with
      | S k => replace_go old new k t
      | O =>
          if startswith s old
          then new ++ replace_go old new (List.length old - 1) t
          else c :: replace_go old new 0 t
      end
  end.

Definition replace (s old new : str) : str := replace_go old new 0 s.

Fixpoint split (sep : char) (s : str) : list str :=
  match s with
  | [] => [[]]
  | c :: t =>
      if c =? sep then [] :: split sep t
      else match split sep t with
           | l :: ls => (c :: l) :: ls
           | [] => [[c]]
           end
  end.

Fixpoint join (sep : str) (ls : list str) : str :=
  match ls with
  | [] => []
  | [l] => l
  | l :: ls' => l ++ sep ++ join sep ls'
  end.

(** *** Comparison of strings: code point by code point *)

Fixpoint ltb (a b : str) : bool :=
  match a, b with
  | _, [] => false
  | [], _ :: _ => true
  | x :: a', y :: b' => (x <? y) || ((x =? y) && ltb a' b')
  end.

(** *** Decimal digits: the 66 runs of ten of category Nd *)

Definition decimal_zeros : list N :=
  [0x30; 0x660; 0x6F0; 0x7C0; 0x966; 0x9E6; 0xA66; 0xAE6; 0xB66; 0xBE6;
   0xC66; 0xCE6; 0xD66; 0xDE6; 0xE50; 0xED0; 0xF20; 0x1040; 0x1090; 0x17E0;
   0x1810; 0x1946; 0x19D0; 0x1A80; 0x1A90; 0x1B50; 0x1BB0; 0x1C40; 0x1C50;
   0xA620; 0xA8D0; 0xA900; 0xA9D0; 0xA9F0; 0xAA50; 0xABF0; 0xFF10; 0x104A0;
   0x10D30; 0x11066; 0x110F0; 0x11136; 0x111D0; 0x112F0; 0x11450; 0x114D0;
   0x11650; 0x116C0; 0x11730; 0x118E0; 0x11950; 0x11C50; 0x11D50; 0x11DA0;
   0x16A60; 0x16AC0; 0x16B50; 0x1D7CE; 0x1D7D8; 0x1D7E2; 0x1D7EC; 0x1D7F6;
   0x1E140; 0x1E2F0; 0x1E950; 0x1FBF0].

Fixpoint decimal_in (zs : list N) (c : char) : option N :=
  match zs with
  | [] => None
  | z :: zs' => if (z <=? c) && (c <? z + 10) then Some (c - z)
                else decimal_in zs' c
  end.

(** [unicodedata.decimal]: the value of a decimal digit *)
Definition decimal (c : char) : option N := decimal_in decimal_zeros c.
Definition isdecimal (c : char) : bool :=
  match decimal c with Some _ => true | None => false end.

End Py.

(** ** Regular expressions

    The backtracking matcher of the [re] module on the constructs the
    program's patterns use: literals (with IGNORECASE), [.] (with DOTALL),
    character classes, concatenation, ordered alternation, greedy and lazy
    repetition, capturing groups, look-ahead and [\Z].  A matcher takes the
    rest of the subject, the groups captured so far and a continuation; the
    first success in priority order is the match, as in [re]. *)

Module Re.
Import Py.

Record flags := { ignorecase : bool; dotall : bool }.

Definition NOFLAGS := {| ignorecase := false; dotall := false |}.
Definition IGNORECASE := {| ignorecase := true; dotall := false |}.
Definition DOTALL_IGNORECASE := {| ignorecase := true; dotall := true |}.

Inductive regex : Type :=
| Eps
| Chr (p : char)
| Any
| Cls (f : char -> bool)
| Seq (a b : regex)
| Alt (a b : regex)
| Star (greedy : bool) (a : regex)
| Grp (i : nat) (a : regex)
| Look (a : regex)
| EndZ.

(** A literal of the pattern against a character of the subject.  Under
    IGNORECASE the subject character is lowered and compared with the
    lowered literal and its two extra equivalents (dotless i, long s,
    Greek mu for the micro sign); exact for literals below U+0100. *)
Definition lit_ic (p c : char) : bool :=
  let lp := tolower p in
  let lc := tolower c in
  (lc =? lp) || ((lp =? 0x69) && (lc =? 0x131))
  || ((lp =? 0x73) && (lc =? 0x17F)) || ((lp =? 0xB5) && (lc =? 0x3BC)).

Definition chr_match (fl : flags) (p c : char) : bool :=
  if ignorecase fl then lit_ic p c else p =? c.

Definition any_match (fl : flags) (c : char) : bool :=
  dotall fl || negb (c =? 10).

Definition caps := list (nat * str).
Definition res := (str * caps)%type.
Definition cont := str -> caps -> option res.
Definition matcher := str -> caps -> cont -> option res.

Definition orelse (x : option res) (y : option res) : option res :=
  match x with Some r => Some r | None => y end.

(** Repetition: an iteration must consume input; the fuel is the length
    of the subject, which no sequence of consuming iterations exceeds. *)
Fixpoint star_loop (fuel : nat) (greedy : bool) (body : matcher)
    (s : str) (c : caps) (k : cont) : option res :=
  match fuel with
  | O => k s c
  | S f =>
      let again :=
        body s c (fun s' c' =>
          if (List.length s' <? List.length s)%nat
          then star_loop f greedy body s' c' k else None) in
      if greedy then orelse again (k s c) else orelse (k s c) again
  end.

Fixpoint rmatch (fl : flags) (r : regex) {struct r} : matcher :=
  match r with
  | Eps => fun s c k => k s c
  | Chr p => fun s c k =>
      match s with
      | x :: s' => if chr_match fl p x then k s' c else None
      | [] => None
      end
  | Any => fun s c k =>
      match s with
      | x :: s' => if any_match fl x then k s' c else None
      | [] => None
      end
  | Cls f => fun s c k =>
      match s with
      | x :: s' => if f x then k s' c else None
      | [] => None
      end
  | Seq a b => fun s c k => rmatch fl a s c (fun s' c' => rmatch fl b s' c' k)
  | Alt a b => fun s c k => orelse (rmatch fl a s c k) (rmatch fl b s c k)
  | Star g a => fun s c k => star_loop (List.length s) g (rmatch fl a) s c k
  | Grp i a => fun s c k =>
      rmatch fl a s c (fun s' c' =>
        k s' ((i, firstn (List.length s - List.length s') s) :: c'))
  | Look a => fun s c k =>
      match rmatch fl a s c (fun s' c' => Some (s', c')) with
      | Some (_, c') => k s c'
      | None => None
      end
  | EndZ => fun s c k =>
      match s with
      | [] => k s c
      | _ :: _ => None
      end
  end.

(** Derived forms *)
Fixpoint Str (s : str) : regex :=
  match s with
  | [] => Eps
  | [c] => Chr c
  | c :: s' => Seq (Chr c) (Str s')
  end.

Definition Plus (g : bool) (a : regex) : regex := Seq a (Star g a).
Definition Opt (a : regex) : regex := Alt a Eps.

Fixpoint Rep (n : nat) (a : regex) : regex :=
  match n with
  | O => Eps
  | 1%nat => a
  | S n' => Seq a (Rep n' a)
  end.

Fixpoint Alts (rs : list regex) : regex :=
  match rs with
  | [] => Eps
  | [r] => r
  | r :: rs' => Alt r (Alts rs')
  end.

(** A match object: where it starts, its text (group 0), its groups and
    the subject after it. *)
Record rmatch_obj := {
  m_start : nat;
  m_text : str;
  m_groups : caps;
  m_rest : str
}.

Fixpoint group_in (c : caps) (i : nat) : option str :=
  match c with
  | [] => None
  | (j, w) :: c' => if Nat.eqb i j then Some w else group_in c' i
  end.

(** [m.group(i)] for a group that took part in the match *)
Definition group (m : rmatch_obj) (i : nat) : str :=
  match group_in (m_groups m) i with Some w => w | None => [] end.

(** [pattern.match] at the head of [s] *)
Definition match_at (fl : flags) (r : regex) (s : str) : option res :=
  rmatch fl r s [] (fun s' c' => Some (s', c')).

Definition mk_match (pos : nat) (s : str) (x : res) : rmatch_obj :=
  {| m_start := pos;
     m_text := firstn (List.length s - List.length (fst x)) s;
     m_groups := snd x;
     m_rest := fst x |}.

(** [pattern.search]: the leftmost position with a match *)
Fixpoint search_from (fl : flags) (r : regex) (pos : nat) (s : str)
    : option rmatch_obj :=
  match match_at fl r s with
  | Some x => Some (mk_match pos s x)
  | None =>
      match s with
      | [] => None
      | _ :: t => search_from fl r (S pos) t
      end
  end.

Definition search (fl : flags) (r : regex) (s : str) : option rmatch_obj :=
  search_from fl r 0 s.

(** [pattern.finditer] and [re.sub] with a constant replacement, for
    patterns that match no empty string (all those of the program): the
    scan resumes where the last match ended. *)
Fixpoint finditer_go (fl : flags) (r : regex) (skip pos : nat) (s : str)
    : list rmatch_obj :=
  match s with
  | [] => []
  | _ :: t =>
      match skip with
      | S k => finditer_go fl r k (S pos) t
      | O =>
          match match_at fl r s with
          | Some x =>
              mk_match pos s x
                :: finditer_go fl r (List.length s - List.length (fst x) - 1)
                     (S pos) t
          | None => finditer_go fl r 0 (S pos) t
          end
      end
  end.

Definition finditer (fl : flags) (r : regex) (s : str) : list rmatch_obj :=
  finditer_go fl r 0 0 s.

Fixpoint sub_go (fl : flags) (r : regex) (repl : str) (skip : nat) (s : str)
    : str :=
  match s with
  | [] => []
  | c :: t =>
      match skip with
      | S k => sub_go fl r repl k t
      | O =>
          match match_at fl r s with
          | Some x =>
              repl ++ sub_go fl r repl
                        (List.length s - List.length (fst x) - 1) t
          | None => c :: sub_go fl r repl 0 t
          end
      end
  end.

Definition sub (fl : flags) (r : regex) (repl s : str) : str :=
  sub_go fl r repl 0 s.

(** The characters of [s] that a literal string [w] is matched against *)
Fixpoint lit_prefix (fl : flags) (w s : str) : bool :=
  match w, s with
  | [], _ => true
  | p :: w', x :: s' => chr_match fl p x && lit_prefix fl w' s'
  | _ :: _, [] => false
  end.

(** A matcher that succeeds has called its continuation on a suffix of the
    subject, and the result is the continuation's. *)
Definition through (m : matcher) : Prop :=
  forall s c k x, m s c k = Some x ->
    exists w s' c', s = w ++ s' /\ k s' c' = Some x.

(** [consumes Q m]: when [m] succeeds it has consumed a word satisfying [Q]
    and handed the groups over unchanged. *)
Definition consumes (Q : str -> Prop) (m : matcher) : Prop :=
  forall s c k x, m s c k = Some x ->
    exists w s', s = w ++ s' /\ Q w /\ k s' c = Some x.

(** [chars_in P fl r]: [r] has no group and no look-ahead, and every
    character it can consume satisfies [P]. *)
Fixpoint chars_in (P : char -> bool) (fl : flags) (r : regex) : Prop :=
  match r with
  | Eps | EndZ => True
  | Chr p => forall c, chr_match fl p c = true -> P c = true
  | Any => forall c, any_match fl c = true -> P c = true
  | Cls f => forall c, f c = true -> P c = true
  | Seq a b | Alt a b => chars_in P fl a /\ chars_in P fl b
  | Star _ a => chars_in P fl a
  | Grp _ _ | Look _ => False
  end.

End Re.

(** ** UTF-8 and SHA-256 ([str.encode], [hashlib.sha256], FIPS 180-4) *)

Module Sha256.
Import Py.

(** [str.encode("utf-8")]: a surrogate code point cannot be encoded
    (UnicodeEncodeError), here [None]. *)
Definition encode_char (c : char) : option (list N) :=
  if c <? 0x80 then Some [c]
  else if c <? 0x800 then Some [0xC0 + c / 64; 0x80 + c mod 64]
  else if is_surrogate c then None
  else if c <? 0x10000 then
    Some [0xE0 + c / 4096; 0x80 + (c / 64) mod 64; 0x80 + c mod 64]
  else if c <=? 0x10FFFF then
    Some [0xF0 + c / 262144; 0x80 + (c / 4096) mod 64;
          0x80 + (c / 64) mod 64; 0x80 + c mod 64]
  else None.

Fixpoint encode_utf8 (s : str) : option (list N) :=
  match s with
  | [] => Some []
  | c :: s' =>
      match encode_char c, encode_utf8 s' with
      | Some bs, Some rest => Some (bs ++ rest)
      | _, _ => None
      end
  end.

(** 32-bit words as [N], every operation reduced modulo 2^32 *)
Definition w32 (x : N) : N := x mod 4294967296.
Definition add32 (a b : N) : N := w32 (a + b).
Definition rotr (n x : N) : N := N.lor (N.shiftr x n) (w32 (N.shiftl x (32 - n))).
Definition not32 (x : N) : N := N.lxor x 0xFFFFFFFF.

Definition Ch (x y z : N) : N := N.lxor (N.land x y) (N.land (not32 x) z).
Definition Maj (x y z : N) : N :=
  N.lxor (N.lxor (N.land x y) (N.land x z)) (N.land y z).
Definition Sigma0 (x : N) : N := N.lxor (N.lxor (rotr 2 x) (rotr 13 x)) (rotr 22 x).
Definition Sigma1 (x : N) : N := N.lxor (N.lxor (rotr 6 x) (rotr 11 x)) (rotr 25 x).
Definition sigma0 (x : N) : N := N.lxor (N.lxor (rotr 7 x) (rotr 18 x)) (N.shiftr x 3).
Definition sigma1 (x : N) : N := N.lxor (N.lxor (rotr 17 x) (rotr 19 x)) (N.shiftr x 10).

(** The round constants of FIPS 180-4 (4.2.2), eight to a line *)
Definition K : list N :=
  [0x428a2f98; 0x71374491; 0xb5c0fbcf; 0xe9b5dba5; 0x3956c25b; 0x59f111f1; 0x923f82a4; 0xab1c5ed5]
  ++ [0xd807aa98; 0x12835b01; 0x243185be; 0x550c7dc3; 0x72be5d74; 0x80deb1fe; 0x9bdc06a7; 0xc19bf174]
  ++ [0xe49b69c1; 0xefbe4786; 0x0fc19dc6; 0x240ca1cc; 0x2de92c6f; 0x4a7484aa; 0x5cb0a9dc; 0x76f988da]
  ++ [0x983e5152; 0xa831c66d; 0xb00327c8; 0xbf597fc7; 0xc6e00bf3; 0xd5a79147; 0x06ca6351; 0x14292967]
  ++ [0x27b70a85; 0x2e1b2138; 0x4d2c6dfc; 0x53380d13; 0x650a7354; 0x766a0abb; 0x81c2c92e; 0x92722c85]
  ++ [0xa2bfe8a1; 0xa81a664b; 0xc24b8b70; 0xc76c51a3; 0xd192e819; 0xd6990624; 0xf40e3585; 0x106aa070]
  ++ [0x19a4c116; 0x1e376c08; 0x2748774c; 0x34b0bcb5; 0x391c0cb3; 0x4ed8aa4a; 0x5b9cca4f; 0x682e6ff3]
  ++ [0x748f82ee; 0x78a5636f; 0x84c87814; 0x8cc70208; 0x90befffa; 0xa4506ceb; 0xbef9a3f7; 0xc67178f2].

Record state := {
  ha : N; hb : N; hc : N; hd : N; he : N; hf : N; hg : N; hh : N
}.

Definition H0 : state :=
  {| ha := 0x6a09e667; hb := 0xbb67ae85; hc := 0x3c6ef372; hd := 0xa54ff53a;
     he := 0x510e527f; hf := 0x9b05688c; hg := 0x1f83d9ab; hh := 0x5be0cd19 |}.

(** Padding: 0x80, zeros up to 56 modulo 64, the bit length on 8 bytes *)
Definition be_bytes (n : nat) (x : N) : list N :=
  List.map (fun i => (x / 256 ^ N.of_nat i) mod 256) (rev (seq 0 n)).

Definition pad (msg : list N) : list N :=
  let l := List.length msg in
  let z := ((64 - (l + 9) mod 64) mod 64)%nat in
  msg ++ [0x80] ++ repeat 0 z ++ be_bytes 8 (8 * N.of_nat l).

Fixpoint words (fuel : nat) (bs : list N) : list N :=
  match fuel, bs with
  | S f, b0 :: b1 :: b2 :: b3 :: t =>
      (b0 * 16777216 + b1 * 65536 + b2 * 256 + b3) :: words f t
  | _, _ => []
  end.

(** The message schedule: [w] holds W[0..t-1]; 48 more words are added. *)
Fixpoint schedule (n : nat) (w : list N) : list N :=
  match n with
  | O => w
  | S n' =>
      let t := List.length w in
      let x := add32 (add32 (sigma1 (nth (t - 2) w 0)) (nth (t - 7) w 0))
                     (add32 (sigma0 (nth (t - 15) w 0)) (nth (t - 16) w 0)) in
      schedule n' (w ++ [x])
  end.

Definition round (s : state) (kw : N * N) : state :=
  let t1 := add32 (add32 (add32 (hh s) (Sigma1 (he s)))
                         (add32 (Ch (he s) (hf s) (hg s)) (fst kw))) (snd kw) in
  let t2 := add32 (Sigma0 (ha s)) (Maj (ha s) (hb s) (hc s)) in
  {| ha := add32 t1 t2; hb := ha s; hc := hb s; hd := hc s;
     he := add32 (hd s) t1; hf := he s; hg := hf s; hh := hg s |}.

Definition compress (s : state) (block : list N) : state :=
  let w := schedule 48 (words 16 block) in
  let r := fold_left round (combine K w) s in
  {| ha := add32 (ha s) (ha r); hb := add32 (hb s) (hb r);
     hc := add32 (hc s) (hc r); hd := add32 (hd s) (hd r);
     he := add32 (he s) (he r); hf := add32 (hf s) (hf r);
     hg := add32 (hg s) (hg r); hh := add32 (hh s) (hh r) |}.

Fixpoint blocks (fuel : nat) (s : state) (bs : list N) : state :=
  match fuel, bs with
  | S f, _ :: _ => blocks f (compress s (firstn 64 bs)) (skipn 64 bs)
  | _, _ => s
  end.

Definition digest (msg : list N) : state :=
  let p := pad msg in blocks (List.length p) H0 p.

(** [hexdigest]: eight lower-case hexadecimal digits for each word *)
Definition hexdigit (n : N) : char := if n <? 10 then 48 + n else 87 + n.

Definition hex32 (w : N) : str :=
  List.map (fun sh => hexdigit ((N.shiftr w sh) mod 16)) [28; 24; 20; 16; 12; 8; 4; 0].

Definition hexdigest (s : state) : str :=
  hex32 (ha s) ++ hex32 (hb s) ++ hex32 (hc s) ++ hex32 (hd s)
  ++ hex32 (he s) ++ hex32 (hf s) ++ hex32 (hg s) ++ hex32 (hh s).

Definition is_lower_hex (c : char) : bool :=
  ((48 <=? c) && (c <=? 57)) || ((97 <=? c) && (c <=? 102)).

(** [hashlib.sha256(text.encode("utf-8")).hexdigest()] *)
Definition sha256_hex (text : str) : option str :=
  match encode_utf8 text with
  | Some bs => Some (hexdigest (digest bs))
  | None => None
  end.

End Sha256.

(** ** Exceptions, [int], [float], [datetime.date] *)

Module Exn.
Import Py.

Inductive exn : Type :=
| UnicodeEncodeError
| ValueError (msg : str)
| KeyError (key : str)
| ValidationError (msg : str).   (* pydantic's, a subclass of ValueError *)

Inductive result (A : Type) : Type :=
| Ok (a : A)
| Raise (e : exn).

Arguments Ok {A} a.
Arguments Raise {A} e.

Definition bind {A B : Type} (x : result A) (f : A -> result B) : result B :=
  match x with
  | Ok a => f a
  | Raise e => Raise e
  end.

Definition message (e : exn) : str :=
  match e with
  | UnicodeEncodeError => lit "'utf-8' codec can't encode character: surrogates not allowed"
  | ValueError msg => msg
  | KeyError key => key
  | ValidationError msg => msg
  end.

End Exn.

Notation "'let*' x ':=' e 'in' k" := (Exn.bind e (fun x => k))
  (at level 10, x pattern, e at level 100, k at level 200).

Module Num.
Import Py Exn.

(** The value of a string of decimal digits, most significant first *)
Fixpoint digits_value (acc : N) (s : str) : option N :=
  match s with
  | [] => Some acc
  | c :: s' =>
      match decimal c with
      | Some d => digits_value (10 * acc + d) s'
      | None => None
      end
  end.

(** [int(s)] on a non-empty string of decimal digits (the only strings the
    program passes); anything else is reported as the ValueError of [int]. *)
Definition py_int (s : str) : result Z :=
  match s, digits_value 0 s with
  | _ :: _, Some n => Ok (Z.of_N n)
  | _, _ => Raise (ValueError (lit "invalid literal for int() with base 10"))
  end.

(** Python floats are IEEE doubles.  A decimal literal is taken here at the
    rational number it denotes; the double [float] returns is that number
    correctly rounded, which has the same sign and is zero exactly when the
    literal is (a literal too large for a double gives [inf], also
    positive).  Literals are an optional sign, digits, and optionally a point and
    more digits, with at least one digit, surrounding white space allowed; exponents, [inf], [nan] and
    underscores, which the program never passes, are reported as the
    ValueError of [float]. *)
Fixpoint split_point (s : str) : str * option str :=
  match s with
  | [] => ([], None)
  | c :: s' =>
      if c =? 46 then ([], Some s')
      else let (a, b) := split_point s' in (c :: a, b)
  end.

Definition decimal_value (ip fp : str) : option Q :=
  match digits_value 0 ip, digits_value 0 fp with
  | Some i, Some f =>
      let scale := 10 ^ N.of_nat (List.length fp) in
      Some (Qmake (Z.of_N (i * scale + f)) (Z.to_pos (Z.of_N scale)))
  | _, _ => None
  end.

Definition float_error : exn :=
  ValueError (lit "could not convert string to float").

Definition py_float (s : str) : result Q :=
  let t := strip s in
  let (negative, body) :=
    match t with
    | 45 :: r => (true, r)
    | 43 :: r => (false, r)
    | _ => (false, t)
    end in
  let (ip, rest) := split_point body in
  let fp := match rest with Some f => f | None => [] end in
  match ip ++ fp, decimal_value ip fp with
  | _ :: _, Some q => Ok (if negative then Qopp q else q)
  | _, _ => Raise float_error
  end.

(** [str(n)] for an integer *)
Fixpoint digits_of (fuel : nat) (n : N) (acc : str) : str :=
  match fuel with
  | O => acc
  | S f =>
      let acc' := (48 + n mod 10) :: acc in
      if n <? 10 then acc' else digits_of f (n / 10) acc'
  end.

Definition repr_N (n : N) : str := digits_of (S (N.to_nat (N.log2 n))) n [].

Definition repr_Z (z : Z) : str :=
  match z with
  | Z0 => [48]
  | Zpos p => repr_N (Npos p)
  | Zneg p => 45 :: repr_N (Npos p)
  end.

(** [datetime.date(year, month, day)] *)
Record date := { d_year : Z; d_month : Z; d_day : Z }.

Definition is_leap (y : Z) : bool :=
  ((y mod 4 =? 0) && negb (y mod 100 =? 0) || (y mod 400 =? 0))%Z.

Definition days_in_month (y m : Z) : Z :=
  (if m =? 2 then (if is_leap y then 29 else 28)
   else if (m =? 4) || (m =? 6) || (m =? 9) || (m =? 11) then 30 else 31)%Z.

Definition py_date (y m d : Z) : result date :=
  (if negb ((1 <=? y) && (y <=? 9999)) then
     Raise (ValueError (lit "year " ++ repr_Z y ++ lit " is out of range"))
   else if negb ((1 <=? m) && (m <=? 12)) then
     Raise (ValueError (lit "month must be in 1..12"))
   else if negb ((1 <=? d) && (d <=? days_in_month y m)) then
     Raise (ValueError (lit "day is out of range for month"))
   else Ok {| d_year := y; d_month := m; d_day := d |})%Z.

End Num.

(** ** src/models.py *)

Module Models.
Import Py Exn Num.

Record ConsumptionData := {
  current_month : Q;
  previous_year : Q;
  property_average : Q;
  unit : str
}.

(** The field validator of ConsumptionData: [if v < 0: raise ValueError] *)
Definition validate_positive (v : Q) : result Q :=
  if negb (Qle_bool 0 v)
  then Raise (ValidationError (lit "Consumption values must be non-negative"))
  else Ok v.

(** [ConsumptionData(current_month=.., previous_year=.., property_average=..,
    unit=..)]: pydantic runs the validator on the three numeric fields and
    raises one ValidationError if any of them fails. *)
Definition new_ConsumptionData (cm py pa : Q) (u : str) : result ConsumptionData :=
  let* cm' := validate_positive cm in
  let* py' := validate_positive py in
  let* pa' := validate_positive pa in
  Ok {| current_month := cm'; previous_year := py';
        property_average := pa'; unit := u |}.

Record ParsedMessage := {
  month : str;
  year : Z;
  message_date : date;
  kaltwasser : ConsumptionData;
  warmwasser : ConsumptionData;
  heizung : ConsumptionData;
  raw_message : str;
  content_hash : str
}.

(** The field validator of ParsedMessage *)
Definition validate_year (v : Z) : result Z :=
  if ((v <? 2000) || (v >? 2100))%Z
  then Raise (ValidationError (lit "Year must be between 2000 and 2100"))
  else Ok v.

Definition new_ParsedMessage (m : str) (y : Z) (d : date)
    (k w h : ConsumptionData) (raw hash : str) : result ParsedMessage :=
  let* y' := validate_year y in
  Ok {| month := m; year := y'; message_date := d;
        kaltwasser := k; warmwasser := w; heizung := h;
        raw_message := raw; content_hash := hash |}.

End Models.

(** ** src/parser.py *)

Module Parser.
Import Py Exn Num Models Re.

(** German month names mapping *)
Definition MONTH_MAP : gmap (list N) Z :=
  list_to_map
    [(lit "januar", 1%Z); (lit "februar", 2%Z); (lit "märz", 3%Z);
     (lit "april", 4%Z); (lit "mai", 5%Z); (lit "juni", 6%Z);
     (lit "juli", 7%Z); (lit "august", 8%Z); (lit "september", 9%Z);
     (lit "oktober", 10%Z); (lit "november", 11%Z); (lit "dezember", 12%Z)].

Definition MONTH_NAMES : list str :=
  List.map lit
    ["Januar"; "Februar"; "März"; "April"; "Mai"; "Juni"; "Juli"; "August";
     "September"; "Oktober"; "November"; "Dezember"]%string.

Definition digit : regex := Cls isdecimal.
Definition space : regex := Cls isspace.

(** (Januar|...|Dezember)\s+(\d{4}), IGNORECASE *)
Definition MONTH_YEAR_PATTERN : regex :=
  Seq (Grp 1 (Alts (List.map Str MONTH_NAMES)))
      (Seq (Plus true space) (Grp 2 (Rep 4 digit))).

(** (m³|kWh) *)
Definition UNIT_TOKENS : regex := Alt (Str (lit "m³")) (Str (lit "kWh")).
Definition UNIT_PATTERN : regex := Grp 1 UNIT_TOKENS.

(** \d+[.,]\d+ *)
Definition point_or_comma (c : char) : bool := (c =? 46) || (c =? 44).
Definition NUMBER : regex :=
  Seq (Plus true digit) (Seq (Cls point_or_comma) (Plus true digit)).

(** (\d{4}):\s*(\d+[.,]\d+)\s*(m³|kWh) *)
Definition CURRENT_VALUE_PATTERN : regex :=
  Seq (Grp 1 (Rep 4 digit))
      (Seq (Chr 58)
           (Seq (Star true space)
                (Seq (Grp 2 NUMBER) (Seq (Star true space) (Grp 3 UNIT_TOKENS))))).

(** (?:Durchschnitt.*?|Heizung auf Basis.*?):\s*(\d+[.,]\d+)\s*(m³|kWh),
    IGNORECASE *)
Definition AVERAGE_PATTERN : regex :=
  Seq (Alt (Seq (Str (lit "Durchschnitt")) (Star false Any))
           (Seq (Str (lit "Heizung auf Basis")) (Star false Any)))
      (Seq (Chr 58)
           (Seq (Star true space)
                (Seq (Grp 1 NUMBER) (Seq (Star true space) (Grp 2 UNIT_TOKENS))))).

(** Section boundaries *)
Definition SECTION_HEADERS : gset (list N) :=
  {[ lit "kaltwasser"; lit "warmwasser"; lit "heizung" ]}.
Definition SECTION_END_MARKER : str := lit "falls sie fragen".

(** Generate SHA256 hash of message content for idempotency. *)
Definition generate_content_hash (text : str) : result str :=
  match Sha256.sha256_hex text with
  | Some h => Ok h
  | None => Raise UnicodeEncodeError
  end.

(** Extract month and year from message text. *)
Definition parse_month_year (text : str) : result (str * Z) :=
  match search IGNORECASE MONTH_YEAR_PATTERN text with
  | None => Raise (ValueError (lit "Could not find month and year in message"))
  | Some m =>
      let month := group m 1 in
      let* year := py_int (group m 2) in
      Ok (month, year)
  end.

(** The lines of the text, line endings normalised *)
Definition text_lines (text : str) : list str :=
  split 10 (replace (replace text [13; 10] [10]) [13] [10]).

(** The first loop of [_extract_section_text]: the index after the first
    line that is the section's header *)
Fixpoint find_start (section_name : str) (i : nat) (lines : list str)
    : option nat :=
  match lines with
  | [] => None
  | line :: rest =>
      if eqb (lower (strip line)) (lower section_name) then Some (i + 1)%nat
      else find_start section_name (S i) rest
  end.

(** The two [break] tests of the second loop *)
Definition is_boundary (section_name line : str) : bool :=
  let normalized := lower (strip line) in
  (bool_decide (normalized ∈ SECTION_HEADERS)
   && negb (eqb normalized (lower section_name)))
  || startswith normalized SECTION_END_MARKER.

(** The second loop: collect lines up to the first boundary *)
Fixpoint collect (section_name : str) (lines : list str) : list str :=
  match lines with
  | [] => []
  | line :: rest =>
      if is_boundary section_name line then []
      else line :: collect section_name rest
  end.

(** Extract text content for a specific consumption section. *)
Definition _extract_section_text (text section_name : str) : result str :=
  let lines := text_lines text in
  match find_start section_name 0 lines with
  | None =>
      Raise (ValueError (lit "Could not find " ++ section_name ++ lit " section"))
  | Some start_idx =>
      let collected := collect section_name (skipn start_idx lines) in
      let section_text := strip (join [10] collected) in
      match section_text with
      | [] =>
          Raise (ValueError (lit "Could not parse content for " ++ section_name))
      | _ :: _ => Ok section_text
      end
  end.

(** Parse numeric value, handling German comma decimal separator. *)
Definition _parse_numeric_value (value_str : str) : result Q :=
  py_float (replace value_str [44] [46]).

(** Parse a consumption section (Kaltwasser, Warmwasser, or Heizung). *)
Definition parse_consumption_section (text section_name : str)
    : result ConsumptionData :=
  let* section_text := _extract_section_text text section_name in
  match search NOFLAGS UNIT_PATTERN section_text with
  | None =>
      Raise (ValueError (lit "Could not determine unit for " ++ section_name))
  | Some unit_match =>
      let unit := group unit_match 1 in
      match finditer NOFLAGS CURRENT_VALUE_PATTERN section_text with
      | m0 :: m1 :: _ =>
          let* current_value := _parse_numeric_value (group m0 2) in
          let* prev_value := _parse_numeric_value (group m1 2) in
          match search IGNORECASE AVERAGE_PATTERN section_text with
          | None =>
              Raise (ValueError
                       (lit "Could not find property average for " ++ section_name))
          | Some avg_match =>
              let* avg_value := _parse_numeric_value (group avg_match 1) in
              new_ConsumptionData current_value prev_value avg_value unit
          end
      | _ =>
          Raise (ValueError
                   (lit "Could not find both current month and previous year values for "
                    ++ section_name))
      end
  end.

(** [MONTH_MAP[key]] *)
Definition month_number (key : str) : result Z :=
  match MONTH_MAP !! key with
  | Some n => Ok n
  | None => Raise (KeyError key)
  end.

(** Parse raw message text and extract all consumption data.  The logger
    calls have no effect on the result; each [try] re-raises what it caught. *)
Definition parse_message (raw_message : str) : result ParsedMessage :=
  let* content_hash := generate_content_hash raw_message in
  let* (month, year) := parse_month_year raw_message in
  let* month_num := month_number (lower month) in
  let* message_date := py_date year month_num 1 in
  let* kaltwasser := parse_consumption_section raw_message (lit "Kaltwasser") in
  let* warmwasser := parse_consumption_section raw_message (lit "Warmwasser") in
  let* heizung := parse_consumption_section raw_message (lit "Heizung") in
  new_ParsedMessage month year message_date kaltwasser warmwasser heizung
    raw_message content_hash.

End Parser.

(** ** src/scraper.py: text extraction, ranking and deduplication

    The network and HTML layers (requests, BeautifulSoup) hand these
    methods plain strings; they are not modelled. *)

Module Scraper.
Import Py Exn Re.

Definition CONSUMPTION_EXTRACT_MAX_LENGTH : nat := 3500.

Definition MARKER : str := lit "Verbrauchswerte".

Definition CLOSINGS : list str :=
  List.map lit
    ["Falls Sie Fragen"; "Mit freundlichen"; "Viele Grüße"; "Bitte beachten"]%string.

(** \r\n? *)
Definition LINE_END : regex := Seq (Chr 13) (Opt (Chr 10)).
(** [ \t]+ *)
Definition blank (c : char) : bool := (c =? 32) || (c =? 9).
Definition BLANKS : regex := Plus true (Cls blank).
(** \n{3,} *)
Definition NEWLINES3 : regex :=
  Seq (Chr 10) (Seq (Chr 10) (Seq (Chr 10) (Star true (Chr 10)))).
(** \s+ *)
Definition SPACES : regex := Plus true (Cls isspace).

(** (Verbrauchswerte.*?)(?=\n(?:Falls Sie Fragen|Mit freundlichen|Viele
    Grüße|Bitte beachten)|\Z), DOTALL | IGNORECASE *)
Definition CLOSING : regex :=
  Alt (Seq (Chr 10) (Alts (List.map Str CLOSINGS))) EndZ.
Definition EXTRACT_PATTERN : regex :=
  Seq (Grp 1 (Seq (Str MARKER) (Star false Any))) (Look CLOSING).

(** The three [re.sub] calls that clean the text *)
Definition clean (text : str) : str :=
  let cleaned := sub NOFLAGS LINE_END [10] text in
  let cleaned := sub NOFLAGS BLANKS [32] cleaned in
  sub NOFLAGS NEWLINES3 [10; 10] cleaned.

(** Which [return] of [_extract_consumption_from_text] is taken *)
Inductive branch : Type :=
| NoMarker      (* the marker is not in the text: return None *)
| Primary       (* the pattern matched: return match.group(1).strip() *)
| Fallback      (* the window of 3500 characters after the marker *)
| NotFound.     (* the final return None *)

Definition extract_branch (text : str) : branch * option str :=
  if negb (contains MARKER text) then (NoMarker, None)
  else
    let cleaned := clean text in
    match search DOTALL_IGNORECASE EXTRACT_PATTERN cleaned with
    | Some m => (Primary, Some (strip (group m 1)))
    | None =>
        match find (lower cleaned) (lit "verbrauchswerte") with
        | Some idx =>
            (Fallback,
             Some (strip (firstn CONSUMPTION_EXTRACT_MAX_LENGTH (skipn idx cleaned))))
        | None => (NotFound, None)
        end
    end.

(** Extract consumption section from free text. *)
Definition _extract_consumption_from_text (text : str) : option str :=
  snd (extract_branch text).

(** [candidates.sort(key=lambda item: item[0], reverse=True)]: list.sort is
    stable, also with reverse=True, and a stable sort is determined by the
    order it sorts by; this insertion sort is one. *)
Fixpoint insert_desc (x : str * str) (l : list (str * str)) : list (str * str) :=
  match l with
  | [] => [x]
  | y :: l' =>
      if ltb (fst x) (fst y) then y :: insert_desc x l' else x :: y :: l'
  end.

Fixpoint sort_desc (l : list (str * str)) : list (str * str) :=
  match l with
  | [] => []
  | x :: l' => insert_desc x (sort_desc l')
  end.

(** [re.sub(r"\s+", " ", message).strip()] *)
Definition normalize_message (message : str) : str :=
  strip (sub NOFLAGS SPACES [32] message).

(** [limit is not None and len(messages) >= limit] *)
Definition limit_reached (limit : option Z) (messages : list str) : bool :=
  match limit with
  | Some n => (n <=? Z.of_nat (List.length messages))%Z
  | None => false
  end.

(** The loop over the sorted candidates *)
Fixpoint dedup_loop (limit : option Z) (seen : gset (list N))
    (messages : list str) (candidates : list (str * str)) : list str :=
  match candidates with
  | [] => messages
  | (_, message) :: rest =>
      let normalized := normalize_message message in
      if bool_decide (normalized ∈ seen) then
        dedup_loop limit seen messages rest
      else
        let seen := {[ normalized ]} ∪ seen in
        let messages := messages ++ [message] in
        if limit_reached limit messages then messages
        else dedup_loop limit seen messages rest
  end.

(** Deduplicate messages by normalized text and apply limit.  The list
    object of the caller is sorted in place: the second component is its
    content when the method returns. *)
Definition _deduplicate_and_limit (candidates : list (str * str))
    (limit : option Z) : list str * list (str * str) :=
  match candidates with
  | [] => ([], candidates)
  | _ :: _ =>
      let candidates := sort_desc candidates in
      (dedup_loop limit ∅ [] candidates, candidates)
  end.

Definition KEYWORDS : list str :=
  List.map lit ["Kaltwasser"; "Warmwasser"; "Heizung"]%string.

(** [re.search(keyword, message_text, re.IGNORECASE)] as a truth value *)
Definition keyword_found (keyword message_text : str) : bool :=
  match search IGNORECASE (Str keyword) message_text with
  | Some _ => true
  | None => false
  end.

(** Score a message candidate based on length and keyword presence. *)
Definition _score_message_candidate (message_text : str) : Z :=
  fold_left
    (fun score keyword =>
       if keyword_found keyword message_text then (score + 500)%Z else score)
    KEYWORDS (Z.of_nat (List.length message_text)).

(** The selection loop of [_find_latest_consumption_message_from_html] *)
Fixpoint select_loop (candidates : list str) (best_message : option str)
    (best_score : Z) : option str :=
  match candidates with
  | [] => best_message
  | candidate :: rest =>
      match _extract_consumption_from_text candidate with
      | None | Some [] => select_loop rest best_message best_score
      | Some message_text =>
          let score := _score_message_candidate message_text in
          if (best_score <? score)%Z
          then select_loop rest (Some message_text) score
          else select_loop rest best_message best_score
      end
  end.

(** Fallback HTML parsing for one consumption message, from the candidate
    texts collected on the page. *)
Definition _find_latest_consumption_message_from_html (candidates : list str)
    : option str :=
  select_loop candidates None (-1)%Z.

(** Parse customer token, facility object ID, and optional activity ID from
    the messages URL.  The argument is the path of the URL,
    [urlparse(config.HOMECASE_URL_MESSAGES).path]; [urlparse] itself is not
    modelled. *)
Definition _parse_message_url_context (path : str)
    : option (str * str * option str) :=
  let parsed_path :=
    List.filter (fun part => negb (eqb part [])) (split 47 path) in
  match parsed_path with
  | p0 :: p1 :: p2 :: p3 :: rest =>
      if negb (eqb p1 (lit "objekte")) || negb (eqb p3 (lit "nachrichten"))
      then None
      else
        let customer_token := p0 in
        let facility_object_id := p2 in
        let activity_id := match rest with p4 :: _ => Some p4 | [] => None end in
        Some (customer_token, facility_object_id, activity_id)
  | _ => None
  end.

End Scraper.

(** ** src/database.py: the name of the database, and the table of the
    messages

    The table consumption_messages is taken as the set of the values of
    its column content_hash, which is declared UNIQUE NOT NULL:
    [check_exists] asks whether a hash is in the set, [save_message] adds
    one, and the insert of a hash that is there violates the constraint
    (IntegrityError, which [save_message] turns into ValueError; the
    transaction is rolled back).  Failures of the connection are not
    modelled. *)

Module Database.
Import Py Exn.

Definition safe_chars : gset N :=
  list_to_set
    (lit "abcdefghijklmnopqrstuvwxyzABCDEFGHIJKLMNOPQRSTUVWXYZ0123456789_-").

(** Validate database name contains only safe characters. *)
Definition _validate_database_name (name : str) : result unit :=
  if negb (forallb (fun c => bool_decide (c ∈ safe_chars)) name)
  then Raise (ValueError
                (lit "Invalid database name (contains unsafe characters): "
                 ++ name))
  else Ok tt.

(** [create_database_if_not_exists] up to the statement it executes when
    the database is missing, [f'CREATE DATABASE "{database_name}"'], for
    the database name of the URL (None if the URL has no path). *)
Definition create_database_statement (database_name : option str) : result str :=
  match database_name with
  | None | Some [] =>
      Raise (ValueError (lit "Database name not found in DATABASE_URL"))
  | Some name =>
      let* _ := _validate_database_name name in
      Ok (lit "CREATE DATABASE " ++ [34] ++ name ++ [34])
  end.

Definition table := gset (list N).

(** Check if a message with the given content hash already exists. *)
Definition check_exists (content_hash : str) (db : table) : bool :=
  bool_decide (content_hash ∈ db).

(** Save a new consumption message to the database. *)
Definition save_message (content_hash : str) (db : table) : result unit * table :=
  if bool_decide (content_hash ∈ db)
  then (Raise (ValueError (lit "Message already exists")), db)
  else (Ok tt, {[ content_hash ]} ∪ db).

End Database.

(** ** src/main.py: the messages that are new *)

Module Main.
Import Py Exn Models Parser Database.

(** The loop of [main] over the raw messages: each one is parsed, skipped
    if its hash is in the table, saved and appended to [new_messages]
    otherwise.  An exception leaves the loop. *)
Fixpoint process_messages (raw_messages : list str) (db : table)
    (new_messages : list ParsedMessage)
    : result (list ParsedMessage) * table :=
  match raw_messages with
  | [] => (Ok new_messages, db)
  | raw_message :: rest =>
      match parse_message raw_message with
      | Raise e => (Raise e, db)
      | Ok parsed_message =>
          if check_exists (content_hash parsed_message) db
          then process_messages rest db new_messages
          else
            match save_message (content_hash parsed_message) db with
            | (Raise e, db) => (Raise e, db)
            | (Ok _, db) =>
                process_messages rest db (new_messages ++ [parsed_message])
            end
      end
  end.

(** How [main] ends once the raw messages are there: with an exit code, or
    with the e-mails for the new messages (and then the exit code 0, or 1
    if sending fails). *)
Inductive outcome : Type :=
| Exit (code : Z)
| Notify (new_messages : list ParsedMessage).

Definition main (raw_messages : list str) (db : table) : outcome * table :=
  match raw_messages with
  | [] => (Exit 2, db)
  | _ :: _ =>
      match process_messages raw_messages db [] with
      | (Raise _, db) => (Exit 1, db)
      | (Ok [], db) => (Exit 2, db)
      | (Ok new_messages, db) => (Notify new_messages, db)
      end
  end.

End Main.

(** ** Vocabulary of the statements, and the messages used as examples *)

Module Spec.
Import Py Exn Num Models Parser.

(** What a reading must satisfy: no negative value, one of the two units *)
Definition valid_consumption (cd : ConsumptionData) : Prop :=
  (0 <= current_month cd)%Q /\ (0 <= previous_year cd)%Q
  /\ (0 <= property_average cd)%Q
  /\ (unit cd = lit "m³" \/ unit cd = lit "kWh").

(** A notice for December 2025, with the three sections and the closing *)
Definition notice : str :=
  join [10] (List.map lit
    ["Verbrauchswerte Dezember 2025"; "";
     "Kaltwasser"; "2025: 1,234 m³"; "2024: 2,5 m³";
     "Durchschnitt der Liegenschaft: 3,1 m³"; "";
     "Warmwasser"; "2025: 0,5 m³"; "2024: 0.75 m³";
     "Durchschnitt der Liegenschaft: 0,6 m³"; "";
     "Heizung"; "2025: 120,5 kWh"; "2024: 130,0 kWh";
     "Heizung auf Basis der Liegenschaft: 110,25 kWh"; "";
     "Falls Sie Fragen haben, melden Sie sich."]%string).

(** No line of the text is the header of the section *)
Definition no_header (section_name text : str) : bool :=
  forallb (fun line => negb (eqb (lower (strip line)) (lower section_name)))
    (text_lines text).

(** A notice dated with the year 0000, without a Warmwasser section *)
Definition notice_year_0000 : str :=
  join [10] (List.map lit
    ["Januar 0000"; "Kaltwasser"; "2025: 1,0 m³"; "2024: 2,0 m³";
     "Durchschnitt: 3,0 m³"]%string).

(** A notice without a Warmwasser section *)
Definition notice_without_warmwasser : str :=
  join [10] (List.map lit
    ["Dezember 2025"; "Kaltwasser"; "2025: 1,0 m³"; "2024: 2,0 m³";
     "Durchschnitt: 3,0 m³"; "Heizung"; "2025: 120,5 kWh"; "2024: 130,0 kWh";
     "Heizung auf Basis der Liegenschaft: 110,25 kWh"]%string).

(** A complete notice dated 1999 *)
Definition notice_1999 : str :=
  join [10] (List.map lit
    ["Verbrauchswerte Dezember 1999"; "";
     "Kaltwasser"; "2025: 1,234 m³"; "2024: 2,5 m³";
     "Durchschnitt der Liegenschaft: 3,1 m³"; "";
     "Warmwasser"; "2025: 0,5 m³"; "2024: 0.75 m³";
     "Durchschnitt der Liegenschaft: 0,6 m³"; "";
     "Heizung"; "2025: 120,5 kWh"; "2024: 130,0 kWh";
     "Heizung auf Basis der Liegenschaft: 110,25 kWh"]%string).

(** The characters of the patterns \r\n? and \n{3,} *)
Definition line_end_char (c : char) : bool := (c =? 13) || (c =? 10).
Definition newline_char (c : char) : bool := c =? 10.

(** A keyword occurs in a text without regard to case: some part of the
    text matches it character by character under IGNORECASE. *)
Definition ci_occurs (keyword text : str) : Prop :=
  exists pre w post,
    text = pre ++ w ++ post
    /\ Forall2 (fun p c => Re.lit_ic p c = true) keyword w.

(** The messages the selection loop scores: what the extractor returns for
    the candidates, in scan order *)
Definition extracted (candidates : list str) : list str :=
  flat_map
    (fun candidate =>
       match Scraper._extract_consumption_from_text candidate with
       | Some (c :: m) => [c :: m]
       | _ => []
       end) candidates.

(** [r] is the first message of [msgs] with the highest score. *)
Definition first_best (msgs : list str) (r : option str) : Prop :=
  match r with
  | None => msgs = []
  | Some best =>
      exists before after,
        msgs = before ++ best :: after
        /\ Forall (fun m => (Scraper._score_message_candidate m
                             < Scraper._score_message_candidate best)%Z) before
        /\ Forall (fun m => (Scraper._score_message_candidate m
                             <= Scraper._score_message_candidate best)%Z) after
  end.

(** The state of the selection loop after the messages [seen] *)
Definition loop_state (seen : list str) (best_message : option str)
    (best_score : Z) : Prop :=
  first_best seen best_message
  /\ best_score = match best_message with
                  | Some b => Scraper._score_message_candidate b
                  | None => (-1)%Z
                  end.

(** Newest first: no candidate has a timestamp below that of a later one *)
Definition sorted_desc (l : list (str * str)) : Prop :=
  StronglySorted (fun x y => ltb (fst x) (fst y) = false) l.

(** The candidates with the timestamp [k], in the order of the list *)
Definition with_timestamp (k : str) (l : list (str * str)) : list (str * str) :=
  List.filter (fun x => eqb (fst x) k) l.

(** The reading of the deduplicate-and-limit operation in the
    specification: the texts newest first, every text dropped whose
    normalised form was already kept, at most [limit] of them. *)
Fixpoint drop_duplicates (seen : list str) (messages : list str) : list str :=
  match messages with
  | [] => []
  | message :: rest =>
      let normalized := Scraper.normalize_message message in
      if existsb (eqb normalized) seen then drop_duplicates seen rest
      else message :: drop_duplicates (normalized :: seen) rest
  end.

Definition deduplicate_and_limit_spec (candidates : list (str * str))
    (limit : option Z) : list str :=
  let kept := drop_duplicates [] (List.map snd (Scraper.sort_desc candidates)) in
  match limit with
  | None => kept
  | Some n => firstn (Z.to_nat n) kept
  end.

(** The text matches one of the twelve month names under IGNORECASE. *)
Definition month_name_match (mon : str) : Prop :=
  Exists (fun name => Forall2 (fun p c => Re.lit_ic p c = true) name mon)
    MONTH_NAMES.

(** Neither white space, nor a sign, a point or a comma *)
Definition plain_char (c : char) : bool :=
  negb (isspace c) && negb (c =? 43) && negb (c =? 44) && negb (c =? 45)
  && negb (c =? 46).

(** A word of \d+[.,]\d+ *)
Definition number_word (w : str) : Prop :=
  exists ip sep fp,
    w = ip ++ sep :: fp
    /\ ip <> [] /\ fp <> []
    /\ Forall (fun c => isdecimal c = true) ip
    /\ Forall (fun c => isdecimal c = true) fp
    /\ point_or_comma sep = true.

(** The five errors [parse_consumption_section] raises by itself *)
Definition section_errors (section_name : str) : list exn :=
  [ValueError (lit "Could not find " ++ section_name ++ lit " section");
   ValueError (lit "Could not parse content for " ++ section_name);
   ValueError (lit "Could not determine unit for " ++ section_name);
   ValueError (lit "Could not find both current month and previous year values for "
               ++ section_name);
   ValueError (lit "Could not find property average for " ++ section_name)].

(** How many characters at the start of [s] satisfy [f] *)
Fixpoint leading (f : char -> bool) (s : str) : nat :=
  match s with
  | c :: t => if f c then S (leading f t) else O
  | [] => O
  end.

(** No two neighbours in [s] both satisfy [f]. *)
Fixpoint apart (f : char -> bool) (s : str) : Prop :=
  match s with
  | [] => True
  | x :: t =>
      match t with
      | y :: _ => f x && f y = false
      | [] => True
      end /\ apart f t
  end.

(** The text starts with the marker, in any case *)
Definition marker_ahead (s : str) : Prop :=
  exists w rest,
    s = w ++ rest
    /\ Forall2 (fun p c => Re.lit_ic p c = true) Scraper.MARKER w.

(** The text starts with a newline and one of the closing phrases, in any
    case: a closing line begins here *)
Definition closing_ahead (s : str) : Prop :=
  exists phrase w rest,
    In phrase Scraper.CLOSINGS
    /\ s = 10 :: w ++ rest
    /\ Forall2 (fun p c => Re.lit_ic p c = true) phrase w.

(** A letter a-z or A-Z, a digit, the underscore or the hyphen *)
Definition safe_char (c : char) : bool :=
  ((97 <=? c) && (c <=? 122)) || ((65 <=? c) && (c <=? 90))
  || ((48 <=? c) && (c <=? 57)) || (c =? 95) || (c =? 45).

(** The three characters that IGNORECASE takes for an i or an s of a
    pattern and that [str.lower] does not turn into that letter: capital I
    with a dot, dotless i, long s *)
Definition odd_case_char (c : char) : bool :=
  (c =? 0x130) || (c =? 0x131) || (c =? 0x17F).

Definition year_error : exn :=
  ValidationError (lit "Year must be between 2000 and 2100").

(** The errors that leave [parse_message] *)
Definition message_error (e : exn) : Prop :=
  e = UnicodeEncodeError
  \/ e = ValueError (lit "Could not find month and year in message")
  \/ (exists key, e = KeyError key)
  \/ e = ValueError (lit "year 0 is out of range")
  \/ In e (section_errors (lit "Kaltwasser"))
  \/ In e (section_errors (lit "Warmwasser"))
  \/ In e (section_errors (lit "Heizung"))
  \/ e = year_error.

End Spec.

(** * Properties *)
(** ** UTF-8 encoding and the hexadecimal digest *)

Section Hash.
Import Py Exn Sha256 Parser.

Lemma encode_char_scalar c :
  is_scalar c = true -> exists bs, encode_char c = Some bs.
Proof.
  unfold is_scalar, is_codepoint, encode_char.
  intros [Hc Hs%negb_true_iff]%andb_true_iff.
  rewrite Hs, Hc.
  repeat match goal with |- context [if ?b then _ else _] => destruct b end; eauto.
Qed.

Lemma encode_utf8_scalar s :
  Forall (fun c => is_scalar c = true) s -> exists bs, encode_utf8 s = Some bs.
Proof.
  induction 1 as [|c s Hc _ [rest IH]]; simpl; [eauto|].
  destruct (encode_char_scalar c Hc) as [bs ->].
  rewrite IH. eauto.
Qed.

Lemma encode_utf8_surrogate s :
  Exists (fun c => is_surrogate c = true) s -> encode_utf8 s = None.
Proof.
  induction 1 as [c s Hc|c s _ IH]; simpl.
  - assert (encode_char c = None) as ->; [|reflexivity].
    unfold encode_char. unfold is_surrogate in *.
    apply andb_true_iff in Hc as [H1%N.leb_le H2%N.leb_le].
    destruct (c <? 128) eqn:E1; [apply N.ltb_lt in E1; lia|].
    destruct (c <? 2048) eqn:E2; [apply N.ltb_lt in E2; lia|].
    assert ((55296 <=? c) && (c <=? 57343) = true) as ->; [|reflexivity].
    apply andb_true_iff; split; apply N.leb_le; lia.
  - rewrite IH. destruct (encode_char c); reflexivity.
Qed.

Lemma hexdigit_lower n : n < 16 -> is_lower_hex (hexdigit n) = true.
Proof.
  intros Hn. unfold hexdigit, is_lower_hex.
  destruct (n <? 10) eqn:E.
  - apply N.ltb_lt in E. apply orb_true_iff; left.
    apply andb_true_iff; split; apply N.leb_le; lia.
  - apply N.ltb_ge in E. apply orb_true_iff; right.
    apply andb_true_iff; split; apply N.leb_le; lia.
Qed.

Lemma hex32_length w : List.length (hex32 w) = 8%nat.
Proof. reflexivity. Qed.

Lemma hex32_lower w : Forall (fun c => is_lower_hex c = true) (hex32 w).
Proof.
  unfold hex32. apply Forall_map, Forall_forall. intros sh _.
  apply hexdigit_lower. apply N.mod_lt. discriminate.
Qed.

Lemma hexdigest_length st : List.length (hexdigest st) = 64%nat.
Proof. unfold hexdigest. rewrite !length_app, !hex32_length. reflexivity. Qed.

Lemma hexdigest_lower st : Forall (fun c => is_lower_hex c = true) (hexdigest st).
Proof. unfold hexdigest. repeat apply Forall_app_2; apply hex32_lower. Qed.

End Hash.

(** ** The matcher: every result is handed over by the continuation *)

Section Engine.
Import Py Re.

Lemma orelse_Some (a b : option res) x :
  orelse a b = Some x -> a = Some x \/ (a = None /\ b = Some x).
Proof. destruct a; simpl; intros H; [left; congruence | right; auto]. Qed.

Lemma star_loop_through fuel g body :
  through body -> through (star_loop fuel g body).
Proof.
  intros Hb. induction fuel as [|f IH]; intros s c k x; simpl.
  - intros H. exists [], s, c. auto.
  - set (again := body s c _).
    assert (Hagain : again = Some x ->
                     exists w s' c', s = w ++ s' /\ k s' c' = Some x).
    { unfold again. intros H. apply Hb in H as (w1 & s1 & c1 & -> & H).
      destruct (_ <? _)%nat; [|discriminate].
      apply IH in H as (w2 & s2 & c2 & -> & H).
      exists (w1 ++ w2), s2, c2. rewrite <- app_assoc. auto. }
    assert (Hk : k s c = Some x ->
                 exists w s' c', s = w ++ s' /\ k s' c' = Some x).
    { intros H. exists [], s, c. auto. }
    destruct g; intros [H|[_ H]]%orelse_Some; auto.
Qed.

Lemma rmatch_through fl r : through (rmatch fl r).
Proof.
  induction r as [|p| |f|a IHa b IHb|a IHa b IHb|g a IHa|i a IHa|a IHa|];
    intros s c k x; simpl.
  - intros H. exists [], s, c. auto.
  - destruct s as [|y s]; [discriminate|]. destruct (chr_match fl p y); [|discriminate].
    intros H. exists [y], s, c. auto.
  - destruct s as [|y s]; [discriminate|]. destruct (any_match fl y); [|discriminate].
    intros H. exists [y], s, c. auto.
  - destruct s as [|y s]; [discriminate|]. destruct (f y); [|discriminate].
    intros H. exists [y], s, c. auto.
  - intros H. apply IHa in H as (w1 & s1 & c1 & -> & H).
    apply IHb in H as (w2 & s2 & c2 & -> & H).
    exists (w1 ++ w2), s2, c2. rewrite <- app_assoc. auto.
  - intros [H|[_ H]]%orelse_Some; [apply IHa in H | apply IHb in H]; auto.
  - apply star_loop_through, IHa.
  - intros H. apply IHa in H as (w1 & s1 & c1 & -> & H). eauto.
  - destruct (rmatch fl a s c _) as [[? c']|]; [|discriminate].
    intros H. exists [], s, c'. auto.
  - destruct s; [|discriminate]. intros H. exists [], [], c. auto.
Qed.

(** A search that succeeds matched at some suffix of the subject. *)
Lemma search_from_inv fl r pos s m :
  search_from fl r pos s = Some m ->
  exists pre s' x, s = pre ++ s' /\ match_at fl r s' = Some x
                   /\ m = mk_match (pos + List.length pre) s' x
                   /\ Forall (fun t => match_at fl r t = None)
                        (List.map (fun n => skipn n s) (seq 0 (List.length pre))).
Proof.
  revert pos. induction s as [|y s IH]; intros pos; simpl.
  - destruct (match_at fl r []) as [x|] eqn:E; [|discriminate].
    intros [= <-]. exists [], [], x. rewrite Nat.add_0_r. repeat split; auto.
  - destruct (match_at fl r (y :: s)) as [x|] eqn:E.
    + intros [= <-]. exists [], (y :: s), x. rewrite Nat.add_0_r. repeat split; auto.
    + intros H. apply IH in H as (pre & s' & x & -> & Hm & -> & Hnone).
      exists (y :: pre), s', x. repeat split; auto.
      * f_equal. simpl. lia.
      * simpl. constructor; [exact E|].
        rewrite <- seq_shift, List.map_map. exact Hnone.
Qed.

Lemma search_from_None fl r pos s :
  search_from fl r pos s = None -> match_at fl r s = None.
Proof. destruct s; simpl; destruct (match_at fl r _); congruence. Qed.

Lemma search_from_Some_suffix fl r pos pre s :
  match_at fl r s <> None -> search_from fl r pos (pre ++ s) <> None.
Proof.
  intros Hs. revert pos. induction pre as [|y pre IH]; intros pos; simpl.
  - destruct s; simpl; destruct (match_at fl r _); congruence.
  - destruct (match_at fl r (y :: pre ++ s)); [congruence | apply IH].
Qed.

(** Literal strings *)
Lemma rmatch_Str fl w s c k :
  rmatch fl (Str w) s c k
  = if lit_prefix fl w s then k (skipn (List.length w) s) c else None.
Proof.
  revert s. induction w as [|p w IH]; intros s; [reflexivity|].
  destruct w as [|q w].
  - simpl. destruct s as [|x s]; [reflexivity|].
    rewrite andb_true_r. reflexivity.
  - change (Str (p :: q :: w)) with (Seq (Chr p) (Str (q :: w))).
    cbn [rmatch]. destruct s as [|x s]; [reflexivity|].
    cbn [lit_prefix]. destruct (chr_match fl p x); [|reflexivity].
    rewrite IH. reflexivity.
Qed.

Lemma lit_prefix_split fl w s :
  lit_prefix fl w s = true ->
  exists u, s = u ++ skipn (List.length w) s
            /\ Forall2 (fun p x => chr_match fl p x = true) w u.
Proof.
  revert s. induction w as [|p w IH]; intros s; simpl.
  - exists []. auto.
  - destruct s as [|x s]; [discriminate|].
    intros [Hp (u & Hu & HF)%IH]%andb_true_iff.
    exists (x :: u). split; [simpl; congruence | constructor; auto].
Qed.

Lemma lit_prefix_exact w s :
  lit_prefix NOFLAGS w s = true -> s = w ++ skipn (List.length w) s.
Proof.
  intros (u & Hu & HF)%lit_prefix_split.
  assert (u = w) as <-; [|exact Hu].
  clear Hu. induction HF as [|p x w u Hpx _ IH]; [reflexivity|].
  apply N.eqb_eq in Hpx. congruence.
Qed.

Lemma lit_prefix_refl fl w s : lit_prefix fl w (w ++ s) = true.
Proof.
  induction w as [|p w IH]; simpl; [reflexivity|].
  rewrite IH, andb_true_r. unfold chr_match, lit_ic.
  destruct (ignorecase fl); rewrite N.eqb_refl; reflexivity.
Qed.

(** The text captured when the match went from [w ++ s] to [s] *)
Lemma captured_prefix (w s : str) :
  firstn (List.length (w ++ s) - List.length s) (w ++ s) = w.
Proof.
  rewrite length_app, Nat.add_sub. apply (take_app_length w s).
Qed.

Lemma captured_exact w s :
  lit_prefix NOFLAGS w s = true ->
  firstn (List.length s - List.length (skipn (List.length w) s)) s = w.
Proof.
  intros E%lit_prefix_exact. set (t := skipn _ s) in *. clearbody t.
  subst s. apply captured_prefix.
Qed.

End Engine.
(** ** The result monad *)

Section Results.
Import Exn.

Lemma bind_Ok {A B} (x : result A) (f : A -> result B) b :
  bind x f = Ok b -> exists a, x = Ok a /\ f a = Ok b.
Proof. destruct x as [a|e]; simpl; [eauto | discriminate]. Qed.

Lemma bind_Raise {A B} (x : result A) (f : A -> result B) e :
  x = Raise e -> bind x f = Raise e.
Proof. intros ->. reflexivity. Qed.

End Results.

(** ** The units and the values of a parsed section *)

Section Sections.
Import Py Exn Num Models Re Parser Spec.

Lemma unit_match_at s x :
  match_at NOFLAGS UNIT_PATTERN s = Some x ->
  group_in (snd x) 1 = Some (lit "m³") \/ group_in (snd x) 1 = Some (lit "kWh").
Proof.
  unfold match_at, UNIT_PATTERN, UNIT_TOKENS. cbn [rmatch].
  rewrite !rmatch_Str.
  intros [H|[_ H]]%orelse_Some; [left | right];
    destruct (lit_prefix _ _ s) eqn:E; try discriminate;
    rewrite (captured_exact _ _ E) in H; injection H as <-; reflexivity.
Qed.

Lemma unit_search s m :
  search NOFLAGS UNIT_PATTERN s = Some m ->
  group m 1 = lit "m³" \/ group m 1 = lit "kWh".
Proof.
  intros (pre & s' & x & _ & Hx & -> & _)%search_from_inv.
  unfold group. simpl. destruct (unit_match_at _ _ Hx) as [-> | ->]; auto.
Qed.

Lemma validate_positive_Ok v v' :
  validate_positive v = Ok v' -> v' = v /\ (0 <= v)%Q.
Proof.
  unfold validate_positive. destruct (Qle_bool 0 v) eqn:E; simpl; [|discriminate].
  intros [= <-]. split; [reflexivity | now apply Qle_bool_iff].
Qed.

Lemma new_ConsumptionData_Ok cm py pa u cd :
  new_ConsumptionData cm py pa u = Ok cd ->
  cd = {| current_month := cm; previous_year := py;
          property_average := pa; unit := u |}
  /\ (0 <= cm)%Q /\ (0 <= py)%Q /\ (0 <= pa)%Q.
Proof.
  unfold new_ConsumptionData.
  intros (cm' & [-> H1]%validate_positive_Ok & H)%bind_Ok.
  apply bind_Ok in H as (py' & [-> H2]%validate_positive_Ok & H).
  apply bind_Ok in H as (pa' & [-> H3]%validate_positive_Ok & H).
  injection H as <-. auto.
Qed.

Lemma parse_consumption_section_valid text name cd :
  parse_consumption_section text name = Ok cd -> valid_consumption cd.
Proof.
  unfold parse_consumption_section.
  intros (section_text & _ & H)%bind_Ok.
  destruct (search NOFLAGS UNIT_PATTERN section_text) as [um|] eqn:Hu;
    [|discriminate].
  destruct (finditer _ _ _) as [|m0 [|m1 ms]]; try discriminate.
  apply bind_Ok in H as (cv & _ & H).
  apply bind_Ok in H as (pv & _ & H).
  destruct (search IGNORECASE AVERAGE_PATTERN section_text); [|discriminate].
  apply bind_Ok in H as (av & _ & H).
  apply new_ConsumptionData_Ok in H as (-> & H1 & H2 & H3).
  unfold valid_consumption; simpl. repeat split; auto.
  now apply unit_search in Hu.
Qed.

Lemma new_ParsedMessage_Ok m y d k w h raw hash pm :
  new_ParsedMessage m y d k w h raw hash = Ok pm ->
  pm = {| month := m; year := y; message_date := d; kaltwasser := k;
          warmwasser := w; heizung := h; raw_message := raw;
          content_hash := hash |}
  /\ (2000 <= y <= 2100)%Z.
Proof.
  unfold new_ParsedMessage, validate_year.
  destruct (_ || _) eqn:E; simpl; [discriminate|].
  intros [= <-]. split; [reflexivity|]. lia.
Qed.

(** What a successful [parse_message] went through *)
Lemma parse_message_Ok raw pm :
  parse_message raw = Ok pm ->
  exists hash mon y n d k w h,
    generate_content_hash raw = Ok hash
    /\ parse_month_year raw = Ok (mon, y)
    /\ month_number (lower mon) = Ok n
    /\ py_date y n 1 = Ok d
    /\ parse_consumption_section raw (lit "Kaltwasser") = Ok k
    /\ parse_consumption_section raw (lit "Warmwasser") = Ok w
    /\ parse_consumption_section raw (lit "Heizung") = Ok h
    /\ (2000 <= y <= 2100)%Z
    /\ pm = {| month := mon; year := y; message_date := d; kaltwasser := k;
               warmwasser := w; heizung := h; raw_message := raw;
               content_hash := hash |}.
Proof.
  unfold parse_message.
  intros (hash & Hh & H)%bind_Ok.
  apply bind_Ok in H as ([mon y] & Hmy & H).
  apply bind_Ok in H as (n & Hn & H).
  apply bind_Ok in H as (d & Hd & H).
  apply bind_Ok in H as (k & Hk & H).
  apply bind_Ok in H as (w & Hw & H).
  apply bind_Ok in H as (h & Hhz & H).
  apply new_ParsedMessage_Ok in H as [-> Hy].
  exists hash, mon, y, n, d, k, w, h. repeat split; auto; lia.
Qed.

End Sections.

(** C1: on every raw message on which [parse_message] succeeds, the three
    readings of the result (kaltwasser, warmwasser, heizung) have a
    non-negative current month, previous year and property average, and a
    unit that is "m³" or "kWh". *)
Theorem C1_parsed_readings_valid (raw : Py.str) (pm : Models.ParsedMessage) :
  Parser.parse_message raw = Exn.Ok pm ->
  Spec.valid_consumption (Models.kaltwasser pm)
  /\ Spec.valid_consumption (Models.warmwasser pm)
  /\ Spec.valid_consumption (Models.heizung pm).
Proof.
  intros (hash & mon & y & n & d & k & w & h & _ & _ & _ & _ & Hk & Hw & Hh
          & _ & ->)%parse_message_Ok.
  simpl. split; [|split]; eapply parse_consumption_section_valid; eassumption.
Qed.

Lemma C1_parsed_readings_valid_witness :
  exists pm, Parser.parse_message Spec.notice = Exn.Ok pm
    /\ Spec.valid_consumption (Models.kaltwasser pm)
    /\ Spec.valid_consumption (Models.warmwasser pm)
    /\ Spec.valid_consumption (Models.heizung pm).
Proof.
  eexists. split; [vm_compute; reflexivity|].
  apply (C1_parsed_readings_valid Spec.notice). vm_compute. reflexivity.
Defined.

(** ** The content hash *)

(** C3, as stated, fails: a Python string may hold a lone surrogate (as
    json.loads returns for an escape like \ud800), and on such a string
    [text.encode("utf-8")] raises UnicodeEncodeError, so that no hash is
    returned. *)
Lemma C3_no_hash_for_lone_surrogate :
  Py.wf_str [0xD800]
  /\ ~ (exists h, Parser.generate_content_hash [0xD800] = Exn.Ok h
                  /\ List.length h = 64%nat).
Proof.
  split.
  - constructor; [reflexivity | constructor].
  - intros (h & H & _). vm_compute in H. discriminate H.
Qed.

(** C3, amended: for every raw message without surrogate code points (every
    text that UTF-8 can encode), [generate_content_hash] returns a string of
    64 lower-case hexadecimal digits that depends on the raw text only;
    [parse_message] on the same raw message gives the same result, and a
    result it returns carries that hash and the raw message. *)
Theorem C3_content_hash_of_encodable_text (raw : Py.str) :
  forallb Py.is_scalar raw = true ->
  exists h,
    Parser.generate_content_hash raw = Exn.Ok h
    /\ List.length h = 64%nat
    /\ forallb Sha256.is_lower_hex h = true
    /\ (forall raw', raw' = raw ->
          Parser.generate_content_hash raw' = Exn.Ok h
          /\ Parser.parse_message raw' = Parser.parse_message raw)
    /\ (forall pm, Parser.parse_message raw = Exn.Ok pm ->
          Models.content_hash pm = h /\ Models.raw_message pm = raw).
Proof.
  intros Hs.
  destruct (encode_utf8_scalar raw) as [bs Hbs].
  { apply Forall_forall. intros c Hc%list_elem_of_In.
    exact (proj1 (forallb_forall Py.is_scalar raw) Hs c Hc). }
  assert (Hh : Parser.generate_content_hash raw
               = Exn.Ok (Sha256.hexdigest (Sha256.digest bs))).
  { unfold Parser.generate_content_hash, Sha256.sha256_hex. now rewrite Hbs. }
  exists (Sha256.hexdigest (Sha256.digest bs)).
  split; [exact Hh|]. split; [apply hexdigest_length|]. split; [|split].
  - apply (proj2 (forallb_forall Sha256.is_lower_hex _)). intros c Hc.
    pose proof (hexdigest_lower (Sha256.digest bs)) as HF.
    rewrite Forall_forall in HF. apply HF. now apply list_elem_of_In.
  - intros raw' ->. auto.
  - intros pm (hash & mon & y & n & d & k & w & hz & Hh' & _ & _ & _ & _ & _
               & _ & _ & ->)%parse_message_Ok.
    simpl. split; [congruence | reflexivity].
Qed.

Lemma C3_content_hash_of_encodable_text_witness :
  forallb Py.is_scalar Spec.notice = true
  /\ exists h,
    Parser.generate_content_hash Spec.notice = Exn.Ok h
    /\ List.length h = 64%nat
    /\ forallb Sha256.is_lower_hex h = true
    /\ (forall raw', raw' = Spec.notice ->
          Parser.generate_content_hash raw' = Exn.Ok h
          /\ Parser.parse_message raw' = Parser.parse_message Spec.notice)
    /\ (forall pm, Parser.parse_message Spec.notice = Exn.Ok pm ->
          Models.content_hash pm = h /\ Models.raw_message pm = Spec.notice).
Proof.
  split; [vm_compute; reflexivity|].
  apply (C3_content_hash_of_encodable_text Spec.notice).
  vm_compute. reflexivity.
Defined.

(** ** Strings *)

Ltac norm_lits :=
  repeat match goal with
         | |- context [Py.lit ?s] =>
             let v := eval vm_compute in (Py.lit s) in change (Py.lit s) with v
         | H : context [Py.lit ?s] |- _ =>
             let v := eval vm_compute in (Py.lit s) in
             change (Py.lit s) with v in H
         end.

Section Strings.
Import Py.

Lemma eqb_eq (a b : str) : eqb a b = true <-> a = b.
Proof.
  revert b. induction a as [|x a IH]; intros [|y b]; simpl;
    try (split; [discriminate | congruence]); [tauto|].
  rewrite andb_true_iff, N.eqb_eq, IH. split; [intros [-> ->] | intros [= -> ->]]; auto.
Qed.

Lemma eqb_neq (a b : str) : eqb a b = false <-> a <> b.
Proof.
  rewrite <- eqb_eq. destruct (eqb a b); split; congruence.
Qed.

Lemma startswith_app (s p : str) :
  startswith s p = true <-> exists t, s = p ++ t.
Proof.
  revert s. induction p as [|x p IH]; intros s; simpl.
  - split; [intros _; exists s; reflexivity | intros _; destruct s; reflexivity].
  - destruct s as [|y s]; simpl; [split; [discriminate | intros [t [=]]]|].
    rewrite andb_true_iff, N.eqb_eq, IH. split.
    + intros [-> [t ->]]. eauto.
    + intros [t [= -> ->]]. eauto.
Qed.

Lemma contains_app (p s : str) :
  contains p s = true <-> exists pre post, s = pre ++ p ++ post.
Proof.
  induction s as [|y s IH].
  - change (contains p []) with (startswith [] p || false).
    rewrite orb_false_r, startswith_app. split.
    + intros [t Ht]. exists [], t. exact Ht.
    + intros (pre & post & H). destruct pre; [eauto | discriminate].
  - change (contains p (y :: s)) with (startswith (y :: s) p || contains p s).
    rewrite orb_true_iff, startswith_app, IH. split.
    + intros [[t Ht]|(pre & post & ->)].
      * exists [], t. exact Ht.
      * exists (y :: pre), post. reflexivity.
    + intros (pre & post & H). destruct pre as [|z pre].
      * left. eauto.
      * right. injection H as -> ->. eauto.
Qed.

Lemma lower_app (a b : str) : lower (a ++ b) = lower a ++ lower b.
Proof. apply flat_map_app. Qed.

Lemma lower_nonempty (s : str) : s <> [] -> lower s <> [].
Proof.
  destruct s as [|c s]; [congruence|]. intros _. unfold lower. simpl.
  unfold lower_char. destruct (c =? 304); discriminate.
Qed.

Lemma lstrip_not_space c s : isspace c = false -> lstrip (c :: s) = c :: s.
Proof. intros H. simpl. now rewrite H. Qed.

Lemma lstrip_nil_all_space s : lstrip s = [] -> Forall (fun c => isspace c = true) s.
Proof.
  induction s as [|c s IH]; simpl; [constructor|].
  destruct (isspace c) eqn:E; [|discriminate]. intros H. constructor; auto.
Qed.

(** Stripping keeps a string that has a character that is no white space. *)
Lemma strip_nonempty c s : isspace c = false -> strip (c :: s) <> [].
Proof.
  intros Hc. unfold strip, rstrip. rewrite (lstrip_not_space _ _ Hc).
  intros H. apply (f_equal (@rev char)) in H. rewrite rev_involutive in H.
  simpl in H. apply lstrip_nil_all_space in H.
  rewrite Forall_forall in H.
  assert (isspace c = true); [|congruence].
  apply H. apply list_elem_of_In, in_or_app. right. left. reflexivity.
Qed.

End Strings.

(** ** Section boundaries *)

Section Boundaries.
Import Py Exn Re Parser.

Lemma section_header_iff (w : str) :
  w ∈ SECTION_HEADERS
  <-> w = lit "kaltwasser" \/ w = lit "warmwasser" \/ w = lit "heizung".
Proof.
  unfold SECTION_HEADERS.
  rewrite !elem_of_union, !elem_of_singleton. tauto.
Qed.

Lemma is_boundary_iff section_name line :
  is_boundary section_name line = true
  <-> ((lower (strip line) = lit "kaltwasser"
        \/ lower (strip line) = lit "warmwasser"
        \/ lower (strip line) = lit "heizung")
       /\ lower (strip line) <> lower section_name)
      \/ startswith (lower (strip line)) (lit "falls sie fragen") = true.
Proof.
  unfold is_boundary, SECTION_END_MARKER.
  rewrite orb_true_iff, andb_true_iff, bool_decide_eq_true, negb_true_iff,
    eqb_neq, section_header_iff. tauto.
Qed.

Lemma collect_spec section_name lines :
  exists rest,
    lines = collect section_name lines ++ rest
    /\ Forall (fun l => is_boundary section_name l = false)
         (collect section_name lines)
    /\ match rest with
       | [] => True
       | b :: _ => is_boundary section_name b = true
       end.
Proof.
  induction lines as [|line lines (rest & Hl & Hc & Hr)]; simpl.
  - exists []. repeat split; constructor.
  - destruct (is_boundary section_name line) eqn:E.
    + exists (line :: lines). repeat split; [constructor | exact E].
    + exists rest. repeat split; [simpl; congruence | constructor; auto | exact Hr].
Qed.

Lemma heizung_line_not_boundary section_name line w more :
  strip line = w ++ more -> lower w = lit "heizung" -> more <> [] ->
  is_boundary section_name line = false.
Proof.
  intros Hs Hw Hm. apply not_true_is_false. rewrite is_boundary_iff.
  rewrite Hs, lower_app, Hw.
  pose proof (lower_nonempty more Hm) as Hl.
  destruct (lower more) as [|c t]; [congruence|].
  norm_lits. simpl.
  intros [[[H|[H|H]] _]|H]; discriminate H.
Qed.

Lemma extract_section_text_Ok text section_name section_text :
  _extract_section_text text section_name = Ok section_text ->
  exists start_idx,
    find_start section_name 0 (text_lines text) = Some start_idx
    /\ section_text
       = strip (join [10] (collect section_name
                             (skipn start_idx (text_lines text)))).
Proof.
  unfold _extract_section_text.
  destruct (find_start section_name 0 (text_lines text)) as [i|]; [|discriminate].
  destruct (strip _) eqn:E; [discriminate|]. intros [= <-]. eauto.
Qed.

End Boundaries.

(** C2: in [_extract_section_text] the lines collected for a section are
    the lines after its header up to, and without, the first line whose
    trimmed, lower-cased content is another section header ("kaltwasser",
    "warmwasser", "heizung") or starts with the closing marker.  A line
    whose trimmed content is the word Heizung followed by more text, like
    the average line "Heizung auf Basis ...", is no boundary and stays in
    the section that is being collected. *)
Theorem C2_section_boundary (section_name : Py.str) :
  (forall lines, exists rest,
      lines = Parser.collect section_name lines ++ rest
      /\ Forall (fun l => Parser.is_boundary section_name l = false)
           (Parser.collect section_name lines)
      /\ match rest with
         | [] => True
         | b :: _ => Parser.is_boundary section_name b = true
         end)
  /\ (forall line,
        Parser.is_boundary section_name line = true
        <-> ((Py.lower (Py.strip line) = Py.lit "kaltwasser"
              \/ Py.lower (Py.strip line) = Py.lit "warmwasser"
              \/ Py.lower (Py.strip line) = Py.lit "heizung")
             /\ Py.lower (Py.strip line) <> Py.lower section_name)
            \/ Py.startswith (Py.lower (Py.strip line))
                 (Py.lit "falls sie fragen") = true)
  /\ (forall line w more,
        Py.strip line = w ++ more -> Py.lower w = Py.lit "heizung" ->
        more <> [] -> Parser.is_boundary section_name line = false)
  /\ (forall text section_text,
        Parser._extract_section_text text section_name = Exn.Ok section_text ->
        exists start_idx,
          Parser.find_start section_name 0 (Parser.text_lines text)
          = Some start_idx
          /\ section_text
             = Py.strip (Py.join [10]
                 (Parser.collect section_name
                    (skipn start_idx (Parser.text_lines text)))))
  /\ Parser._extract_section_text Spec.notice (Py.lit "Heizung")
     = Exn.Ok (Py.join [10]
         (List.map Py.lit
            ["2025: 120,5 kWh"; "2024: 130,0 kWh";
             "Heizung auf Basis der Liegenschaft: 110,25 kWh"]%string)).
Proof.
  split; [apply collect_spec|].
  split; [apply is_boundary_iff|].
  split; [apply heizung_line_not_boundary|].
  split; [intros text section_text; apply extract_section_text_Ok|].
  vm_compute. reflexivity.
Qed.

(** ** Month, year and date *)

Section Dates.
Import Py Exn Num Models Re Parser Spec.

Lemma decimal_in_lt zs c d : decimal_in zs c = Some d -> d < 10.
Proof.
  induction zs as [|z zs IH]; simpl; [discriminate|].
  destruct ((z <=? c) && (c <? z + 10)) eqn:E; [|exact IH].
  apply andb_true_iff in E as [H1%N.leb_le H2%N.ltb_lt].
  intros [= <-]. lia.
Qed.

Lemma isdecimal_value c :
  isdecimal c = true -> exists d, decimal c = Some d /\ d < 10.
Proof.
  unfold isdecimal. destruct (decimal c) as [d|] eqn:E; [|discriminate].
  intros _. exists d. split; [reflexivity|]. eapply decimal_in_lt, E.
Qed.

Lemma rmatch_four fl f s c k x :
  rmatch fl (Rep 4 (Cls f)) s c k = Some x ->
  exists a1 a2 a3 a4 s',
    s = [a1; a2; a3; a4] ++ s'
    /\ f a1 = true /\ f a2 = true /\ f a3 = true /\ f a4 = true
    /\ k s' c = Some x.
Proof.
  cbn [Rep rmatch].
  destruct s as [|a1 [|a2 [|a3 [|a4 s']]]];
    repeat match goal with
           | |- context [if f ?a then _ else _] => destruct (f a) eqn:?
           end; try discriminate.
  intros H. exists a1, a2, a3, a4, s'. auto 10.
Qed.

Lemma month_year_group fl s x :
  match_at fl MONTH_YEAR_PATTERN s = Some x ->
  exists a1 a2 a3 a4,
    group_in (snd x) 2 = Some [a1; a2; a3; a4]
    /\ isdecimal a1 = true /\ isdecimal a2 = true
    /\ isdecimal a3 = true /\ isdecimal a4 = true.
Proof.
  unfold match_at, MONTH_YEAR_PATTERN. cbn [rmatch].
  intros (w1 & s1 & c1 & _ & H)%rmatch_through. cbv beta in H.
  apply rmatch_through in H as (w2 & s2 & c2 & _ & H).
  unfold digit in H.
  apply rmatch_four in H as (a1 & a2 & a3 & a4 & s' & -> & H1 & H2 & H3 & H4 & H).
  rewrite captured_prefix in H. injection H as <-.
  exists a1, a2, a3, a4. auto.
Qed.

(** The year of a month/year match has four digits. *)
Lemma parse_month_year_range text mon y :
  parse_month_year text = Ok (mon, y) -> (0 <= y <= 9999)%Z.
Proof.
  unfold parse_month_year, search.
  destruct (search_from _ _ _ _) as [m|] eqn:E; [|discriminate].
  apply search_from_inv in E as (pre & s' & x & _ & Hx & -> & _).
  apply month_year_group in Hx as (a1 & a2 & a3 & a4 & Hg & H1 & H2 & H3 & H4).
  unfold group. cbn [m_groups mk_match]. rewrite Hg.
  apply isdecimal_value in H1 as (d1 & E1 & ?), H2 as (d2 & E2 & ?),
    H3 as (d3 & E3 & ?), H4 as (d4 & E4 & ?).
  unfold py_int. cbn [digits_value]. rewrite E1, E2, E3, E4.
  cbn [bind]. intros [= _ <-]. lia.
Qed.

Lemma month_number_range key n : month_number key = Ok n -> (1 <= n <= 12)%Z.
Proof.
  unfold month_number, MONTH_MAP.
  destruct (list_to_map _ !! key) as [v|] eqn:E; [|discriminate].
  intros [= <-]. apply elem_of_list_to_map_2 in E.
  repeat (apply elem_of_cons in E as [[= _ ->]|E]; [lia|]).
  apply elem_of_nil in E. contradiction.
Qed.

Lemma days_in_month_pos y m : (28 <= days_in_month y m)%Z.
Proof.
  unfold days_in_month.
  repeat match goal with |- context [if ?b then _ else _] => destruct b end; lia.
Qed.

(** The first of a month of a year from 1 to 9999 is a date; year 0 is not. *)
Lemma py_date_first y n :
  (1 <= y <= 9999)%Z -> (1 <= n <= 12)%Z ->
  py_date y n 1 = Ok {| d_year := y; d_month := n; d_day := 1 |}.
Proof.
  intros Hy Hn. unfold py_date.
  assert ((1 <=? y)%Z && (y <=? 9999)%Z = true) as ->
      by (apply andb_true_iff; split; apply Z.leb_le; lia).
  assert ((1 <=? n)%Z && (n <=? 12)%Z = true) as ->
      by (apply andb_true_iff; split; apply Z.leb_le; lia).
  pose proof (days_in_month_pos y n).
  assert ((1 <=? 1)%Z && (1 <=? days_in_month y n)%Z = true) as ->
      by (apply andb_true_iff; split; apply Z.leb_le; lia).
  reflexivity.
Qed.

Lemma py_date_year_0 n :
  py_date 0 n 1 = Raise (ValueError (lit "year 0 is out of range")).
Proof. reflexivity. Qed.

Lemma validate_year_out y :
  (y < 2000 \/ 2100 < y)%Z -> validate_year y = Raise year_error.
Proof.
  intros Hy. unfold validate_year.
  assert ((y <? 2000)%Z || (y >? 2100)%Z = true) as ->; [|reflexivity].
  apply orb_true_iff. destruct Hy; [left; apply Z.ltb_lt | right; apply Z.gtb_lt]; lia.
Qed.

Lemma find_start_None name i lines :
  forallb (fun line => negb (eqb (lower (strip line)) (lower name))) lines = true ->
  find_start name i lines = None.
Proof.
  revert i. induction lines as [|line lines IH]; intros i; simpl; [reflexivity|].
  intros [H1%negb_true_iff H2]%andb_true_iff. rewrite H1. now apply IH.
Qed.

Lemma section_not_found text name :
  no_header name text = true ->
  parse_consumption_section text name
  = Raise (ValueError (lit "Could not find " ++ name ++ lit " section")).
Proof.
  intros H. unfold parse_consumption_section, _extract_section_text.
  rewrite (find_start_None _ _ _ H). reflexivity.
Qed.

(** [parse_message] once the hash and the month and year are there *)
Lemma parse_message_steps raw hash mon y n :
  generate_content_hash raw = Ok hash ->
  parse_month_year raw = Ok (mon, y) ->
  month_number (lower mon) = Ok n ->
  parse_message raw =
    let* message_date := py_date y n 1 in
    let* kaltwasser := parse_consumption_section raw (lit "Kaltwasser") in
    let* warmwasser := parse_consumption_section raw (lit "Warmwasser") in
    let* heizung := parse_consumption_section raw (lit "Heizung") in
    new_ParsedMessage mon y message_date kaltwasser warmwasser heizung raw hash.
Proof. intros Hh Hm Hn. unfold parse_message. rewrite Hh, Hm. simpl. rewrite Hn. reflexivity. Qed.

Lemma generate_content_hash_scalar raw :
  forallb is_scalar raw = true -> exists h, generate_content_hash raw = Ok h.
Proof.
  intros Hs. destruct (encode_utf8_scalar raw) as [bs Hbs].
  { apply Forall_forall. intros c Hc%list_elem_of_In.
    exact (proj1 (forallb_forall is_scalar raw) Hs c Hc). }
  unfold generate_content_hash, Sha256.sha256_hex. rewrite Hbs. eauto.
Qed.

End Dates.

(** ** The order of the steps of [parse_message] *)

Section Steps.
Import Py Exn Num Models Re Parser Spec.

(** With the hash, the month and a year from 1 on, the sections come next. *)
Lemma parse_message_sections raw hash mon y n :
  generate_content_hash raw = Ok hash ->
  parse_month_year raw = Ok (mon, y) ->
  month_number (lower mon) = Ok n ->
  y <> 0%Z ->
  parse_message raw =
    let* kaltwasser := parse_consumption_section raw (lit "Kaltwasser") in
    let* warmwasser := parse_consumption_section raw (lit "Warmwasser") in
    let* heizung := parse_consumption_section raw (lit "Heizung") in
    new_ParsedMessage mon y {| d_year := y; d_month := n; d_day := 1 |}
      kaltwasser warmwasser heizung raw hash.
Proof.
  intros Hh Hm Hn Hy.
  rewrite (parse_message_steps _ _ _ _ _ Hh Hm Hn).
  pose proof (parse_month_year_range _ _ _ Hm).
  rewrite py_date_first; [reflexivity | lia | eapply month_number_range, Hn].
Qed.

Lemma new_ParsedMessage_out m y d k w h raw hash :
  (y < 2000 \/ 2100 < y)%Z ->
  new_ParsedMessage m y d k w h raw hash = Raise year_error.
Proof.
  intros Hy. unfold new_ParsedMessage. now rewrite validate_year_out.
Qed.

End Steps.

(** C4, as stated, fails: the notice below has a month and year, a
    Kaltwasser section that parses and no Warmwasser line, but its year is
    0000, and [date(0, 1, 1)] raises "year 0 is out of range" before any
    section is looked at; the error does not name Warmwasser. *)
Lemma C4_year_0000_fails_before_sections :
  Parser.parse_month_year Spec.notice_year_0000 = Exn.Ok (Py.lit "Januar", 0%Z)
  /\ (exists k, Parser.parse_consumption_section Spec.notice_year_0000
                  (Py.lit "Kaltwasser") = Exn.Ok k)
  /\ Spec.no_header (Py.lit "Warmwasser") Spec.notice_year_0000 = true
  /\ Parser.parse_message Spec.notice_year_0000
     = Exn.Raise (Exn.ValueError (Py.lit "year 0 is out of range"))
  /\ Py.contains (Py.lit "Warmwasser")
       (Exn.message (Exn.ValueError (Py.lit "year 0 is out of range"))) = false.
Proof.
  split; [vm_compute; reflexivity|].
  split; [eexists; vm_compute; reflexivity|].
  repeat split; vm_compute; reflexivity.
Qed.

(** C4, amended: for every raw message that UTF-8 can encode, whose month
    and year are found with a month name of the month table and a year
    other than 0000, whose Kaltwasser section parses and which has no line
    whose trimmed, lower-cased content is "warmwasser", [parse_message]
    raises the ValueError "Could not find Warmwasser section", which names
    Warmwasser; and whenever [parse_message] returns a ParsedMessage, all
    three sections have been parsed and are in it. *)
Theorem C4_missing_warmwasser
    (raw mon : Py.str) (y n : Z) (k : Models.ConsumptionData) :
  forallb Py.is_scalar raw = true ->
  Parser.parse_month_year raw = Exn.Ok (mon, y) ->
  Parser.month_number (Py.lower mon) = Exn.Ok n ->
  y <> 0%Z ->
  Parser.parse_consumption_section raw (Py.lit "Kaltwasser") = Exn.Ok k ->
  Spec.no_header (Py.lit "Warmwasser") raw = true ->
  Parser.parse_message raw
  = Exn.Raise (Exn.ValueError (Py.lit "Could not find Warmwasser section"))
  /\ Py.contains (Py.lit "Warmwasser")
       (Exn.message (Exn.ValueError (Py.lit "Could not find Warmwasser section")))
     = true
  /\ (forall raw' pm, Parser.parse_message raw' = Exn.Ok pm ->
        Parser.parse_consumption_section raw' (Py.lit "Kaltwasser")
        = Exn.Ok (Models.kaltwasser pm)
        /\ Parser.parse_consumption_section raw' (Py.lit "Warmwasser")
           = Exn.Ok (Models.warmwasser pm)
        /\ Parser.parse_consumption_section raw' (Py.lit "Heizung")
           = Exn.Ok (Models.heizung pm)).
Proof.
  intros Hs Hm Hn Hy Hk Hw.
  destruct (generate_content_hash_scalar raw Hs) as [hash Hh].
  split; [|split].
  - rewrite (parse_message_sections _ _ _ _ _ Hh Hm Hn Hy), Hk.
    cbn [Exn.bind]. rewrite (section_not_found _ _ Hw). reflexivity.
  - vm_compute. reflexivity.
  - intros raw' pm (hash' & mon' & y' & n' & d & k' & w & h & _ & _ & _ & _
                    & Hk' & Hw' & Hh' & _ & ->)%parse_message_Ok.
    simpl. auto.
Qed.

Lemma C4_missing_warmwasser_witness :
  Parser.parse_message Spec.notice_without_warmwasser
  = Exn.Raise (Exn.ValueError (Py.lit "Could not find Warmwasser section"))
  /\ Py.contains (Py.lit "Warmwasser")
       (Exn.message (Exn.ValueError (Py.lit "Could not find Warmwasser section")))
     = true
  /\ (forall raw' pm, Parser.parse_message raw' = Exn.Ok pm ->
        Parser.parse_consumption_section raw' (Py.lit "Kaltwasser")
        = Exn.Ok (Models.kaltwasser pm)
        /\ Parser.parse_consumption_section raw' (Py.lit "Warmwasser")
           = Exn.Ok (Models.warmwasser pm)
        /\ Parser.parse_consumption_section raw' (Py.lit "Heizung")
           = Exn.Ok (Models.heizung pm)).
Proof.
  eapply (C4_missing_warmwasser Spec.notice_without_warmwasser
            (Py.lit "Dezember") 2025%Z 12%Z);
    [vm_compute; reflexivity | vm_compute; reflexivity | vm_compute; reflexivity
    | discriminate | vm_compute; reflexivity | vm_compute; reflexivity].
Defined.

(** C8, as stated, fails: for the message "Januar 1999" the year 1999 is
    outside 2000..2100, but the year is only validated when ParsedMessage is
    built, after the sections; the sections are absent and the error that
    surfaces is the Kaltwasser section's, not a year error. *)
Lemma C8_section_error_before_year_error :
  Parser.parse_month_year (Py.lit "Januar 1999") = Exn.Ok (Py.lit "Januar", 1999%Z)
  /\ (1999 < 2000)%Z
  /\ Parser.parse_message (Py.lit "Januar 1999")
     = Exn.Raise (Exn.ValueError (Py.lit "Could not find Kaltwasser section"))
  /\ Parser.parse_message (Py.lit "Januar 1999") <> Exn.Raise Spec.year_error.
Proof.
  split; [vm_compute; reflexivity|]. split; [lia|].
  split; [vm_compute; reflexivity|]. vm_compute. discriminate.
Qed.

(** C8, amended: for every raw message whose month/year pattern yields a
    year outside 2000..2100, [parse_message] fails, and the steps fail in
    the order of the code.  A text that UTF-8 cannot encode fails at the
    hash, with UnicodeEncodeError; a month word whose lower-cased form is
    not in the month table fails at the look-up, with KeyError; the year
    0000 is refused by the date constructor ("year 0 is out of range");
    all three before any section is parsed.  In every other case the three
    sections are parsed first, in the order Kaltwasser, Warmwasser,
    Heizung, the error of the first section that fails is the one that
    surfaces, and the year validation error is raised only when all three
    sections have parsed and ParsedMessage is built. *)
Theorem C8_year_out_of_range (raw mon : Py.str) (y : Z) :
  Parser.parse_month_year raw = Exn.Ok (mon, y) ->
  (y < 2000 \/ 2100 < y)%Z ->
  (exists e, Parser.parse_message raw = Exn.Raise e)
  /\ (forall e,
        Parser.generate_content_hash raw = Exn.Raise e ->
        e = Exn.UnicodeEncodeError /\ Parser.parse_message raw = Exn.Raise e)
  /\ (forall hash e,
        Parser.generate_content_hash raw = Exn.Ok hash ->
        Parser.month_number (Py.lower mon) = Exn.Raise e ->
        e = Exn.KeyError (Py.lower mon) /\ Parser.parse_message raw = Exn.Raise e)
  /\ (forall hash n,
        Parser.generate_content_hash raw = Exn.Ok hash ->
        Parser.month_number (Py.lower mon) = Exn.Ok n ->
        (y = 0%Z ->
           Parser.parse_message raw
           = Exn.Raise (Exn.ValueError (Py.lit "year 0 is out of range")))
        /\ (y <> 0%Z ->
            (forall e,
               Parser.parse_consumption_section raw (Py.lit "Kaltwasser")
               = Exn.Raise e ->
               Parser.parse_message raw = Exn.Raise e)
            /\ (forall k e,
                  Parser.parse_consumption_section raw (Py.lit "Kaltwasser")
                  = Exn.Ok k ->
                  Parser.parse_consumption_section raw (Py.lit "Warmwasser")
                  = Exn.Raise e ->
                  Parser.parse_message raw = Exn.Raise e)
            /\ (forall k w e,
                  Parser.parse_consumption_section raw (Py.lit "Kaltwasser")
                  = Exn.Ok k ->
                  Parser.parse_consumption_section raw (Py.lit "Warmwasser")
                  = Exn.Ok w ->
                  Parser.parse_consumption_section raw (Py.lit "Heizung")
                  = Exn.Raise e ->
                  Parser.parse_message raw = Exn.Raise e)
            /\ (forall k w h,
                  Parser.parse_consumption_section raw (Py.lit "Kaltwasser")
                  = Exn.Ok k ->
                  Parser.parse_consumption_section raw (Py.lit "Warmwasser")
                  = Exn.Ok w ->
                  Parser.parse_consumption_section raw (Py.lit "Heizung")
                  = Exn.Ok h ->
                  Parser.parse_message raw = Exn.Raise Spec.year_error))).
Proof.
  intros Hm Hy. split.
  - destruct (Parser.parse_message raw) as [pm|e] eqn:E; [|eauto].
    apply parse_message_Ok in E
      as (hash & mon' & y' & n & d & k & w & h & _ & Hm' & _ & _ & _ & _ & _
          & Hr & _).
    rewrite Hm in Hm'. injection Hm' as _ <-. lia.
  - split.
    { intros e He. split.
      - unfold Parser.generate_content_hash in He.
        destruct (Sha256.sha256_hex raw); congruence.
      - unfold Parser.parse_message. now rewrite He. }
    split.
    { intros hash e Hh He. split.
      - unfold Parser.month_number in He.
        match type of He with
        | match ?l with _ => _ end = _ => destruct l
        end; congruence.
      - unfold Parser.parse_message. rewrite Hh, Hm. cbn [Exn.bind].
        now rewrite He. }
    intros hash n Hh Hn. split.
    + intros ->. rewrite (parse_message_steps _ _ _ _ _ Hh Hm Hn).
      reflexivity.
    + intros Hy0. rewrite (parse_message_sections _ _ _ _ _ Hh Hm Hn Hy0).
      split; [intros e -> | split; [intros k e -> -> | split]].
      * reflexivity.
      * reflexivity.
      * intros k w e -> -> ->. reflexivity.
      * intros k w h -> -> ->. cbn [Exn.bind].
        now apply new_ParsedMessage_out.
Qed.

Lemma C8_year_out_of_range_witness :
  (exists e, Parser.parse_message Spec.notice_1999 = Exn.Raise e)
  /\ Parser.parse_message Spec.notice_1999 = Exn.Raise Spec.year_error.
Proof.
  destruct (C8_year_out_of_range Spec.notice_1999 (Py.lit "Dezember") 1999%Z)
    as (Hfail & _ & _ & Hsteps);
    [vm_compute; reflexivity | left; lia |].
  split; [exact Hfail|].
  destruct (Parser.generate_content_hash Spec.notice_1999) as [hash|] eqn:Eh;
    [|vm_compute in Eh; discriminate Eh].
  destruct (Hsteps hash 12%Z eq_refl) as [_ H]; [vm_compute; reflexivity|].
  destruct (H ltac:(discriminate)) as (_ & _ & _ & Hall).
  destruct (Parser.parse_consumption_section Spec.notice_1999 (Py.lit "Kaltwasser"))
    as [k|] eqn:Ek; [|vm_compute in Ek; discriminate Ek].
  destruct (Parser.parse_consumption_section Spec.notice_1999 (Py.lit "Warmwasser"))
    as [w|] eqn:Ew; [|vm_compute in Ew; discriminate Ew].
  destruct (Parser.parse_consumption_section Spec.notice_1999 (Py.lit "Heizung"))
    as [h|] eqn:Ehz; [|vm_compute in Ehz; discriminate Ehz].
  exact (Hall k w h eq_refl eq_refl eq_refl).
Defined.

(** ** What a pattern consumes *)

Section Consumption.
Import Py Re.

Variable P : char -> bool.
Variable fl : flags.

Local Abbreviation all_P := (Forall (fun c => P c = true)).

Lemma star_loop_consumes fuel g body :
  consumes all_P body -> consumes all_P (star_loop fuel g body).
Proof.
  intros Hb. induction fuel as [|f IH]; intros s c k x; simpl.
  - intros H. exists [], s. auto.
  - set (again := body s c _).
    assert (Hagain : again = Some x ->
              exists w s', s = w ++ s' /\ all_P w /\ k s' c = Some x).
    { unfold again. intros H. apply Hb in H as (w1 & s1 & -> & H1 & H).
      destruct (_ <? _)%nat; [|discriminate].
      apply IH in H as (w2 & s2 & -> & H2 & H).
      exists (w1 ++ w2), s2. rewrite <- app_assoc.
      repeat split; auto. now apply Forall_app_2. }
    assert (Hk : k s c = Some x ->
              exists w s', s = w ++ s' /\ all_P w /\ k s' c = Some x).
    { intros H. exists [], s. auto. }
    destruct g; intros [H|[_ H]]%orelse_Some; auto.
Qed.

Lemma rmatch_consumes r : chars_in P fl r -> consumes all_P (rmatch fl r).
Proof.
  induction r as [|p| |f|a IHa b IHb|a IHa b IHb|g a IHa|i a IHa|a IHa|];
    simpl; intros Hr s c k x; simpl.
  - intros H. exists [], s. auto.
  - destruct s as [|y s]; [discriminate|].
    destruct (chr_match fl p y) eqn:E; [|discriminate].
    intros H. exists [y], s. repeat split; auto.
  - destruct s as [|y s]; [discriminate|].
    destruct (any_match fl y) eqn:E; [|discriminate].
    intros H. exists [y], s. repeat split; auto.
  - destruct s as [|y s]; [discriminate|].
    destruct (f y) eqn:E; [|discriminate].
    intros H. exists [y], s. repeat split; auto.
  - destruct Hr as [Ha Hb].
    intros H. apply (IHa Ha) in H as (w1 & s1 & -> & H1 & H).
    apply (IHb Hb) in H as (w2 & s2 & -> & H2 & H).
    exists (w1 ++ w2), s2. rewrite <- app_assoc.
    repeat split; auto. now apply Forall_app_2.
  - destruct Hr as [Ha Hb].
    intros [H|[_ H]]%orelse_Some; [apply (IHa Ha) in H | apply (IHb Hb) in H]; auto.
  - apply star_loop_consumes, IHa, Hr.
  - contradiction.
  - contradiction.
  - destruct s; [|discriminate]. intros H. exists [], []. auto.
Qed.

Lemma match_at_consumes r s x :
  chars_in P fl r -> match_at fl r s = Some x ->
  exists w, s = w ++ fst x /\ all_P w /\ snd x = [].
Proof.
  intros Hr H. apply (rmatch_consumes r Hr) in H as (w & s' & -> & Hw & H).
  injection H as <-. exists w. auto.
Qed.

End Consumption.

Section Literals.
Import Py Re.

Lemma chars_in_Str fl w : chars_in (fun _ => true) fl (Str w).
Proof.
  induction w as [|p w IH]; [exact I|].
  destruct w as [|q w]; [intros c _; reflexivity|].
  change (Str (p :: q :: w)) with (Seq (Chr p) (Str (q :: w))).
  split; [intros c _; reflexivity | exact IH].
Qed.

Lemma chars_in_Alts_Str fl ws : chars_in (fun _ => true) fl (Alts (List.map Str ws)).
Proof.
  induction ws as [|w ws IH]; [exact I|].
  destruct ws as [|v ws]; [apply chars_in_Str|].
  change (chars_in (fun _ => true) fl (Str w)
          /\ chars_in (fun _ => true) fl (Alts (List.map Str (v :: ws)))).
  split; [apply chars_in_Str | exact IH].
Qed.

End Literals.

(** ** Substitution keeps what the pattern cannot touch *)

Section SubKeeps.
Import Py Re.

Variable P : char -> bool.
Variable fl : flags.
Variable r : regex.
Variable repl : str.

Hypothesis Hhead : forall c t, P c = false -> match_at fl r (c :: t) = None.
Hypothesis Hin : forall s x, match_at fl r s = Some x ->
  exists u, s = u ++ fst x /\ Forall (fun c => P c = true) u.

Lemma sub_go_free w post :
  Forall (fun c => P c = false) w ->
  sub_go fl r repl 0 (w ++ post) = w ++ sub_go fl r repl 0 post.
Proof.
  induction 1 as [|c w Hc _ IH]; [reflexivity|].
  simpl. rewrite (Hhead c (w ++ post) Hc). now rewrite IH.
Qed.

Lemma prefix_bound (u rest pre : str) a t :
  u ++ rest = pre ++ a :: t -> Forall (fun c => P c = true) u -> P a = false ->
  (List.length u <= List.length pre)%nat.
Proof.
  revert u. induction pre as [|c pre IH]; intros u Hu HP Ha.
  - destruct u as [|b u]; [simpl; lia|].
    injection Hu as -> _. apply Forall_inv in HP. congruence.
  - destruct u as [|b u]; [simpl; lia|].
    injection Hu as _ Hu. apply Forall_inv_tail in HP.
    simpl. apply le_n_S. now apply IH.
Qed.

Lemma sub_go_keeps pre a w post skip :
  P a = false -> Forall (fun c => P c = false) w ->
  (skip <= List.length pre)%nat ->
  exists pre',
    sub_go fl r repl skip (pre ++ a :: w ++ post)
    = pre' ++ a :: w ++ sub_go fl r repl 0 post.
Proof.
  intros Ha Hw. revert skip.
  induction pre as [|c pre IH]; intros skip Hskip.
  - assert (skip = 0)%nat as -> by (simpl in Hskip; lia).
    assert (HF : Forall (fun c => P c = false) (a :: w))
      by (constructor; assumption).
    exists []. exact (sub_go_free (a :: w) post HF).
  - destruct skip as [|k].
    + change ((c :: pre) ++ a :: w ++ post) with (c :: pre ++ a :: w ++ post).
      cbn [sub_go].
      destruct (match_at fl r (c :: pre ++ a :: w ++ post)) as [x|] eqn:E.
      * destruct (Hin _ _ E) as (u & Hu & HP).
        assert (Hlen : (List.length u <= S (List.length pre))%nat).
        { apply (prefix_bound u (fst x) (c :: pre) a (w ++ post)); auto. }
        destruct (IH (List.length (c :: pre ++ a :: w ++ post)
                       - List.length (fst x) - 1)%nat) as [pre' Hpre'].
        { apply (f_equal (@List.length char)) in Hu.
          rewrite length_app in Hu. lia. }
        exists (repl ++ pre'). rewrite Hpre', <- app_assoc. reflexivity.
      * destruct (IH 0%nat) as [pre' Hpre']; [lia|].
        exists (c :: pre'). rewrite Hpre'. reflexivity.
    + change ((c :: pre) ++ a :: w ++ post) with (c :: pre ++ a :: w ++ post).
      cbn [sub_go]. destruct (IH k) as [pre' Hpre'].
      { simpl in Hskip. lia. }
      exists pre'. exact Hpre'.
Qed.

Lemma sub_keeps a w s :
  P a = false -> Forall (fun c => P c = false) w ->
  contains (a :: w) s = true -> contains (a :: w) (sub fl r repl s) = true.
Proof.
  intros Ha Hw (pre & post & ->)%contains_app.
  destruct (sub_go_keeps pre a w post 0 Ha Hw) as [pre' H]; [lia|].
  apply contains_app. unfold sub.
  change (pre ++ (a :: w) ++ post) with (pre ++ a :: w ++ post).
  rewrite H. exists pre'. eexists. reflexivity.
Qed.

End SubKeeps.

(** ** Cleaning the text keeps the marker *)

Section Clean.
Import Py Re Scraper.

Lemma chr_match_exact p c : chr_match NOFLAGS p c = true -> c = p.
Proof. unfold chr_match. simpl. intros H%N.eqb_eq. congruence. Qed.

Lemma match_head_Chr fl p b c t :
  chr_match fl p c = false -> match_at fl (Seq (Chr p) b) (c :: t) = None.
Proof. intros H. unfold match_at. cbn [rmatch]. now rewrite H. Qed.

Lemma match_head_Cls fl f b c t :
  f c = false -> match_at fl (Seq (Cls f) b) (c :: t) = None.
Proof. intros H. unfold match_at. cbn [rmatch]. now rewrite H. Qed.

Lemma marker_chars :
  exists a w, MARKER = a :: w
    /\ (Spec.line_end_char a = false /\ Forall (fun c => Spec.line_end_char c = false) w)
    /\ (blank a = false /\ Forall (fun c => blank c = false) w)
    /\ (Spec.newline_char a = false /\ Forall (fun c => Spec.newline_char c = false) w).
Proof.
  eexists _, _. split; [vm_compute; reflexivity|].
  repeat split; repeat constructor.
Qed.

Lemma clean_keeps_marker text :
  contains MARKER text = true -> contains MARKER (clean text) = true.
Proof.
  destruct marker_chars as (a & w & -> & [A1 W1] & [A2 W2] & [A3 W3]).
  intros H. unfold clean.
  apply (sub_keeps Spec.newline_char); auto.
  { intros c t Hc. apply match_head_Chr.
    destruct (chr_match NOFLAGS 10 c) eqn:E; [|reflexivity].
    apply chr_match_exact in E. subst c. discriminate Hc. }
  { intros s x Hx.
    apply (match_at_consumes Spec.newline_char) in Hx as (u & Hu & HP & _); eauto.
    repeat split; intros c ->%chr_match_exact; reflexivity. }
  apply (sub_keeps blank); auto.
  { intros c t Hc. now apply match_head_Cls. }
  { intros s x Hx.
    apply (match_at_consumes blank) in Hx as (u & Hu & HP & _); eauto.
    split; intros c Hc; exact Hc. }
  apply (sub_keeps Spec.line_end_char); auto.
  { intros c t Hc. apply match_head_Chr.
    destruct (chr_match NOFLAGS 13 c) eqn:E; [|reflexivity].
    apply chr_match_exact in E. subst c. discriminate Hc. }
  { intros s x Hx.
    apply (match_at_consumes Spec.line_end_char) in Hx as (u & Hu & HP & _); eauto.
    repeat split; try exact I; intros c ->%chr_match_exact; reflexivity. }
Qed.

End Clean.

(** ** The extraction pattern *)

Section Extraction.
Import Py Re Scraper.

(** A lazy [.*?] under DOTALL reaches the end of the subject if nothing
    stops it earlier, so it succeeds whenever what follows it accepts the
    end of the subject. *)
Lemma rmatch_Any_cons fl y s c k :
  rmatch fl Any (y :: s) c k = if any_match fl y then k s c else None.
Proof. reflexivity. Qed.

Lemma star_lazy_any_total fl fuel s c k :
  dotall fl = true -> (List.length s <= fuel)%nat ->
  (forall c', k [] c' <> None) ->
  star_loop fuel false (rmatch fl Any) s c k <> None.
Proof.
  intros Hd Hlen Hk. revert s c Hlen.
  induction fuel as [|f IH]; intros s c Hlen.
  - destruct s; [apply Hk | simpl in Hlen; lia].
  - cbn [star_loop]. destruct (k s c) as [x|] eqn:E; [discriminate|].
    cbn [orelse]. destruct s as [|y s]; [now apply Hk in E|].
    rewrite rmatch_Any_cons. unfold any_match. rewrite Hd. cbn [orb].
    assert ((List.length s <? List.length (y :: s))%nat = true) as ->
        by (apply Nat.ltb_lt; simpl; lia).
    apply IH. simpl in Hlen. lia.
Qed.

Lemma extract_pattern_eq :
  EXTRACT_PATTERN
  = Seq (Grp 1 (Seq (Str MARKER) (Star false Any))) (Look CLOSING).
Proof. reflexivity. Qed.

Lemma closing_chars : chars_in (fun _ => true) DOTALL_IGNORECASE CLOSING.
Proof.
  split; [split|exact I].
  - intros c _. reflexivity.
  - apply chars_in_Alts_Str.
Qed.

(** The pattern matches where the marker stands. *)
Lemma extract_match_at_marker post :
  match_at DOTALL_IGNORECASE EXTRACT_PATTERN (MARKER ++ post) <> None.
Proof.
  rewrite extract_pattern_eq. unfold match_at.
  change (rmatch DOTALL_IGNORECASE (Str MARKER) (MARKER ++ post) []
            (fun s' c' =>
               star_loop (List.length s') false (rmatch DOTALL_IGNORECASE Any) s' c'
                 (fun s'' c'' =>
                    rmatch DOTALL_IGNORECASE (Look CLOSING) s''
                      ((1%nat, firstn (List.length (MARKER ++ post) - List.length s'')
                                 (MARKER ++ post)) :: c'')
                      (fun s3 c3 => Some (s3, c3)))) <> None).
  rewrite rmatch_Str, lit_prefix_refl.
  apply star_lazy_any_total; [reflexivity | lia |].
  intros c'. discriminate.
Qed.

(** What the pattern captures: a word that starts where the search matched,
    with a first character that is a V or a v. *)
Lemma extract_match_at_inv s x :
  match_at DOTALL_IGNORECASE EXTRACT_PATTERN s = Some x ->
  exists a w,
    s = (a :: w) ++ fst x
    /\ chr_match DOTALL_IGNORECASE 86 a = true
    /\ snd x = [(1%nat, a :: w)].
Proof.
  rewrite extract_pattern_eq. unfold match_at.
  change (rmatch DOTALL_IGNORECASE (Str MARKER) s []
            (fun s' c' =>
               star_loop (List.length s') false (rmatch DOTALL_IGNORECASE Any) s' c'
                 (fun s'' c'' =>
                    rmatch DOTALL_IGNORECASE (Look CLOSING) s''
                      ((1%nat, firstn (List.length s - List.length s'') s) :: c'')
                      (fun s3 c3 => Some (s3, c3)))) = Some x ->
          exists a w, s = (a :: w) ++ fst x
                      /\ chr_match DOTALL_IGNORECASE 86 a = true
                      /\ snd x = [(1%nat, a :: w)]).
  rewrite rmatch_Str.
  destruct (lit_prefix _ MARKER s) eqn:E; [|discriminate].
  apply lit_prefix_split in E as (u & Hu & HF).
  intros H.
  apply (star_loop_consumes (fun _ => true)) in H as (w2 & s2 & Hs2 & _ & H).
  2:{ apply (rmatch_consumes (fun _ => true) DOTALL_IGNORECASE Any).
      intros c _. reflexivity. }
  cbn [rmatch] in H.
  destruct (rmatch DOTALL_IGNORECASE CLOSING s2 _ _) as [[s3 c3]|] eqn:EL;
    [|discriminate].
  apply (rmatch_consumes (fun _ => true) _ _ closing_chars)
    in EL as (w3 & s4 & _ & _ & EL).
  injection EL as _ <-. injection H as <-.
  rewrite Hs2 in Hu.
  change MARKER with (86 :: List.tl MARKER) in HF.
  apply Forall2_cons_inv_l in HF as (a & u' & Hpa & _ & ->).
  exists a, (u' ++ w2). cbn [fst snd].
  assert (Hs : s = (a :: u' ++ w2) ++ s2)
    by (rewrite Hu; simpl; now rewrite <- app_assoc).
  split; [exact Hs|]. split; [exact Hpa|].
  rewrite Hs. now rewrite captured_prefix.
Qed.

Lemma tolower_v a : tolower a = 118 -> a = 86 \/ a = 118.
Proof.
  unfold tolower.
  repeat match goal with
         | |- context [?x <=? ?y] => destruct (N.leb_spec x y)
         | |- context [?x =? ?y] => destruct (N.eqb_spec x y)
         end; cbn [andb negb]; lia.
Qed.

Lemma ignorecase_V_not_space a :
  chr_match DOTALL_IGNORECASE 86 a = true -> isspace a = false.
Proof.
  unfold chr_match, lit_ic. cbn [ignorecase DOTALL_IGNORECASE].
  change (tolower 86) with 118.
  change (118 =? 105) with false. change (118 =? 115) with false.
  change (118 =? 181) with false. cbn [andb]. rewrite !orb_false_r.
  intros H%N.eqb_eq. destruct (tolower_v a H) as [-> | ->]; reflexivity.
Qed.

Lemma lstrip_suffix s : exists a, s = a ++ lstrip s.
Proof.
  induction s as [|c s [a IH]]; [exists []; reflexivity|].
  simpl. destruct (isspace c).
  - exists (c :: a). simpl. congruence.
  - exists []. reflexivity.
Qed.

Lemma strip_substring s : exists a b, s = a ++ strip s ++ b.
Proof.
  unfold strip, rstrip.
  destruct (lstrip_suffix s) as [a Ha].
  destruct (lstrip_suffix (rev (lstrip s))) as [b Hb].
  exists a, (rev b).
  apply (f_equal (@rev char)) in Hb. rewrite rev_involutive, rev_app_distr in Hb.
  rewrite <- Hb. exact Ha.
Qed.

(** The primary pattern matches every cleaned text that holds the marker,
    and what is returned is a non-empty part of the cleaned text. *)
Lemma primary_match cleaned :
  contains MARKER cleaned = true ->
  exists m, search DOTALL_IGNORECASE EXTRACT_PATTERN cleaned = Some m
    /\ strip (group m 1) <> []
    /\ exists pre post, cleaned = pre ++ strip (group m 1) ++ post.
Proof.
  intros (pre & post & ->)%contains_app.
  unfold search.
  destruct (search_from _ _ 0 _) as [m|] eqn:E.
  2:{ exfalso. revert E. apply search_from_Some_suffix, extract_match_at_marker. }
  exists m. split; [reflexivity|].
  apply search_from_inv in E as (pre' & s' & x & Hs & Hx & -> & _).
  apply extract_match_at_inv in Hx as (a & w & Hs' & Ha & Hg).
  unfold group. cbn [m_groups mk_match]. rewrite Hg. cbn [group_in Nat.eqb].
  split.
  - apply strip_nonempty, ignorecase_V_not_space, Ha.
  - destruct (strip_substring (a :: w)) as (l & r & Hlr).
    exists (pre' ++ l), (r ++ fst x).
    rewrite Hs, Hs'. rewrite Hlr at 1. now rewrite <- !app_assoc.
Qed.

End Extraction.

Section Extractor.
Import Py Re Scraper.

Lemma extract_branch_cases text :
  (contains MARKER text = false
   /\ extract_branch text = (NoMarker, None))
  \/ (contains MARKER text = true
      /\ exists m,
           search DOTALL_IGNORECASE EXTRACT_PATTERN (clean text) = Some m
           /\ extract_branch text = (Primary, Some (strip (group m 1)))
           /\ strip (group m 1) <> []
           /\ exists pre post, clean text = pre ++ strip (group m 1) ++ post).
Proof.
  unfold extract_branch. destruct (contains MARKER text) eqn:E; [right | left; auto].
  split; [reflexivity|].
  destruct (primary_match (clean text) (clean_keeps_marker text E))
    as (m & Hm & Hne & Hsub).
  exists m. rewrite Hm. auto.
Qed.

End Extractor.

(** C7: for every text, [_extract_consumption_from_text] returns None
    exactly when the marker "Verbrauchswerte" does not occur in it (in this
    exact case); when the marker occurs, it returns a non-empty string,
    which is a part of the cleaned text. *)
Theorem C7_absent_iff_no_marker (text : Py.str) :
  (Scraper._extract_consumption_from_text text = None
   <-> Py.contains Scraper.MARKER text = false)
  /\ (Py.contains Scraper.MARKER text = true ->
      exists r, Scraper._extract_consumption_from_text text = Some r
        /\ r <> []
        /\ exists pre post, Scraper.clean text = pre ++ r ++ post).
Proof.
  unfold Scraper._extract_consumption_from_text.
  destruct (extract_branch_cases text)
    as [[Hc ->] | (Hc & m & _ & -> & Hne & Hsub)]; cbn [snd]; rewrite Hc.
  - split; [tauto | discriminate].
  - split; [split; discriminate|]. intros _. eauto.
Qed.

(** C10: whenever the marker "Verbrauchswerte" is in the text, the primary
    pattern matches the cleaned text (its [\Z] alternative lets the lazy
    repetition run to the end), so the extractor returns either at its
    first test or with the primary match: the fallback window of 3500
    characters and the final [return None] are never reached. *)
Theorem C10_fallback_unreachable (text : Py.str) :
  (Py.contains Scraper.MARKER text = true ->
   Re.search Re.DOTALL_IGNORECASE Scraper.EXTRACT_PATTERN (Scraper.clean text)
   <> None)
  /\ fst (Scraper.extract_branch text) <> Scraper.Fallback
  /\ fst (Scraper.extract_branch text) <> Scraper.NotFound
  /\ (Scraper.extract_branch text = (Scraper.NoMarker, None)
      \/ exists m,
           Re.search Re.DOTALL_IGNORECASE Scraper.EXTRACT_PATTERN
             (Scraper.clean text) = Some m
           /\ Scraper.extract_branch text
              = (Scraper.Primary, Some (Py.strip (Re.group m 1)))).
Proof.
  destruct (extract_branch_cases text)
    as [[Hc ->] | (Hc & m & Hm & -> & _ & _)]; cbn [fst]; rewrite Hc.
  - repeat split; try discriminate. left. reflexivity.
  - rewrite Hm. repeat split; try discriminate. right. eauto.
Qed.

(** ** Scoring and selection *)

Section Ranking.
Import Py Re Scraper Spec.

Lemma lit_prefix_Forall2 fl kw w post :
  Forall2 (fun p c => chr_match fl p c = true) kw w ->
  lit_prefix fl kw (w ++ post) = true.
Proof.
  induction 1 as [|p c kw w Hpc _ IH]; [reflexivity|].
  simpl. now rewrite Hpc, IH.
Qed.

Lemma keyword_found_iff keyword text :
  keyword_found keyword text = true <-> ci_occurs keyword text.
Proof.
  unfold keyword_found, search, ci_occurs. split.
  - destruct (search_from _ _ 0 text) as [m|] eqn:E; [|discriminate].
    intros _. apply search_from_inv in E as (pre & s' & x & -> & Hx & _).
    unfold match_at in Hx. rewrite rmatch_Str in Hx.
    destruct (lit_prefix IGNORECASE keyword s') eqn:El; [|discriminate].
    apply lit_prefix_split in El as (u & Hu & HF).
    exists pre, u, (skipn (List.length keyword) s'). rewrite <- Hu. auto.
  - intros (pre & w & post & -> & HF).
    destruct (search_from _ _ 0 _) eqn:E; [reflexivity|].
    exfalso. revert E. apply search_from_Some_suffix.
    unfold match_at. rewrite rmatch_Str, (lit_prefix_Forall2 IGNORECASE _ _ _ HF).
    discriminate.
Qed.

Lemma score_eq text :
  _score_message_candidate text
  = (Z.of_nat (List.length text)
     + 500 * Z.of_nat (List.length
                         (List.filter (fun keyword => keyword_found keyword text)
                            KEYWORDS)))%Z.
Proof.
  unfold _score_message_candidate, KEYWORDS.
  cbn [List.map fold_left List.filter].
  destruct (keyword_found (lit "Kaltwasser") text),
    (keyword_found (lit "Warmwasser") text),
    (keyword_found (lit "Heizung") text); cbn [List.length]; lia.
Qed.

Lemma score_nonneg text : (0 <= _score_message_candidate text)%Z.
Proof. rewrite score_eq. lia. Qed.

Lemma loop_state_step seen bm bs msg :
  loop_state seen bm bs ->
  if (bs <? _score_message_candidate msg)%Z
  then loop_state (seen ++ [msg]) (Some msg) (_score_message_candidate msg)
  else loop_state (seen ++ [msg]) bm bs.
Proof.
  intros [Hfb Hbs]. pose proof (score_nonneg msg) as Hpos.
  destruct (Z.ltb_spec bs (_score_message_candidate msg)) as [Hlt|Hge].
  - split; [|reflexivity]. exists seen, []. split; [reflexivity|].
    split; [|constructor].
    destruct bm as [b|]; simpl in Hfb.
    + destruct Hfb as (before & after & -> & Hb & Ha). subst bs.
      apply Forall_app_2; [|constructor].
      * eapply Forall_impl; [exact Hb|]. simpl. intros; lia.
      * lia.
      * eapply Forall_impl; [exact Ha|]. simpl. intros; lia.
    + subst seen. constructor.
  - destruct bm as [b|]; [|lia].
    split; [|exact Hbs]. subst bs.
    destruct Hfb as (before & after & -> & Hb & Ha).
    exists before, (after ++ [msg]). rewrite <- app_assoc. split; [reflexivity|].
    split; [exact Hb|]. apply Forall_app_2; [exact Ha|]. constructor; [lia|constructor].
Qed.

Lemma select_loop_spec candidates seen bm bs :
  loop_state seen bm bs ->
  first_best (seen ++ extracted candidates) (select_loop candidates bm bs).
Proof.
  revert seen bm bs.
  induction candidates as [|candidate rest IH]; intros seen bm bs Hst.
  - unfold extracted. simpl. rewrite app_nil_r. apply Hst.
  - unfold extracted. cbn [flat_map select_loop]. fold (extracted rest).
    destruct (_extract_consumption_from_text candidate) as [[|c m]|].
    + now apply IH.
    + pose proof (loop_state_step seen bm bs (c :: m) Hst) as Hstep.
      change ([c :: m] ++ extracted rest) with ((c :: m) :: extracted rest).
      replace (seen ++ (c :: m) :: extracted rest)
        with ((seen ++ [c :: m]) ++ extracted rest)
        by (rewrite <- app_assoc; reflexivity).
      destruct (bs <? _score_message_candidate (c :: m))%Z; now apply IH.
    + now apply IH.
Qed.

End Ranking.

(** C6: the score of a message text is its length in characters plus 500
    for each of the keywords "Kaltwasser", "Warmwasser", "Heizung" that
    occurs in it without regard to case; the selection loop returns, of the
    messages extracted from the candidates, the first one in scan order
    whose score no other reaches: every earlier message scores strictly
    less, every later one at most as much. *)
Theorem C6_score_and_selection :
  (forall text,
     Scraper._score_message_candidate text
     = (Z.of_nat (List.length text)
        + 500 * Z.of_nat
            (List.length
               (List.filter (fun keyword => Scraper.keyword_found keyword text)
                  (List.map Py.lit ["Kaltwasser"; "Warmwasser"; "Heizung"]%string))))%Z)
  /\ (forall keyword text,
        Scraper.keyword_found keyword text = true
        <-> Spec.ci_occurs keyword text)
  /\ (forall candidates,
        Spec.first_best (Spec.extracted candidates)
          (Scraper._find_latest_consumption_message_from_html candidates)).
Proof.
  split; [exact score_eq|]. split; [exact keyword_found_iff|].
  intros candidates.
  apply (select_loop_spec candidates [] None (-1)%Z).
  split; reflexivity.
Qed.

(** ** The order of timestamps and the sort *)

Section Order.
Import Py.

Lemma ltb_irrefl a : ltb a a = false.
Proof.
  induction a as [|x a IH]; [reflexivity|]. simpl.
  rewrite N.ltb_irrefl, N.eqb_refl, IH. reflexivity.
Qed.

Lemma ltb_cons x a y b :
  ltb (x :: a) (y :: b) = true <-> x < y \/ (x = y /\ ltb a b = true).
Proof.
  simpl. rewrite orb_true_iff, andb_true_iff, N.ltb_lt, N.eqb_eq. tauto.
Qed.

Lemma ltb_trans a b c : ltb a b = true -> ltb b c = true -> ltb a c = true.
Proof.
  revert b c. induction a as [|x a IH]; intros [|y b] [|z c]; try discriminate;
    try reflexivity.
  rewrite !ltb_cons. intros [H1|[-> H1]] [H2|[-> H2]].
  - left. lia.
  - left. exact H1.
  - left. exact H2.
  - right. split; [reflexivity|]. eapply IH; eassumption.
Qed.

Lemma ltb_total a b : ltb a b = true \/ a = b \/ ltb b a = true.
Proof.
  revert b. induction a as [|x a IH]; intros [|y b]; auto.
  rewrite !ltb_cons. destruct (N.lt_total x y) as [H|[->|H]]; auto.
  destruct (IH b) as [H|[->|H]]; auto.
Qed.

(** "Not below" is transitive. *)
Lemma geb_trans a b c : ltb a b = false -> ltb b c = false -> ltb a c = false.
Proof.
  intros Hab Hbc. apply not_true_is_false. intros Hac.
  destruct (ltb_total a b) as [H|[->|H]]; [congruence | congruence |].
  pose proof (ltb_trans _ _ _ H Hac). congruence.
Qed.

Lemma ltb_asym a b : ltb a b = true -> ltb b a = false.
Proof.
  intros H. apply not_true_is_false. intros H'.
  pose proof (ltb_trans _ _ _ H H') as Hc. rewrite ltb_irrefl in Hc. discriminate.
Qed.

End Order.

Section Sorting.
Import Py Scraper Spec.

Lemma insert_desc_perm x l : Permutation (x :: l) (insert_desc x l).
Proof.
  induction l as [|y l IH]; simpl; [reflexivity|].
  destruct (ltb (fst x) (fst y)); [|reflexivity].
  rewrite perm_swap. now apply perm_skip.
Qed.

Lemma sort_desc_perm l : Permutation l (sort_desc l).
Proof.
  induction l as [|x l IH]; simpl; [reflexivity|].
  rewrite <- insert_desc_perm. now apply perm_skip.
Qed.

Lemma insert_desc_sorted x l : sorted_desc l -> sorted_desc (insert_desc x l).
Proof.
  unfold sorted_desc. induction 1 as [|y l Hl IH Hy]; simpl.
  - repeat constructor.
  - destruct (ltb (fst x) (fst y)) eqn:E.
    + constructor; [exact IH|].
      apply (Permutation_Forall (insert_desc_perm x l)).
      constructor; [now apply ltb_asym | exact Hy].
    + constructor; [constructor; assumption|].
      constructor; [exact E|].
      eapply Forall_impl; [exact Hy|]. simpl. intros z Hz.
      eapply geb_trans; eassumption.
Qed.

Lemma sort_desc_sorted l : sorted_desc (sort_desc l).
Proof.
  induction l as [|x l IH]; simpl; [constructor | now apply insert_desc_sorted].
Qed.

Lemma insert_desc_stable k x l :
  with_timestamp k (insert_desc x l) = with_timestamp k (x :: l).
Proof.
  unfold with_timestamp. induction l as [|y l IH]; [reflexivity|].
  cbn [insert_desc]. destruct (ltb (fst x) (fst y)) eqn:E; [|reflexivity].
  cbn [List.filter] in *. rewrite IH.
  destruct (eqb (fst x) k) eqn:Ex; [|reflexivity].
  destruct (eqb (fst y) k) eqn:Ey; [|reflexivity].
  apply eqb_eq in Ex, Ey. rewrite Ex, Ey, ltb_irrefl in E. discriminate.
Qed.

Lemma sort_desc_stable k l : with_timestamp k (sort_desc l) = with_timestamp k l.
Proof.
  induction l as [|x l IH]; [reflexivity|].
  cbn [sort_desc]. rewrite insert_desc_stable.
  unfold with_timestamp in *. cbn [List.filter]. now rewrite IH.
Qed.

Lemma sort_desc_fixed l : sort_desc l = l <-> sorted_desc l.
Proof.
  split; [intros <-; apply sort_desc_sorted|].
  unfold sorted_desc. induction 1 as [|x l Hl IH Hx]; [reflexivity|].
  simpl. rewrite IH. destruct l as [|y l]; [reflexivity|].
  simpl. apply Forall_inv in Hx. now rewrite Hx.
Qed.

End Sorting.

(** C9, as stated, fails: [_deduplicate_and_limit] sorts the list object of
    its caller in place; two candidates given oldest first are in the
    opposite order after the call. *)
Lemma C9_candidates_reordered :
  snd (Scraper._deduplicate_and_limit
         [(Py.lit "2025-01-05", Py.lit "a"); (Py.lit "2025-02-05", Py.lit "b")] None)
  = [(Py.lit "2025-02-05", Py.lit "b"); (Py.lit "2025-01-05", Py.lit "a")]
  /\ snd (Scraper._deduplicate_and_limit
            [(Py.lit "2025-01-05", Py.lit "a"); (Py.lit "2025-02-05", Py.lit "b")] None)
     <> [(Py.lit "2025-01-05", Py.lit "a"); (Py.lit "2025-02-05", Py.lit "b")].
Proof.
  split; [vm_compute; reflexivity|]. vm_compute. discriminate.
Qed.

(** C9, amended: the deduplicate-and-limit operation leaves in the caller's
    candidate list the same pairs, sorted in place by timestamp, newest
    first, pairs with equal timestamps in their former order; the list is
    as before the call exactly when it was already in that order (the empty
    list in particular). *)
Theorem C9_candidates_sorted_in_place
    (candidates : list (Py.str * Py.str)) (limit : option Z) :
  let after := snd (Scraper._deduplicate_and_limit candidates limit) in
  Permutation candidates after
  /\ Spec.sorted_desc after
  /\ (forall k, Spec.with_timestamp k after = Spec.with_timestamp k candidates)
  /\ (after = candidates <-> Spec.sorted_desc candidates).
Proof.
  assert (H : snd (Scraper._deduplicate_and_limit candidates limit)
              = Scraper.sort_desc candidates)
    by (destruct candidates; reflexivity).
  cbv zeta. rewrite H.
  split; [apply sort_desc_perm|]. split; [apply sort_desc_sorted|].
  split; [intros k; apply sort_desc_stable | apply sort_desc_fixed].
Qed.

(** ** Deduplication and the limit *)

Section Dedup.
Import Py Scraper Spec.

Lemma existsb_eqb_In (x : str) (l : list str) :
  existsb (eqb x) l = true <-> In x l.
Proof.
  rewrite existsb_exists. split.
  - intros (y & Hy & ->%eqb_eq). exact Hy.
  - intros H. exists x. split; [exact H | now apply eqb_eq].
Qed.

(** The loop against the reading of the specification, as long as the
    limit has not been reached when an iteration starts. *)
Lemma dedup_loop_spec limit candidates :
  forall (seen : gset (list N)) (seenl : list str) (messages : list str),
    (forall x, x ∈ seen <-> In x seenl) ->
    limit_reached limit messages = false ->
    dedup_loop limit seen messages candidates
    = messages
      ++ match limit with
         | None => drop_duplicates seenl (List.map snd candidates)
         | Some n =>
             firstn (Z.to_nat n - List.length messages)
               (drop_duplicates seenl (List.map snd candidates))
         end.
Proof.
  induction candidates as [|[t message] rest IH]; intros seen seenl messages Hseen Hlim.
  - simpl. destruct limit; [rewrite firstn_nil|]; now rewrite app_nil_r.
  - cbn [dedup_loop List.map snd drop_duplicates].
    destruct (existsb (eqb (normalize_message message)) seenl) eqn:Ex.
    + apply existsb_eqb_In, Hseen in Ex.
      rewrite bool_decide_eq_true_2 by exact Ex. now apply IH.
    + assert (Hnot : normalize_message message ∉ seen).
      { intros Hin%Hseen%existsb_eqb_In. congruence. }
      rewrite bool_decide_eq_false_2 by exact Hnot.
      assert (Hseen' : forall x,
                 x ∈ ({[normalize_message message]} ∪ seen : gset (list N))
                 <-> In x (normalize_message message :: seenl)).
      { intros x. rewrite elem_of_union, elem_of_singleton, Hseen. simpl.
        split; intros [H|H]; auto. }
      destruct (limit_reached limit (messages ++ [message])) eqn:Hl.
      * destruct limit as [n|]; [|discriminate].
        unfold limit_reached in Hlim, Hl.
        apply Z.leb_le in Hl. apply Z.leb_gt in Hlim.
        rewrite length_app in Hl. simpl in Hl.
        replace (Z.to_nat n - List.length messages)%nat with 1%nat by lia.
        reflexivity.
      * rewrite (IH _ (normalize_message message :: seenl) _ Hseen' Hl).
        rewrite <- app_assoc. cbn [app]. f_equal.
        destruct limit as [n|]; [|reflexivity].
        unfold limit_reached in Hl. apply Z.leb_gt in Hl.
        rewrite length_app in Hl |- *. simpl in Hl |- *.
        replace (Z.to_nat n - List.length messages)%nat
          with (S (Z.to_nat n - (List.length messages + 1)))%nat by lia.
        reflexivity.
Qed.

(** Without a limit, or with a limit of at least one, the method returns what
    the specification describes. *)
Lemma deduplicate_and_limit_meets_spec candidates limit :
  match limit with None => True | Some n => (1 <= n)%Z end ->
  fst (_deduplicate_and_limit candidates limit)
  = deduplicate_and_limit_spec candidates limit.
Proof.
  intros Hlimit. unfold deduplicate_and_limit_spec.
  destruct candidates as [|c candidates].
  - simpl. destruct limit; [now rewrite firstn_nil | reflexivity].
  - cbn [_deduplicate_and_limit fst].
    rewrite (dedup_loop_spec limit _ ∅ [] []).
    + cbn [app List.length]. destruct limit; [|reflexivity].
      now rewrite Nat.sub_0_r.
    + intros x. rewrite elem_of_empty. simpl. tauto.
    + destruct limit as [n|]; [|reflexivity]. apply Z.leb_gt. simpl. lia.
Qed.

Lemma deduplicate_and_limit_empty limit :
  _deduplicate_and_limit [] limit = ([], []).
Proof. reflexivity. Qed.

End Dedup.




(** ** The model run on examples (the expected values are CPython's) *)

Section Examples.
Import Py Exn Num Models Re Parser Scraper Spec.

Example lit_unit : lit "m³" = [109; 179].
Proof. reflexivity. Qed.

Example lower_strip_example :
  lower (strip (lit "  MÄRZ Heizung ")) = lit "märz heizung".
Proof. vm_compute. reflexivity. Qed.

Example text_lines_example :
  text_lines ([13; 10] ++ lit "a" ++ [13] ++ lit "b" ++ [10])
  = [[]; lit "a"; lit "b"; []].
Proof. vm_compute. reflexivity. Qed.

Example month_year_example :
  parse_month_year (lit "Ihre Verbrauchswerte für MÄRZ  2024, Mai 2025")
  = Ok (lit "MÄRZ", 2024%Z).
Proof. vm_compute. reflexivity. Qed.

Example current_values_example :
  List.map (fun m => (group m 1, group m 2, group m 3))
    (finditer NOFLAGS CURRENT_VALUE_PATTERN
       (lit "2025: 12,345 m³ und 2024:7.5kWh, 20251: 1,0 m³"))
  = [(lit "2025", lit "12,345", lit "m³"); (lit "2024", lit "7.5", lit "kWh");
     (lit "0251", lit "1,0", lit "m³")].
Proof. vm_compute. reflexivity. Qed.

Example average_example :
  option_map (fun m => (m_text m, group m 1, group m 2))
    (search IGNORECASE AVERAGE_PATTERN
       (lit "heizung auf basis der Liegenschaft (x: y): 110,25 kWh"))
  = Some (lit "heizung auf basis der Liegenschaft (x: y): 110,25 kWh",
          lit "110,25", lit "kWh").
Proof. vm_compute. reflexivity. Qed.

Example numeric_value_examples :
  _parse_numeric_value (lit "12,345") = Ok (12345 # 1000)
  /\ _parse_numeric_value (lit "12.345") = Ok (12345 # 1000).
Proof. split; vm_compute; reflexivity. Qed.

Example parse_notice :
  option_map
    (fun pm => (month pm, year pm, message_date pm, unit (heizung pm),
                List.length (content_hash pm)))
    (match parse_message notice with Ok pm => Some pm | Raise _ => None end)
  = Some (lit "Dezember", 2025%Z,
          {| d_year := 2025; d_month := 12; d_day := 1 |}, lit "kWh", 64%nat).
Proof. vm_compute. reflexivity. Qed.

Example extract_example :
  _extract_consumption_from_text
    (lit "Hallo," ++ [13; 10] ++ lit "verbrauchswerte  Dezember" ++ [10; 10; 10; 10]
     ++ lit "Verbrauchswerte   x" ++ [10] ++ lit "mit freundlichen Grüßen")
  = Some (lit "verbrauchswerte Dezember" ++ [10; 10] ++ lit "Verbrauchswerte x").
Proof. vm_compute. reflexivity. Qed.

Example extract_wrong_case :
  _extract_consumption_from_text (lit "VERBRAUCHSWERTE Dezember") = None.
Proof. vm_compute. reflexivity. Qed.

Example score_example :
  _score_message_candidate (lit "Verbrauchswerte KALTWASSER, heizung") = 1035%Z.
Proof. vm_compute. reflexivity. Qed.

Example deduplicate_example :
  fst (_deduplicate_and_limit
         [(lit "2025-01-05", lit "a  b"); (lit "2025-03-05", lit " a b");
          (lit "2025-02-05", lit "c")] (Some 5%Z))
  = [lit " a b"; lit "c"].
Proof. vm_compute. reflexivity. Qed.

End Examples.

(** ** Words consumed by the parts of a pattern *)

Section Words.
Import Py Re.

Variable fl : flags.

Lemma consumes_weaken (Q Q' : str -> Prop) m :
  (forall w, Q w -> Q' w) -> consumes Q m -> consumes Q' m.
Proof.
  intros HQ Hm s c k x H. apply Hm in H as (w & s' & Hs & Hw & H).
  exists w, s'. auto.
Qed.

Lemma consumes_Cls f :
  consumes (fun w => exists c, w = [c] /\ f c = true) (rmatch fl (Cls f)).
Proof.
  intros s c k x. simpl. destruct s as [|y s]; [discriminate|].
  destruct (f y) eqn:E; [|discriminate]. intros H. exists [y], s. eauto.
Qed.

Lemma consumes_Chr p :
  consumes (fun w => exists c, w = [c] /\ chr_match fl p c = true)
    (rmatch fl (Chr p)).
Proof.
  intros s c k x. simpl. destruct s as [|y s]; [discriminate|].
  destruct (chr_match fl p y) eqn:E; [|discriminate]. intros H.
  exists [y], s. eauto.
Qed.

Lemma consumes_Seq (Q1 Q2 : str -> Prop) a b :
  consumes Q1 (rmatch fl a) -> consumes Q2 (rmatch fl b) ->
  consumes (fun w => exists w1 w2, w = w1 ++ w2 /\ Q1 w1 /\ Q2 w2)
    (rmatch fl (Seq a b)).
Proof.
  intros Ha Hb s c k x. cbn [rmatch]. intros H.
  apply Ha in H as (w1 & s1 & -> & H1 & H).
  apply Hb in H as (w2 & s2 & -> & H2 & H).
  exists (w1 ++ w2), s2. rewrite <- app_assoc. eauto 10.
Qed.

Lemma consumes_Alt (Q1 Q2 : str -> Prop) a b :
  consumes Q1 (rmatch fl a) -> consumes Q2 (rmatch fl b) ->
  consumes (fun w => Q1 w \/ Q2 w) (rmatch fl (Alt a b)).
Proof.
  intros Ha Hb s c k x. cbn [rmatch].
  intros [H|[_ H]]%orelse_Some.
  - apply Ha in H as (w & s' & Hs & Hw & H). exists w, s'. auto.
  - apply Hb in H as (w & s' & Hs & Hw & H). exists w, s'. auto.
Qed.

Lemma consumes_Str name :
  consumes (fun w => Forall2 (fun p c => chr_match fl p c = true) name w)
    (rmatch fl (Str name)).
Proof.
  intros s c k x. rewrite rmatch_Str.
  destruct (lit_prefix fl name s) eqn:E; [|discriminate].
  apply lit_prefix_split in E as (u & Hu & HF). intros H.
  exists u, (skipn (List.length name) s). auto.
Qed.

Lemma consumes_Alts_Str name names :
  consumes
    (fun w => Exists (fun n => Forall2 (fun p c => chr_match fl p c = true) n w)
                (name :: names))
    (rmatch fl (Alts (List.map Str (name :: names)))).
Proof.
  revert name. induction names as [|name' names IH]; intros name.
  - eapply consumes_weaken; [|apply consumes_Str].
    intros w Hw. now constructor.
  - change (Alts (List.map Str (name :: name' :: names)))
      with (Alt (Str name) (Alts (List.map Str (name' :: names)))).
    eapply consumes_weaken; [|apply consumes_Alt; [apply consumes_Str | apply IH]].
    intros w [Hw|Hw]; [now constructor | now apply Exists_cons_tl].
Qed.

(** One or more characters of a class *)
Lemma consumes_Plus_Cls g f :
  consumes (fun w => w <> [] /\ Forall (fun c => f c = true) w)
    (rmatch fl (Plus g (Cls f))).
Proof.
  unfold Plus. eapply consumes_weaken; [|apply consumes_Seq;
    [apply consumes_Cls | apply (rmatch_consumes f fl (Star g (Cls f)))]].
  - intros w (w1 & w2 & -> & (c & -> & Hc) & H2). split; [discriminate|].
    constructor; assumption.
  - intros c Hc. exact Hc.
Qed.

Lemma consumes_Star_Cls g f :
  consumes (Forall (fun c => f c = true)) (rmatch fl (Star g (Cls f))).
Proof. apply (rmatch_consumes f fl (Star g (Cls f))). intros c Hc. exact Hc. Qed.

(** A group around a part without groups records the word it consumed. *)
Lemma rmatch_Grp (Q : str -> Prop) i a s c k x :
  consumes Q (rmatch fl a) ->
  rmatch fl (Grp i a) s c k = Some x ->
  exists w s', s = w ++ s' /\ Q w /\ k s' ((i, w) :: c) = Some x.
Proof.
  intros Ha. cbn [rmatch]. intros H.
  apply Ha in H as (w & s' & -> & Hw & H).
  rewrite captured_prefix in H. eauto.
Qed.

Lemma rmatch_Seq_first (Q : str -> Prop) a b s c k x :
  consumes Q (rmatch fl a) ->
  rmatch fl (Seq a b) s c k = Some x ->
  exists w s', s = w ++ s' /\ Q w /\ rmatch fl b s' c k = Some x.
Proof. intros Ha. cbn [rmatch]. intros H. now apply Ha in H. Qed.

Lemma rmatch_Seq_Grp (Q : str -> Prop) i a b s c k x :
  consumes Q (rmatch fl a) ->
  rmatch fl (Seq (Grp i a) b) s c k = Some x ->
  exists w s', s = w ++ s' /\ Q w /\ rmatch fl b s' ((i, w) :: c) k = Some x.
Proof.
  intros Ha H.
  change (rmatch fl (Grp i a) s c (fun s' c' => rmatch fl b s' c' k) = Some x) in H.
  now apply (rmatch_Grp Q) in H.
Qed.

End Words.

(** Every match that [finditer] yields is a match of the pattern at some
    suffix of the subject. *)
Lemma finditer_go_inv fl r skip pos s m :
  In m (Re.finditer_go fl r skip pos s) ->
  exists pos' s' x, Re.match_at fl r s' = Some x /\ m = Re.mk_match pos' s' x.
Proof.
  revert skip pos. induction s as [|y s IH]; intros skip pos; simpl; [tauto|].
  destruct skip as [|k]; [|apply IH].
  destruct (Re.match_at fl r (y :: s)) as [x|] eqn:E; [|apply IH].
  intros [<-|H]; [eauto | eapply IH, H].
Qed.

(** ** Decimal digits against the other characters of a number *)

Section Digits.
Import Py Exn Num Parser Spec.

Lemma decimal_in_range zs c d :
  decimal_in zs c = Some d -> exists z, In z zs /\ z <= c /\ c < z + 10.
Proof.
  induction zs as [|z zs IH]; simpl; [discriminate|].
  destruct ((z <=? c) && (c <? z + 10)) eqn:E.
  - apply andb_true_iff in E as [H1%N.leb_le H2%N.ltb_lt]. intros _. eauto.
  - intros (z' & Hin & H)%IH. eauto.
Qed.

Lemma decimal_runs_plain :
  forallb (fun z => forallb (fun i => plain_char (z + i)) [0; 1; 2; 3; 4; 5; 6; 7; 8; 9])
    decimal_zeros = true.
Proof. vm_compute. reflexivity. Qed.

(** No decimal digit is white space, a sign, a point or a comma. *)
Lemma isdecimal_plain c : isdecimal c = true -> plain_char c = true.
Proof.
  unfold isdecimal, decimal. destruct (decimal_in decimal_zeros c) as [d|] eqn:E;
    [|discriminate].
  intros _. apply decimal_in_range in E as (z & Hin & H1 & H2).
  pose proof (proj1 (forallb_forall _ _) decimal_runs_plain z Hin) as Hz.
  rewrite forallb_forall in Hz.
  replace c with (z + (c - z)) by lia. apply Hz.
  assert (c - z < 10) as Hlt by lia.
  destruct (c - z) as [|p] eqn:Ep; [left; reflexivity|].
  do 9 (destruct p as [p|p|]; try (simpl; tauto); try lia).
Qed.

Lemma plain_char_inv c :
  plain_char c = true ->
  isspace c = false /\ c <> 43 /\ c <> 44 /\ c <> 45 /\ c <> 46.
Proof.
  unfold plain_char. rewrite !andb_true_iff, !negb_true_iff, !N.eqb_neq. tauto.
Qed.

Lemma replace_char a b s :
  replace s [a] [b] = List.map (fun c => if c =? a then b else c) s.
Proof.
  unfold replace. induction s as [|c s IH]; [reflexivity|].
  cbn [replace_go startswith List.map List.length Nat.sub].
  rewrite N.eqb_sym. destruct (c =? a) eqn:E.
  - destruct s; cbn [andb startswith app]; now rewrite IH.
  - cbn [andb]. now rewrite IH.
Qed.

Lemma lstrip_head c s : isspace c = false -> lstrip (c :: s) = c :: s.
Proof. intros H. simpl. now rewrite H. Qed.

Lemma strip_plain s :
  Forall (fun c => isspace c = false) s -> strip s = s.
Proof.
  intros H. unfold strip, rstrip.
  assert (Hl : forall t, Forall (fun c => isspace c = false) t -> lstrip t = t).
  { intros [|c t] Ht; [reflexivity|]. apply lstrip_head. now apply Forall_inv in Ht. }
  rewrite (Hl s H), Hl; [apply rev_involutive|].
  apply Forall_forall. intros c Hc%list_elem_of_In%in_rev.
  rewrite Forall_forall in H. apply H. now apply list_elem_of_In.
Qed.

Lemma split_point_app ip fp :
  Forall (fun c => c <> 46) ip -> split_point (ip ++ 46 :: fp) = (ip, Some fp).
Proof.
  induction 1 as [|c ip Hc _ IH]; [reflexivity|].
  simpl. apply N.eqb_neq in Hc. rewrite Hc, IH. reflexivity.
Qed.

Lemma digits_value_total s acc :
  Forall (fun c => isdecimal c = true) s -> exists n, digits_value acc s = Some n.
Proof.
  intros H. revert acc. induction H as [|c s Hc _ IH]; intros acc; simpl; [eauto|].
  apply isdecimal_value in Hc as (d & -> & _). apply IH.
Qed.

Lemma py_float_unsigned s c0 r :
  strip s = c0 :: r -> c0 <> 45 -> c0 <> 43 ->
  py_float s =
    let (ip, rest) := split_point (c0 :: r) in
    let fp := match rest with Some f => f | None => [] end in
    match ip ++ fp, decimal_value ip fp with
    | _ :: _, Some q => Ok q
    | _, _ => Raise float_error
    end.
Proof.
  intros E H45 H43. unfold py_float. rewrite E. cbv zeta.
  destruct c0 as [|p]; [reflexivity|].
  repeat (destruct p as [p|p|]; try reflexivity; try congruence).
Qed.

(** The value of digits, a point or a comma, and digits *)
Lemma parse_numeric_value_decimal sep ip fp :
  ip <> [] -> fp <> [] ->
  Forall (fun c => isdecimal c = true) ip ->
  Forall (fun c => isdecimal c = true) fp ->
  point_or_comma sep = true ->
  exists i f,
    digits_value 0 ip = Some i /\ digits_value 0 fp = Some f
    /\ _parse_numeric_value (ip ++ sep :: fp)
       = Ok (Qmake (Z.of_N (i * 10 ^ N.of_nat (List.length fp) + f))
               (Z.to_pos (Z.of_N (10 ^ N.of_nat (List.length fp))))).
Proof.
  intros Hip Hfp Dip Dfp Hsep.
  assert (Pip : Forall (fun c => plain_char c = true) ip)
    by (eapply Forall_impl; [exact Dip | exact isdecimal_plain]).
  assert (Pfp : Forall (fun c => plain_char c = true) fp)
    by (eapply Forall_impl; [exact Dfp | exact isdecimal_plain]).
  unfold _parse_numeric_value. rewrite replace_char.
  match goal with |- context [@List.map _ _ ?g _] => set (f := g) end.
  rewrite List.map_app, List.map_cons.
  assert (Hmap : forall t : list char, Forall (fun c => plain_char c = true) t ->
                 @List.map char char f t = t).
  { induction 1 as [|c t Hc _ IH]; [reflexivity|]. simpl. unfold f at 1.
    apply plain_char_inv in Hc as (_ & _ & Hc%N.eqb_neq & _). now rewrite Hc, IH. }
  rewrite (Hmap ip Pip), (Hmap fp Pfp).
  assert (f sep = 46) as ->.
  { unfold f, point_or_comma in *. apply orb_true_iff in Hsep as [H|H].
    - apply N.eqb_eq in H. now subst.
    - now rewrite H. }
  clear f Hmap.
  destruct ip as [|c0 ip]; [congruence|].
  pose proof (Forall_inv Pip) as Hc0. apply plain_char_inv in Hc0
    as (_ & H43 & _ & H45 & _).
  rewrite (py_float_unsigned _ c0 (ip ++ 46 :: fp)); [|apply strip_plain|easy..].
  2:{ change (c0 :: ip ++ 46 :: fp) with ((c0 :: ip) ++ 46 :: fp).
      apply Forall_app_2; [|constructor; [reflexivity|]];
      (eapply Forall_impl; [eassumption|]); intros c Hc;
      now apply plain_char_inv in Hc. }
  change (c0 :: ip ++ 46 :: fp) with ((c0 :: ip) ++ 46 :: fp).
  rewrite split_point_app.
  2:{ eapply Forall_impl; [exact Pip|]. intros c Hc.
      now apply plain_char_inv in Hc. }
  unfold decimal_value.
  destruct (digits_value_total _ 0 Dip) as [i Hi].
  destruct (digits_value_total fp 0 Dfp) as [f Hf].
  exists i, f. rewrite Hi, Hf. cbn [app]. auto.
Qed.

(** Every word of \d+[.,]\d+ converts, to a value that is not negative. *)
Lemma parse_numeric_value_number w :
  number_word w -> exists q, _parse_numeric_value w = Ok q /\ (0 <= q)%Q.
Proof.
  intros (ip & sep & fp & -> & Hip & Hfp & Dip & Dfp & Hsep).
  destruct (parse_numeric_value_decimal sep ip fp Hip Hfp Dip Dfp Hsep)
    as (i & f & _ & _ & ->).
  eexists. split; [reflexivity|]. unfold Qle. simpl. lia.
Qed.

End Digits.
(** ** The numbers the value patterns capture *)

Section Numbers.
Import Py Exn Num Models Re Parser Spec.

Variable fl : flags.

Lemma consumes_any r :
  chars_in (fun _ => true) fl r -> consumes (fun _ => True) (rmatch fl r).
Proof.
  intros H. eapply consumes_weaken; [|apply (rmatch_consumes _ fl r H)]. auto.
Qed.

Lemma consumes_NUMBER : consumes number_word (rmatch fl NUMBER).
Proof.
  unfold NUMBER, digit.
  eapply consumes_weaken;
    [|apply consumes_Seq;
       [apply consumes_Plus_Cls
       |apply consumes_Seq; [apply consumes_Cls | apply consumes_Plus_Cls]]].
  intros w (ip & w2 & -> & [Hip Dip] & (w3 & fp & -> & (sep & -> & Hsep) & [Hfp Dfp])).
  exists ip, sep, fp. auto 10.
Qed.

(** : \s* (number) \s* (unit), after the groups [c] *)
Lemma value_tail i j s c x :
  rmatch fl
    (Seq (Chr 58)
       (Seq (Star true space)
          (Seq (Grp i NUMBER) (Seq (Star true space) (Grp j UNIT_TOKENS)))))
    s c (fun s' c' => Some (s', c')) = Some x ->
  exists w u, number_word w /\ snd x = (j, u) :: (i, w) :: c.
Proof.
  intros H.
  apply (rmatch_Seq_first fl _ _ _ _ _ _ _ (consumes_Chr fl 58)) in H
    as (_ & s1 & _ & _ & H).
  apply (rmatch_Seq_first fl _ _ _ _ _ _ _ (consumes_Star_Cls fl true isspace)) in H
    as (_ & s2 & _ & _ & H).
  apply (rmatch_Seq_Grp fl _ _ _ _ _ _ _ _ consumes_NUMBER) in H
    as (w & s3 & _ & Hw & H).
  apply (rmatch_Seq_first fl _ _ _ _ _ _ _ (consumes_Star_Cls fl true isspace)) in H
    as (_ & s4 & _ & _ & H).
  apply (rmatch_Grp fl (fun _ => True)) in H as (u & s5 & _ & _ & H).
  - injection H as <-. exists w, u. auto.
  - apply consumes_any. unfold UNIT_TOKENS. split; apply chars_in_Str.
Qed.

Lemma current_value_match_at s x :
  match_at fl CURRENT_VALUE_PATTERN s = Some x ->
  exists w, number_word w /\ group_in (snd x) 2 = Some w.
Proof.
  unfold match_at, CURRENT_VALUE_PATTERN. intros H.
  apply (rmatch_Seq_Grp fl (fun _ => True)) in H as (y & s1 & _ & _ & H).
  - apply value_tail in H as (w & u & Hw & ->). exists w. auto.
  - apply consumes_any. unfold digit. simpl. auto.
Qed.

Lemma average_match_at s x :
  match_at fl AVERAGE_PATTERN s = Some x ->
  exists w, number_word w /\ group_in (snd x) 1 = Some w.
Proof.
  unfold match_at, AVERAGE_PATTERN. intros H.
  apply (rmatch_Seq_first fl (fun _ => True)) in H as (y & s1 & _ & _ & H).
  - apply value_tail in H as (w & u & Hw & ->). exists w. auto.
  - apply consumes_any. repeat split; try apply chars_in_Str; auto.
Qed.

End Numbers.

Section SectionErrors.
Import Py Exn Num Models Re Parser Spec.

Lemma current_value_group m s :
  In m (finditer NOFLAGS CURRENT_VALUE_PATTERN s) -> number_word (group m 2).
Proof.
  intros (pos & s' & x & Hx & ->)%finditer_go_inv.
  apply current_value_match_at in Hx as (w & Hw & E).
  unfold group. simpl. now rewrite E.
Qed.

Lemma average_group m s :
  search IGNORECASE AVERAGE_PATTERN s = Some m -> number_word (group m 1).
Proof.
  intros (pre & s' & x & _ & Hx & -> & _)%search_from_inv.
  apply average_match_at in Hx as (w & Hw & E).
  unfold group. simpl. now rewrite E.
Qed.

Lemma new_ConsumptionData_total cm py pa u :
  (0 <= cm)%Q -> (0 <= py)%Q -> (0 <= pa)%Q ->
  new_ConsumptionData cm py pa u
  = Ok {| current_month := cm; previous_year := py;
          property_average := pa; unit := u |}.
Proof.
  intros H1%Qle_bool_iff H2%Qle_bool_iff H3%Qle_bool_iff.
  unfold new_ConsumptionData, validate_positive.
  rewrite H1, H2, H3. reflexivity.
Qed.

Lemma extract_section_text_errors text name e :
  _extract_section_text text name = Raise e ->
  e = ValueError (lit "Could not find " ++ name ++ lit " section")
  \/ e = ValueError (lit "Could not parse content for " ++ name).
Proof.
  unfold _extract_section_text.
  destruct (find_start name 0 (text_lines text)) as [start|];
    [|intros [= <-]; auto].
  cbv zeta. destruct (strip _); [intros [= <-]; auto | discriminate].
Qed.

(** The errors of a section are its own five: the captured numbers always
    convert, and the values are never refused. *)
Lemma section_raise_cases text section_name e :
  parse_consumption_section text section_name = Raise e ->
  In e (section_errors section_name).
Proof.
  unfold parse_consumption_section, section_errors.
  destruct (_extract_section_text text section_name) as [st|e'] eqn:Hst.
  2:{ simpl. intros [= <-].
      apply extract_section_text_errors in Hst as [-> | ->]; simpl; auto. }
  cbn [bind].
  destruct (search NOFLAGS UNIT_PATTERN st) as [um|];
    [|intros [= <-]; simpl; auto].
  cbv zeta.
  destruct (finditer _ _ st) as [|m0 [|m1 ms]] eqn:Hf;
    try (intros [= <-]; simpl; now auto 6).
  destruct (parse_numeric_value_number (group m0 2)) as (q0 & -> & H0).
  { apply (current_value_group _ st). rewrite Hf. simpl; auto. }
  destruct (parse_numeric_value_number (group m1 2)) as (q1 & -> & H1).
  { apply (current_value_group _ st). rewrite Hf. simpl; auto. }
  cbn [bind].
  destruct (search IGNORECASE AVERAGE_PATTERN st) as [am|] eqn:Ha;
    [|intros [= <-]; simpl; now auto 6].
  destruct (parse_numeric_value_number (group am 1)) as (q2 & -> & H2).
  { now apply (average_group _ st). }
  cbn [bind]. now rewrite new_ConsumptionData_total.
Qed.

End SectionErrors.

(** X1: [parse_consumption_section] ends in one of six ways.  It returns a
    reading whose three values are not negative and whose unit is m³ or
    kWh, or it raises one of its own five ValueErrors (section not found,
    section empty, no unit, fewer than two dated values, no average).  The
    conversion of the captured numbers by [float] and the validator of
    ConsumptionData never fail: what \d+[.,]\d+ captures always converts
    to a value that is not negative. *)
Theorem X1_section_outcomes (text section_name : Py.str) :
  match Parser.parse_consumption_section text section_name with
  | Exn.Ok cd => Spec.valid_consumption cd
  | Exn.Raise e => In e (Spec.section_errors section_name)
  end.
Proof.
  destruct (Parser.parse_consumption_section text section_name) as [cd|e] eqn:E.
  - now apply parse_consumption_section_valid in E.
  - now apply section_raise_cases in E.
Qed.
(** ** The month and the year of a message *)

Section MonthYear.
Import Py Exn Num Models Re Parser Spec.

Lemma month_year_groups s x :
  match_at IGNORECASE MONTH_YEAR_PATTERN s = Some x ->
  exists mon a1 a2 a3 a4 rest,
    s = mon ++ rest
    /\ snd x = [(2%nat, [a1; a2; a3; a4]); (1%nat, mon)]
    /\ month_name_match mon
    /\ isdecimal a1 = true /\ isdecimal a2 = true
    /\ isdecimal a3 = true /\ isdecimal a4 = true.
Proof.
  unfold match_at, MONTH_YEAR_PATTERN. intros H.
  apply (rmatch_Seq_Grp IGNORECASE month_name_match) in H
    as (mon & s1 & -> & Hmon & H).
  2:{ exact (consumes_Alts_Str IGNORECASE (lit "Januar")
               (List.map lit
                  ["Februar"; "März"; "April"; "Mai"; "Juni"; "Juli"; "August";
                   "September"; "Oktober"; "November"; "Dezember"]%string)). }
  apply (rmatch_Seq_first _ _ _ _ _ _ _ _ (consumes_Plus_Cls IGNORECASE true isspace))
    in H as (_ & s2 & _ & _ & H).
  cbn [rmatch] in H. unfold digit in H.
  apply rmatch_four in H as (a1 & a2 & a3 & a4 & s' & -> & H1 & H2 & H3 & H4 & H).
  rewrite captured_prefix in H. injection H as <-.
  exists mon, a1, a2, a3, a4. eauto 10.
Qed.

Lemma four_digits_int a1 a2 a3 a4 :
  isdecimal a1 = true -> isdecimal a2 = true ->
  isdecimal a3 = true -> isdecimal a4 = true ->
  exists y, py_int [a1; a2; a3; a4] = Ok y /\ (0 <= y <= 9999)%Z.
Proof.
  intros (d1 & E1 & ?)%isdecimal_value (d2 & E2 & ?)%isdecimal_value
         (d3 & E3 & ?)%isdecimal_value (d4 & E4 & ?)%isdecimal_value.
  unfold py_int. cbn [digits_value]. rewrite E1, E2, E3, E4.
  eexists. split; [reflexivity | lia].
Qed.

(** What [str.lower] makes of a word that matched a name of letters *)
Lemma tolower_odd c :
  tolower c = 0x131 \/ tolower c = 0x17F -> odd_case_char c = true.
Proof.
  unfold tolower, odd_case_char.
  repeat match goal with
         | |- context [if ?b then _ else _] => destruct b eqn:?
         end;
    rewrite ?andb_true_iff, ?N.leb_le, ?N.eqb_eq in *;
    intros [E|E]; try lia; subst c; reflexivity.
Qed.

Lemma lower_of_match name mon :
  Forall2 (fun p c => lit_ic p c = true) name mon ->
  Forall (fun p => tolower p <> 0xB5) name ->
  existsb odd_case_char mon = false ->
  lower mon = List.map tolower name.
Proof.
  induction 1 as [|p c name mon Hpc _ IH]; [reflexivity|].
  intros [Hp Hname]%Forall_cons_1. cbn [existsb].
  intros [Hc Hmon]%orb_false_iff.
  change (lower (c :: mon)) with (lower_char c ++ lower mon).
  rewrite (IH Hname Hmon). unfold lower_char.
  assert ((c =? 0x130) = false) as ->.
  { unfold odd_case_char in Hc. now apply orb_false_iff in Hc as [[? ?]%orb_false_iff ?]. }
  simpl. f_equal. unfold lit_ic in Hpc.
  repeat (apply orb_true_iff in Hpc as [Hpc|Hpc]).
  - now apply N.eqb_eq in Hpc.
  - apply andb_true_iff in Hpc as [_ E%N.eqb_eq].
    rewrite tolower_odd in Hc; [discriminate | auto].
  - apply andb_true_iff in Hpc as [_ E%N.eqb_eq].
    rewrite tolower_odd in Hc; [discriminate | auto].
  - apply andb_true_iff in Hpc as [E%N.eqb_eq _]. contradiction.
Qed.

Lemma lower_has_odd mon :
  existsb odd_case_char mon = true ->
  exists c, In c (lower mon) /\ (c = 0x307 \/ c = 0x131 \/ c = 0x17F).
Proof.
  intros (c & Hin & Hc)%existsb_exists.
  assert (exists d, In d (lower_char c) /\ (d = 0x307 \/ d = 0x131 \/ d = 0x17F))
    as (d & Hd & Hd').
  { unfold odd_case_char in Hc.
    apply orb_true_iff in Hc as [[E|E]%orb_true_iff|E];
      apply N.eqb_eq in E; subst c.
    - exists 0x307. split; [right; left; reflexivity | auto].
    - exists 0x131. split; [left; reflexivity | auto].
    - exists 0x17F. split; [left; reflexivity | auto]. }
  exists d. split; [|exact Hd'].
  unfold lower. apply in_flat_map. eauto.
Qed.

Lemma month_keys_plain :
  forallb (fun kv => forallb (fun c => negb ((c =? 0x307) || (c =? 0x131) || (c =? 0x17F)))
                       (fst kv))
    (map_to_list MONTH_MAP) = true.
Proof. vm_compute. reflexivity. Qed.

Lemma month_number_odd key c :
  In c key -> c = 0x307 \/ c = 0x131 \/ c = 0x17F ->
  month_number key = Raise (KeyError key).
Proof.
  intros Hin Hc. unfold month_number.
  match goal with |- context [match ?l with _ => _ end] => destruct l as [n|] eqn:E end;
    [|reflexivity].
  apply elem_of_map_to_list in E. apply list_elem_of_In in E.
  pose proof (proj1 (forallb_forall _ _) month_keys_plain _ E) as Hk.
  cbn [fst] in Hk.
  pose proof (proj1 (forallb_forall _ _) Hk c Hin) as Hn.
  apply negb_true_iff in Hn.
  destruct Hc as [-> | [-> | ->]]; discriminate.
Qed.

Lemma month_names_keys :
  List.map (fun name => month_number (List.map tolower name)) MONTH_NAMES
  = List.map Ok [1; 2; 3; 4; 5; 6; 7; 8; 9; 10; 11; 12]%Z.
Proof. vm_compute. reflexivity. Qed.

Lemma month_names_letters :
  Forall (Forall (fun p => tolower p <> 0xB5)) MONTH_NAMES.
Proof.
  apply Forall_forall. intros name Hname%list_elem_of_In.
  apply Forall_forall. intros p Hp%list_elem_of_In.
  assert (forallb (forallb (fun p => negb (tolower p =? 0xB5))) MONTH_NAMES = true)
    as H by (vm_compute; reflexivity).
  pose proof (proj1 (forallb_forall _ _) H name Hname) as H1.
  pose proof (proj1 (forallb_forall _ _) H1 p Hp) as H2.
  now apply negb_true_iff, N.eqb_neq in H2.
Qed.

End MonthYear.
Section MessageOutcomes.
Import Py Exn Num Models Re Parser Spec.

Lemma parse_month_year_cases text :
  match parse_month_year text with
  | Ok (mon, y) =>
      month_name_match mon /\ (0 <= y <= 9999)%Z
      /\ exists pre post, text = pre ++ mon ++ post
  | Raise e => e = ValueError (lit "Could not find month and year in message")
  end.
Proof.
  unfold parse_month_year, search.
  destruct (search_from _ _ _ _) as [m|] eqn:E; [|reflexivity].
  apply search_from_inv in E as (pre & s' & x & -> & Hx & -> & _).
  apply month_year_groups in Hx
    as (mon & a1 & a2 & a3 & a4 & rest & -> & Hg & Hmon & H1 & H2 & H3 & H4).
  unfold group. cbn [m_groups mk_match]. rewrite Hg. cbn [group_in Nat.eqb].
  destruct (four_digits_int _ _ _ _ H1 H2 H3 H4) as (y & -> & Hy).
  cbn [bind]. eauto 6.
Qed.

Lemma month_index name :
  In name MONTH_NAMES ->
  exists n, month_number (List.map tolower name) = Ok n /\ (1 <= n <= 12)%Z
            /\ nth_error MONTH_NAMES (Z.to_nat (n - 1)) = Some name.
Proof.
  intros (i & Hi)%In_nth_error.
  assert (Hlt : (i < List.length MONTH_NAMES)%nat)
    by (apply nth_error_Some; rewrite Hi; discriminate).
  change (List.length MONTH_NAMES) with 12%nat in Hlt.
  pose proof (map_nth_error (fun name => month_number (List.map tolower name))
                i MONTH_NAMES Hi) as Hk.
  rewrite month_names_keys in Hk.
  do 12 (destruct i as [|i];
         [injection Hk as <-; eexists; split; [reflexivity|]; split; [lia | exact Hi]|]).
  lia.
Qed.

Lemma month_lookup mon :
  month_name_match mon ->
  if existsb odd_case_char mon
  then month_number (lower mon) = Raise (KeyError (lower mon))
  else exists n name,
         month_number (lower mon) = Ok n /\ (1 <= n <= 12)%Z
         /\ nth_error MONTH_NAMES (Z.to_nat (n - 1)) = Some name
         /\ Forall2 (fun p c => lit_ic p c = true) name mon.
Proof.
  intros Hm. destruct (existsb odd_case_char mon) eqn:Hodd.
  - apply lower_has_odd in Hodd as (c & Hin & Hc).
    now apply (month_number_odd _ c).
  - unfold month_name_match in Hm.
    apply Exists_exists in Hm as (name & Hin%list_elem_of_In & HF).
    rewrite (lower_of_match name mon HF);
      [|now apply (proj1 (Forall_forall _ _) month_names_letters), list_elem_of_In
       |exact Hodd].
    destruct (month_index name Hin) as (n & Hn & Hr & Hnth).
    exists n, name. auto.
Qed.

(** The date of a message whose year has four digits *)
Lemma py_date_cases y n :
  (0 <= y <= 9999)%Z -> (1 <= n <= 12)%Z ->
  (y = 0%Z /\ py_date y n 1 = Raise (ValueError (lit "year 0 is out of range")))
  \/ (y <> 0%Z /\ py_date y n 1 = Ok {| d_year := y; d_month := n; d_day := 1 |}).
Proof.
  intros Hy Hn. destruct (Z.eq_dec y 0%Z) as [-> | Hy0].
  - left. split; [reflexivity | apply py_date_year_0].
  - right. split; [exact Hy0 | apply py_date_first; lia].
Qed.

End MessageOutcomes.
Section MessageErrors.
Import Py Exn Num Models Re Parser Spec.

Lemma generate_content_hash_error raw e :
  generate_content_hash raw = Raise e -> e = UnicodeEncodeError.
Proof.
  unfold generate_content_hash. destruct (Sha256.sha256_hex raw); congruence.
Qed.

Lemma new_ParsedMessage_error m y d k w h raw hash e :
  new_ParsedMessage m y d k w h raw hash = Raise e -> e = year_error.
Proof.
  unfold new_ParsedMessage, validate_year.
  destruct (_ || _)%Z; simpl; [|discriminate]. now intros [= <-].
Qed.

Lemma parse_message_raise_cases raw e :
  parse_message raw = Raise e -> message_error e.
Proof.
  unfold parse_message, message_error.
  destruct (generate_content_hash raw) as [hash|e0] eqn:Hh.
  2:{ cbn [bind]. intros [= <-]. left. eapply generate_content_hash_error, Hh. }
  cbn [bind]. pose proof (parse_month_year_cases raw) as Hmy.
  destruct (parse_month_year raw) as [[mon y]|e1].
  2:{ cbn [bind]. intros [= <-]. auto. }
  destruct Hmy as (Hmon & Hy & _). cbn [bind].
  pose proof (month_lookup mon Hmon) as Hn.
  destruct (existsb odd_case_char mon).
  { rewrite Hn. cbn [bind]. intros [= <-]. eauto 6. }
  destruct Hn as (n & name & -> & Hn & _). cbn [bind].
  destruct (py_date_cases y n Hy Hn) as [[_ ->] | [_ ->]].
  { cbn [bind]. intros [= <-]. auto 6. }
  cbn [bind].
  destruct (parse_consumption_section raw (lit "Kaltwasser")) as [k|ek] eqn:Ek.
  2:{ cbn [bind]. intros [= <-]. apply section_raise_cases in Ek. auto 8. }
  cbn [bind].
  destruct (parse_consumption_section raw (lit "Warmwasser")) as [w|ew] eqn:Ew.
  2:{ cbn [bind]. intros [= <-]. apply section_raise_cases in Ew. auto 8. }
  cbn [bind].
  destruct (parse_consumption_section raw (lit "Heizung")) as [h|eh] eqn:Eh.
  2:{ cbn [bind]. intros [= <-]. apply section_raise_cases in Eh. auto 9. }
  cbn [bind]. intros He%new_ParsedMessage_error. auto 10.
Qed.

End MessageErrors.

(** X2: [parse_month_year] either raises its one ValueError (no month name
    followed by white space and four digits anywhere in the text) or
    returns a month and a year: the month is the matched part of the text
    as it is spelt there, equal to one of the twelve names up to case; the
    year is a number from 0 to 9999.  [int] never fails on the four
    digits. *)
Theorem X2_month_year_outcomes (text : Py.str) :
  match Parser.parse_month_year text with
  | Exn.Ok (mon, y) =>
      Spec.month_name_match mon /\ (0 <= y <= 9999)%Z
      /\ exists pre post, text = pre ++ mon ++ post
  | Exn.Raise e =>
      e = Exn.ValueError (Py.lit "Could not find month and year in message")
  end.
Proof. exact (parse_month_year_cases text). Qed.

(** X3: the look-up [MONTH_MAP[month.lower()]] of a month that the pattern
    matched.  It raises KeyError exactly when the matched word has a
    capital I with dot (U+0130), a dotless i (U+0131) or a long s
    (U+017F), which IGNORECASE accepts for i and s but [str.lower] does not
    turn into them; in every other case it finds the number, from 1 to 12,
    of the name the word matches. *)
Theorem X3_month_lookup (mon : Py.str) :
  Spec.month_name_match mon ->
  if existsb Spec.odd_case_char mon
  then Parser.month_number (Py.lower mon)
       = Exn.Raise (Exn.KeyError (Py.lower mon))
  else exists n name,
         Parser.month_number (Py.lower mon) = Exn.Ok n /\ (1 <= n <= 12)%Z
         /\ nth_error Parser.MONTH_NAMES (Z.to_nat (n - 1)) = Some name
         /\ Forall2 (fun p c => Re.lit_ic p c = true) name mon.
Proof. exact (month_lookup mon). Qed.

Lemma X3_month_lookup_witness :
  Spec.month_name_match [0x4A; 0x55; 0x4E; 0x131]
  /\ Parser.month_number (Py.lower [0x4A; 0x55; 0x4E; 0x131])
     = Exn.Raise (Exn.KeyError (Py.lower [0x4A; 0x55; 0x4E; 0x131])).
Proof.
  assert (H : Spec.month_name_match [0x4A; 0x55; 0x4E; 0x131]).
  { unfold Spec.month_name_match. do 5 apply Exists_cons_tl. apply Exists_cons_hd.
    vm_compute. repeat constructor. }
  split; [exact H|]. exact (X3_month_lookup [0x4A; 0x55; 0x4E; 0x131] H).
Defined.

(** X4: what a ParsedMessage returned by [parse_message] holds.  The raw
    message is kept as it came and the hash is that of the raw message; the
    year lies between 2000 and 2100; the month is the word of the text that
    matched, in the spelling of the text (any case), not the name of the
    table; the date is the first day of that month of that year, the month
    number being the one of the table for the lowered word. *)
Theorem X4_parsed_message_fields (raw : Py.str) (pm : Models.ParsedMessage) :
  Parser.parse_message raw = Exn.Ok pm ->
  Models.raw_message pm = raw
  /\ Parser.generate_content_hash raw = Exn.Ok (Models.content_hash pm)
  /\ Parser.parse_month_year raw = Exn.Ok (Models.month pm, Models.year pm)
  /\ Spec.month_name_match (Models.month pm)
  /\ (2000 <= Models.year pm <= 2100)%Z
  /\ exists n,
       Parser.month_number (Py.lower (Models.month pm)) = Exn.Ok n
       /\ (1 <= n <= 12)%Z
       /\ Models.message_date pm
          = {| Num.d_year := Models.year pm; Num.d_month := n; Num.d_day := 1 |}.
Proof.
  intros (hash & mon & y & n & d & k & w & h & Hh & Hmy & Hn & Hd & _ & _ & _
          & Hy & ->)%parse_message_Ok.
  cbn [Models.raw_message Models.content_hash Models.month Models.year
       Models.message_date].
  pose proof (parse_month_year_cases raw) as Hc. rewrite Hmy in Hc.
  destruct Hc as (Hmon & _ & _).
  pose proof (month_number_range _ _ Hn) as Hr.
  rewrite py_date_first in Hd by lia. injection Hd as <-.
  split; [reflexivity|]. split; [exact Hh|]. split; [exact Hmy|].
  split; [exact Hmon|]. split; [exact Hy|]. exists n. auto.
Qed.

Lemma X4_parsed_message_fields_witness :
  exists pm,
    Parser.parse_message Spec.notice = Exn.Ok pm
    /\ Models.raw_message pm = Spec.notice
    /\ (2000 <= Models.year pm <= 2100)%Z.
Proof.
  destruct (Parser.parse_message Spec.notice) as [pm|e] eqn:E;
    [|vm_compute in E; discriminate].
  exists pm. split; [reflexivity|].
  destruct (X4_parsed_message_fields Spec.notice pm E) as (H1 & _ & _ & _ & H2 & _).
  split; [exact H1 | exact H2].
Defined.

(** X5: the errors that leave [parse_message].  It raises nothing but
    UnicodeEncodeError (from the hash, for a lone surrogate), the
    ValueError of the month and year search, KeyError (from the month
    table), the ValueError "year 0 is out of range" of the date, one of the
    five ValueErrors of a section, for Kaltwasser, Warmwasser or Heizung,
    and the validation error of the year. *)
Theorem X5_parse_message_errors (raw : Py.str) (e : Exn.exn) :
  Parser.parse_message raw = Exn.Raise e -> Spec.message_error e.
Proof. exact (parse_message_raise_cases raw e). Qed.

Lemma X5_parse_message_errors_witness :
  Spec.message_error
    (Exn.ValueError (Py.lit "Could not find month and year in message")).
Proof.
  apply (X5_parse_message_errors (Py.lit "Guten Tag")).
  vm_compute. reflexivity.
Defined.
(** ** What the deduplication keeps *)

Section Kept.
Import Py Scraper Spec.

Lemma drop_duplicates_In seen l m :
  In m (drop_duplicates seen l) ->
  In m l /\ ~ In (normalize_message m) seen.
Proof.
  revert seen. induction l as [|x l IH]; intros seen; simpl; [tauto|].
  destruct (existsb (eqb (normalize_message x)) seen) eqn:E.
  - intros [H1 H2]%IH. auto.
  - intros [<- | [H1 H2]%IH].
    + split; [auto|]. intros H%existsb_eqb_In. congruence.
    + split; [auto|]. intros H. apply H2. now right.
Qed.

Lemma drop_duplicates_NoDup seen l :
  NoDup (List.map normalize_message (drop_duplicates seen l)).
Proof.
  revert seen. induction l as [|x l IH]; intros seen; simpl; [constructor|].
  destruct (existsb (eqb (normalize_message x)) seen) eqn:E; [apply IH|].
  simpl. constructor; [|apply IH].
  intros (m & Hm & [_ Hseen]%drop_duplicates_In)%list_elem_of_In%in_map_iff.
  apply Hseen. left. now rewrite Hm.
Qed.

Lemma drop_duplicates_head seen l :
  l <> [] -> Forall (fun m => ~ In (normalize_message m) seen) (firstn 1 l) ->
  firstn 1 (drop_duplicates seen l) = firstn 1 l.
Proof.
  destruct l as [|x l]; [congruence|]. intros _ H. simpl in *.
  apply Forall_inv in H.
  destruct (existsb (eqb (normalize_message x)) seen) eqn:E; [|reflexivity].
  now apply existsb_eqb_In in E.
Qed.

(** Of the candidates with one normalised text, a newest one is kept. *)
Lemma drop_duplicates_newest seen cs t m :
  sorted_desc cs -> In (t, m) cs -> ~ In (normalize_message m) seen ->
  exists t' m',
    In (t', m') cs
    /\ In m' (drop_duplicates seen (List.map snd cs))
    /\ normalize_message m' = normalize_message m
    /\ ltb t' t = false.
Proof.
  intros Hs. revert seen. induction Hs as [|[t0 m0] cs Hs IH Hall]; intros seen;
    [intros []|].
  intros Hin Hseen. cbn [List.map snd drop_duplicates].
  assert (Ht0 : ltb t0 t = false).
  { destruct Hin as [[= -> ->]|Hin]; [apply ltb_irrefl|].
    apply list_elem_of_In in Hin.
    exact (proj1 (Forall_forall _ _) Hall _ Hin). }
  destruct (existsb (eqb (normalize_message m0)) seen) eqn:E.
  - destruct Hin as [[= -> ->]|Hin].
    { now apply existsb_eqb_In in E. }
    destruct (IH seen Hin Hseen) as (t' & m' & H1 & H2 & H3 & H4).
    exists t', m'. simpl. auto.
  - destruct (decide (normalize_message m0 = normalize_message m))
      as [Heq|Hne].
    + exists t0, m0. simpl. auto.
    + destruct Hin as [[= -> ->]|Hin]; [congruence|].
      destruct (IH (normalize_message m0 :: seen) Hin) as (t' & m' & H1 & H2 & H3 & H4).
      { intros [H|H]; [congruence | contradiction]. }
      exists t', m'. simpl. auto.
Qed.

(** The method for every limit: a limit below one acts as the limit one. *)
Lemma deduplicate_and_limit_any candidates limit :
  fst (_deduplicate_and_limit candidates limit)
  = deduplicate_and_limit_spec candidates (option_map (Z.max 1) limit).
Proof.
  destruct limit as [n|]; [|now apply deduplicate_and_limit_meets_spec].
  destruct (Z_le_gt_dec 1 n) as [Hn|Hn].
  { cbn [option_map]. rewrite Z.max_r by lia.
    now apply deduplicate_and_limit_meets_spec. }
  cbn [option_map]. rewrite Z.max_l by lia.
  unfold deduplicate_and_limit_spec.
  destruct candidates as [|c candidates]; [reflexivity|].
  cbn [_deduplicate_and_limit fst].
  pose proof (sort_desc_perm (c :: candidates)) as Hp.
  destruct (sort_desc (c :: candidates)) as [|[t m] rest].
  { apply Permutation_sym, Permutation_nil in Hp. discriminate. }
  cbn [dedup_loop]. rewrite bool_decide_eq_false_2 by apply not_elem_of_empty.
  cbn [app]. unfold limit_reached.
  assert ((n <=? Z.of_nat (List.length [m]))%Z = true) as ->
      by (apply Z.leb_le; simpl; lia).
  reflexivity.
Qed.

End Kept.

(** X6: [_deduplicate_and_limit] for every limit.  It returns the texts of
    the candidates, newest first, without those whose normalised text was
    already kept, cut to the limit, where a limit below one (zero or
    negative) counts as one: the loop tests the limit only after it has
    appended a message.  An empty list of candidates gives the empty list. *)
Theorem X6_deduplicate_any_limit
    (candidates : list (Py.str * Py.str)) (limit : option Z) :
  fst (Scraper._deduplicate_and_limit candidates limit)
  = Spec.deduplicate_and_limit_spec candidates (option_map (Z.max 1) limit).
Proof. exact (deduplicate_and_limit_any candidates limit). Qed.

(** X7: the messages [_deduplicate_and_limit] returns have pairwise
    different normalised texts, each is the text of a candidate, and there
    are at most max(limit, 1) of them; the result is empty only for an empty
    list of candidates. *)
Theorem X7_deduplicated_messages
    (candidates : list (Py.str * Py.str)) (limit : option Z) :
  let messages := fst (Scraper._deduplicate_and_limit candidates limit) in
  NoDup (List.map Scraper.normalize_message messages)
  /\ Forall (fun m => In m (List.map snd candidates)) messages
  /\ match limit with
     | Some n => (Z.of_nat (List.length messages) <= Z.max 1 n)%Z
     | None => True
     end
  /\ (messages = [] <-> candidates = []).
Proof.
  cbv zeta. rewrite deduplicate_and_limit_any. unfold Spec.deduplicate_and_limit_spec.
  set (sorted := List.map snd (Scraper.sort_desc candidates)).
  assert (Hsub : forall k, exists rest,
             Spec.drop_duplicates [] sorted = firstn k (Spec.drop_duplicates [] sorted) ++ rest).
  { intros k. exists (skipn k (Spec.drop_duplicates [] sorted)).
    now rewrite firstn_skipn. }
  assert (Hkept : forall m, In m (Spec.drop_duplicates [] sorted) ->
                            In m (List.map snd candidates)).
  { intros m [Hm _]%drop_duplicates_In. unfold sorted in Hm.
    apply in_map_iff in Hm as (x & <- & Hx). apply in_map.
    eapply Permutation_in; [apply Permutation_sym, sort_desc_perm | exact Hx]. }
  assert (Hempty : Spec.drop_duplicates [] sorted = [] <-> candidates = []).
  { split.
    - intros H. destruct candidates as [|c cs]; [reflexivity|].
      pose proof (sort_desc_perm (c :: cs)) as Hp. unfold sorted in H.
      destruct (Scraper.sort_desc (c :: cs)) as [|x xs].
      + apply Permutation_sym, Permutation_nil in Hp. discriminate.
      + discriminate.
    - intros ->. reflexivity. }
  pose proof (drop_duplicates_NoDup [] sorted) as Hnd.
  destruct limit as [n|]; cbn [option_map].
  - destruct (Hsub (Z.to_nat (Z.max 1 n))) as [rest Hrest].
    split; [|split; [|split]].
    + rewrite Hrest, List.map_app in Hnd. now apply NoDup_app in Hnd as (H & _ & _).
    + apply Forall_forall. intros m Hm%list_elem_of_In. apply Hkept.
      rewrite Hrest. apply in_or_app. now left.
    + rewrite length_firstn. lia.
    + rewrite <- Hempty. split; [|intros ->; apply firstn_nil].
      destruct (Spec.drop_duplicates [] sorted); [reflexivity|].
      replace (Z.to_nat (Z.max 1 n)) with (S (Z.to_nat (Z.max 1 n) - 1)) by lia.
      discriminate.
  - split; [exact Hnd|]. split; [|split; [exact I | exact Hempty]].
    apply Forall_forall. intros m Hm%list_elem_of_In. now apply Hkept.
Qed.

(** X8: without a limit every candidate is represented, by a newest one:
    for each candidate the result has a message with the same normalised
    text, and that message is the text of a candidate whose timestamp is
    not below (as a string) that of the candidate. *)
Theorem X8_newest_duplicate_kept
    (candidates : list (Py.str * Py.str)) (t m : Py.str) :
  In (t, m) candidates ->
  exists t' m',
    In (t', m') candidates
    /\ In m' (fst (Scraper._deduplicate_and_limit candidates None))
    /\ Scraper.normalize_message m' = Scraper.normalize_message m
    /\ Py.ltb t' t = false.
Proof.
  intros Hin. rewrite deduplicate_and_limit_any.
  unfold Spec.deduplicate_and_limit_spec. cbn [option_map].
  destruct (drop_duplicates_newest [] (Scraper.sort_desc candidates) t m)
    as (t' & m' & H1 & H2 & H3 & H4).
  - apply sort_desc_sorted.
  - eapply Permutation_in; [apply sort_desc_perm | exact Hin].
  - intros [].
  - exists t', m'. repeat split; auto.
    eapply Permutation_in; [apply Permutation_sym, sort_desc_perm | exact H1].
Qed.

Lemma X8_newest_duplicate_kept_witness :
  exists t' m',
    In (t', m') [(Py.lit "2025-11-05", Py.lit "Verbrauchswerte  A");
                 (Py.lit "2025-12-05", Py.lit "Verbrauchswerte A")]
    /\ In m' (fst (Scraper._deduplicate_and_limit
                     [(Py.lit "2025-11-05", Py.lit "Verbrauchswerte  A");
                      (Py.lit "2025-12-05", Py.lit "Verbrauchswerte A")] None))
    /\ Scraper.normalize_message m'
       = Scraper.normalize_message (Py.lit "Verbrauchswerte  A")
    /\ Py.ltb t' (Py.lit "2025-11-05") = false.
Proof.
  apply (X8_newest_duplicate_kept
           [(Py.lit "2025-11-05", Py.lit "Verbrauchswerte  A");
            (Py.lit "2025-12-05", Py.lit "Verbrauchswerte A")]).
  simpl. left. reflexivity.
Defined.
(** ** Where the extraction starts and where it ends *)

Section Span.
Import Py Re Scraper Spec.

(** A lazy [.*?] under DOTALL stops at the first place where what follows
    it succeeds. *)
Lemma star_lazy_any_first fl fuel s c k x :
  dotall fl = true ->
  star_loop fuel false (rmatch fl Any) s c k = Some x ->
  exists u s',
    s = u ++ s' /\ k s' c = Some x
    /\ forall u1 u2, u = u1 ++ u2 -> u2 <> [] -> k (u2 ++ s') c = None.
Proof.
  intros Hd. revert s. induction fuel as [|f IH]; intros s.
  - cbn [star_loop]. intros H. exists [], s. split; [reflexivity|].
    split; [exact H|]. intros u1 u2 Hu. now destruct u1, u2.
  - cbn [star_loop]. destruct (k s c) as [x'|] eqn:Ek.
    + cbn [orelse]. intros [= <-]. exists [], s. split; [reflexivity|].
      split; [exact Ek|]. intros u1 u2 Hu. now destruct u1, u2.
    + cbn [orelse]. destruct s as [|y s]; [discriminate|].
      rewrite rmatch_Any_cons. unfold any_match. rewrite Hd. cbn [orb].
      destruct (_ <? _)%nat; [|discriminate].
      intros (u & s' & -> & Hk & Hfirst)%IH.
      exists (y :: u), s'. split; [reflexivity|]. split; [exact Hk|].
      intros [|z u1] u2 Hu Hne.
      * simpl in Hu. subst u2. exact Ek.
      * injection Hu as _ Hu. now apply (Hfirst u1).
Qed.

(** A look-ahead at a part without groups *)
Lemma rmatch_Look_free fl a s c k :
  chars_in (fun _ => true) fl a ->
  rmatch fl (Look a) s c k
  = match rmatch fl a s c (fun s' c' => Some (s', c')) with
    | Some _ => k s c
    | None => None
    end.
Proof.
  intros Ha. cbn [rmatch].
  destruct (rmatch fl a s c _) as [[s' c']|] eqn:E; [|reflexivity].
  apply (rmatch_consumes (fun _ => true) fl a Ha) in E as (w & s2 & _ & _ & E).
  now injection E as _ <-.
Qed.

Lemma alts_str_Some fl phrase phrases s c k x :
  rmatch fl (Alts (List.map Str (phrase :: phrases))) s c k = Some x ->
  exists p w rest,
    In p (phrase :: phrases) /\ s = w ++ rest
    /\ Forall2 (fun a b => chr_match fl a b = true) p w.
Proof.
  revert phrase. induction phrases as [|q phrases IH]; intros phrase.
  - cbn [List.map Alts]. rewrite rmatch_Str.
    destruct (lit_prefix fl phrase s) eqn:E; [|discriminate].
    apply lit_prefix_split in E as (u & Hu & HF). intros _.
    exists phrase, u, (skipn (List.length phrase) s). simpl. auto.
  - change (Alts (List.map Str (phrase :: q :: phrases)))
      with (Alt (Str phrase) (Alts (List.map Str (q :: phrases)))).
    cbn [rmatch]. intros [H|[_ H]]%orelse_Some.
    + rewrite rmatch_Str in H.
      destruct (lit_prefix fl phrase s) eqn:E; [|discriminate].
      apply lit_prefix_split in E as (u & Hu & HF).
      exists phrase, u, (skipn (List.length phrase) s). simpl. auto.
    + apply IH in H as (p & w & rest & Hp & Hs & HF).
      exists p, w, rest. split; [now right | auto].
Qed.

Lemma alts_str_total fl phrase phrases p w rest c k :
  (forall s' c', k s' c' <> None) ->
  In p (phrase :: phrases) ->
  Forall2 (fun a b => chr_match fl a b = true) p w ->
  rmatch fl (Alts (List.map Str (phrase :: phrases))) (w ++ rest) c k <> None.
Proof.
  intros Hk Hp HF. revert phrase Hp.
  induction phrases as [|q phrases IH]; intros phrase Hp.
  - destruct Hp as [<- | []]. cbn [List.map Alts].
    rewrite rmatch_Str, (lit_prefix_Forall2 fl _ _ _ HF). apply Hk.
  - change (Alts (List.map Str (phrase :: q :: phrases)))
      with (Alt (Str phrase) (Alts (List.map Str (q :: phrases)))).
    cbn [rmatch]. destruct Hp as [<- | Hp].
    + rewrite rmatch_Str, (lit_prefix_Forall2 fl _ _ _ HF).
      destruct (k _ c) eqn:E; [discriminate | now apply Hk in E].
    + destruct (rmatch fl (Str phrase) _ c k); [discriminate|].
      cbn [orelse]. now apply IH.
Qed.

Lemma ignorecase_newline y : lit_ic 10 y = true -> y = 10.
Proof.
  unfold lit_ic. change (tolower 10) with 10.
  change (10 =? 105) with false. change (10 =? 115) with false.
  change (10 =? 181) with false. cbn [andb]. rewrite !orb_false_r.
  intros H%N.eqb_eq. revert H. unfold tolower.
  repeat match goal with
         | |- context [?x <=? ?y] => destruct (N.leb_spec x y)
         | |- context [?x =? ?y] => destruct (N.eqb_spec x y)
         end; cbn [andb negb]; lia.
Qed.

Lemma closings_cons :
  CLOSINGS = lit "Falls Sie Fragen"
             :: List.map lit ["Mit freundlichen"; "Viele Grüße"; "Bitte beachten"]%string.
Proof. reflexivity. Qed.

(** The look-ahead of the pattern succeeds at the end of the text and
    where a closing line begins, and nowhere else. *)
Lemma closing_matches s c :
  rmatch DOTALL_IGNORECASE CLOSING s c (fun s' c' => Some (s', c')) <> None
  <-> s = [] \/ closing_ahead s.
Proof.
  unfold CLOSING. rewrite closings_cons. cbn [rmatch]. split.
  - intros H. destruct s as [|y s]; [auto|]. right.
    destruct (chr_match DOTALL_IGNORECASE 10 y) eqn:Ey; [|now cbn [orelse] in H].
    cbn [orelse] in H.
    destruct (rmatch _ (Alts _) s c _) as [x|] eqn:E; [|now cbn [orelse] in H].
    apply alts_str_Some in E as (p & w & rest & Hp & -> & HF).
    apply ignorecase_newline in Ey as ->.
    exists p, w, rest. rewrite closings_cons. auto.
  - intros [-> | (p & w & rest & Hp & -> & HF)]; [discriminate|].
    change (chr_match DOTALL_IGNORECASE 10 10) with true. cbv iota.
    rewrite closings_cons in Hp.
    destruct (rmatch _ (Alts _) (w ++ rest) c _) eqn:E; [discriminate|].
    exfalso. revert E.
    apply alts_str_total with (p := p); [intros; discriminate | exact Hp | exact HF].
Qed.

End Span.
(** ** The ends of a stripped string *)

Section Stripped.
Import Py.

Lemma lstrip_first s c t : lstrip s = c :: t -> isspace c = false.
Proof.
  induction s as [|y s IH]; simpl; [discriminate|].
  destruct (isspace y) eqn:E; [exact IH|]. now intros [= <- _].
Qed.

Lemma lstrip_app_word a b c :
  isspace c = false -> lstrip (a ++ c :: b) = lstrip a ++ c :: b.
Proof.
  intros Hc. induction a as [|y a IH]; simpl; [now rewrite Hc|].
  destruct (isspace y); [exact IH | reflexivity].
Qed.

Lemma rstrip_last s t c : rstrip s = t ++ [c] -> isspace c = false.
Proof.
  unfold rstrip. intros H. apply (f_equal (@rev char)) in H.
  rewrite rev_involutive, rev_app_distr in H. simpl in H.
  eapply lstrip_first, H.
Qed.

(** [rstrip] stops at a word without white space. *)
Lemma rstrip_word w u :
  w <> [] -> Forall (fun c => isspace c = false) w ->
  rstrip (w ++ u) = w ++ rstrip u.
Proof.
  intros Hne Hw. unfold rstrip. rewrite rev_app_distr.
  destruct (rev w) as [|c b] eqn:E.
  { apply (f_equal (@rev char)) in E. rewrite rev_involutive in E. now subst. }
  rewrite lstrip_app_word.
  - rewrite rev_app_distr, <- E, rev_involutive. reflexivity.
  - rewrite Forall_forall in Hw. apply Hw, list_elem_of_In, in_rev.
    rewrite E. now left.
Qed.

Lemma rstrip_prefix s : exists b, s = rstrip s ++ b.
Proof.
  unfold rstrip. destruct (lstrip_suffix (rev s)) as [a Ha].
  exists (rev a). apply (f_equal (@rev char)) in Ha.
  now rewrite rev_involutive, rev_app_distr in Ha.
Qed.

(** No white space at either end of what [strip] returns *)
Lemma strip_ends s :
  (forall c t, strip s = c :: t -> isspace c = false)
  /\ (forall t c, strip s = t ++ [c] -> isspace c = false).
Proof.
  unfold strip. split; [|intros t c; apply rstrip_last].
  intros c t. destruct (lstrip s) as [|c0 l] eqn:E; [discriminate|].
  pose proof (lstrip_first _ _ _ E) as Hc0.
  change (c0 :: l) with ([c0] ++ l).
  rewrite rstrip_word; [|discriminate | now constructor].
  now intros [= <- _].
Qed.

Lemma strip_word w u :
  w <> [] -> Forall (fun c => isspace c = false) w ->
  strip (w ++ u) = w ++ rstrip u.
Proof.
  intros Hne Hw. unfold strip. destruct w as [|c w]; [congruence|].
  simpl. rewrite (Forall_inv Hw).
  now apply (rstrip_word (c :: w) u).
Qed.

End Stripped.

Section SpanOfMatch.
Import Py Re Scraper Spec.

Lemma isspace_cases c :
  isspace c = true ->
  9 <= c <= 13 \/ 28 <= c <= 32 \/ c = 0x85 \/ c = 0xA0 \/ c = 0x1680
  \/ 0x2000 <= c <= 0x200A \/ c = 0x2028 \/ c = 0x2029 \/ c = 0x202F
  \/ c = 0x205F \/ c = 0x3000.
Proof.
  unfold isspace.
  rewrite !orb_true_iff, !andb_true_iff, !N.leb_le, !N.eqb_eq. tauto.
Qed.

Lemma tolower_space c : isspace c = true -> tolower c = c.
Proof.
  intros H%isspace_cases. unfold tolower.
  assert ((0x41 <=? c) && (c <=? 0x5A) = false) as ->.
  { apply andb_false_iff. rewrite !N.leb_gt. lia. }
  assert ((0xC0 <=? c) && (c <=? 0xDE) = false) as ->.
  { apply andb_false_iff. rewrite !N.leb_gt. lia. }
  cbn [andb].
  assert ((c =? 0x130) = false) as -> by (apply N.eqb_neq; lia).
  assert ((c =? 0x178) = false) as -> by (apply N.eqb_neq; lia).
  assert ((c =? 0x39C) = false) as -> by (apply N.eqb_neq; lia).
  assert ((c =? 0x1E9E) = false) as -> by (apply N.eqb_neq; lia).
  assert ((c =? 0x212A) = false) as -> by (apply N.eqb_neq; lia).
  assert ((c =? 0x212B) = false) as -> by (apply N.eqb_neq; lia).
  reflexivity.
Qed.

Lemma lit_ic_space p c :
  lit_ic p c = true -> isspace c = true -> isspace (tolower p) = true.
Proof.
  intros H Hc. unfold lit_ic in H. rewrite (tolower_space c Hc) in H.
  repeat (apply orb_true_iff in H as [H|H]).
  - apply N.eqb_eq in H. now subst.
  - apply andb_true_iff in H as [_ ->%N.eqb_eq]. discriminate.
  - apply andb_true_iff in H as [_ ->%N.eqb_eq]. discriminate.
  - apply andb_true_iff in H as [_ ->%N.eqb_eq]. discriminate.
Qed.

Lemma marker_word_no_space w :
  Forall2 (fun p c => lit_ic p c = true) MARKER w ->
  w <> [] /\ Forall (fun c => isspace c = false) w.
Proof.
  intros HF. split.
  { intros ->. apply Forall2_nil_inv_r in HF. discriminate. }
  assert (Hm : Forall (fun p => isspace (tolower p) = false) MARKER).
  { apply Forall_forall. intros p Hp%list_elem_of_In.
    assert (Hb : forallb (fun p => negb (isspace (tolower p))) MARKER = true)
      by (vm_compute; reflexivity).
    apply negb_true_iff. exact (proj1 (forallb_forall _ _) Hb p Hp). }
  revert Hm. induction HF as [|p c m w Hpc _ IH]; [constructor|].
  intros [Hp Hm]%Forall_cons_1. constructor; [|now apply IH].
  destruct (isspace c) eqn:Ec; [|reflexivity].
  rewrite (lit_ic_space p c Hpc Ec) in Hp. discriminate.
Qed.

(** The pattern matches wherever the marker stands, in any case. *)
Lemma extract_match_at_marker_ci s :
  marker_ahead s -> match_at DOTALL_IGNORECASE EXTRACT_PATTERN s <> None.
Proof.
  intros (w & rest & -> & HF).
  rewrite extract_pattern_eq. unfold match_at.
  change (rmatch DOTALL_IGNORECASE (Str MARKER) (w ++ rest) []
            (fun s' c' =>
               star_loop (List.length s') false (rmatch DOTALL_IGNORECASE Any) s' c'
                 (fun s'' c'' =>
                    rmatch DOTALL_IGNORECASE (Look CLOSING) s''
                      ((1%nat, firstn (List.length (w ++ rest) - List.length s'')
                                 (w ++ rest)) :: c'')
                      (fun s3 c3 => Some (s3, c3)))) <> None).
  rewrite rmatch_Str, (lit_prefix_Forall2 DOTALL_IGNORECASE _ _ _ HF).
  apply star_lazy_any_total; [reflexivity | lia |].
  intros c'. discriminate.
Qed.

(** What a match of the pattern spans: the marker, then as little as
    possible up to the end of the text or a closing line. *)
Lemma extract_match_at_span s x :
  match_at DOTALL_IGNORECASE EXTRACT_PATTERN s = Some x ->
  exists w u,
    s = w ++ u ++ fst x
    /\ Forall2 (fun p c => lit_ic p c = true) MARKER w
    /\ snd x = [(1%nat, w ++ u)]
    /\ (fst x = [] \/ closing_ahead (fst x))
    /\ forall u1 u2, u = u1 ++ u2 -> u2 <> [] -> ~ closing_ahead (u2 ++ fst x).
Proof.
  rewrite extract_pattern_eq. unfold match_at.
  change (rmatch DOTALL_IGNORECASE (Str MARKER) s []
            (fun s' c' =>
               star_loop (List.length s') false (rmatch DOTALL_IGNORECASE Any) s' c'
                 (fun s'' c'' =>
                    rmatch DOTALL_IGNORECASE (Look CLOSING) s''
                      ((1%nat, firstn (List.length s - List.length s'') s) :: c'')
                      (fun s3 c3 => Some (s3, c3)))) = Some x ->
          exists w u,
            s = w ++ u ++ fst x
            /\ Forall2 (fun p c => lit_ic p c = true) MARKER w
            /\ snd x = [(1%nat, w ++ u)]
            /\ (fst x = [] \/ closing_ahead (fst x))
            /\ forall u1 u2, u = u1 ++ u2 -> u2 <> [] -> ~ closing_ahead (u2 ++ fst x)).
  rewrite rmatch_Str.
  destruct (lit_prefix _ MARKER s) eqn:E; [|discriminate].
  apply lit_prefix_split in E as (w & Hw & HF).
  intros H.
  apply star_lazy_any_first in H as (u & s2 & Hs2 & Hk & Hfirst); [|reflexivity].
  cbv beta in Hk, Hfirst.
  rewrite (rmatch_Look_free _ _ _ _ _ closing_chars) in Hk.
  destruct (rmatch DOTALL_IGNORECASE CLOSING s2 _ _) as [y|] eqn:EL; [|discriminate].
  injection Hk as <-. cbn [fst snd].
  assert (Hs : s = w ++ u ++ s2) by (rewrite Hw at 1; now rewrite Hs2).
  exists w, u. split; [exact Hs|]. split; [exact HF|]. split; [|split].
  - rewrite Hs. rewrite app_assoc, captured_prefix. reflexivity.
  - eapply closing_matches. intros Hn. rewrite Hn in EL. discriminate.
  - intros u1 u2 Hu Hne Hcl.
    specialize (Hfirst u1 u2 Hu Hne).
    rewrite (rmatch_Look_free _ _ _ _ _ closing_chars) in Hfirst.
    destruct (rmatch DOTALL_IGNORECASE CLOSING (u2 ++ s2) _ _) eqn:EL2;
      [discriminate|].
    revert EL2. apply closing_matches. now right.
Qed.

(** The search for the pattern in a text: the match starts at the first
    place where the marker stands. *)
Lemma extract_search_span cleaned m :
  search DOTALL_IGNORECASE EXTRACT_PATTERN cleaned = Some m ->
  exists pre w u post,
    cleaned = pre ++ (w ++ u) ++ post
    /\ group m 1 = w ++ u
    /\ Forall2 (fun p c => lit_ic p c = true) MARKER w
    /\ (forall p1 p2, pre = p1 ++ p2 -> p2 <> [] ->
        ~ marker_ahead (p2 ++ (w ++ u) ++ post))
    /\ (post = [] \/ closing_ahead post)
    /\ forall u1 u2, u = u1 ++ u2 -> u2 <> [] -> ~ closing_ahead (u2 ++ post).
Proof.
  intros (pre & s' & x & -> & Hx & -> & Hnone)%search_from_inv.
  apply extract_match_at_span in Hx as (w & u & -> & HF & Hg & Hend & Hfirst).
  exists pre, w, u, (fst x). rewrite <- app_assoc.
  split; [reflexivity|]. split.
  { unfold group. cbn [m_groups mk_match]. rewrite Hg. reflexivity. }
  split; [exact HF|]. split; [|auto].
  intros p1 p2 -> Hne Hm.
  rewrite Forall_forall in Hnone.
  apply (extract_match_at_marker_ci _ Hm).
  apply (Hnone (p2 ++ w ++ u ++ fst x)).
  apply list_elem_of_In, in_map_iff. exists (List.length p1). split.
  - rewrite <- !app_assoc. apply drop_app_length.
  - apply in_seq. rewrite length_app.
    destruct p2; [congruence|]. simpl. lia.
Qed.

End SpanOfMatch.
Section SpanOfExtraction.
Import Py Re Scraper Spec.

Lemma closing_ahead_head y s : closing_ahead (y :: s) -> y = 10.
Proof. intros (p & w & rest & _ & [= -> _] & _). reflexivity. Qed.

(** What the extractor returns, and where it lies in the cleaned text *)
Lemma extraction_span text r :
  _extract_consumption_from_text text = Some r ->
  exists pre w u post,
    clean text = pre ++ (w ++ u) ++ post
    /\ r = w ++ rstrip u
    /\ r = strip (w ++ u)
    /\ Forall2 (fun p c => lit_ic p c = true) MARKER w
    /\ (forall p1 p2, pre = p1 ++ p2 -> p2 <> [] ->
        ~ marker_ahead (p2 ++ (w ++ u) ++ post))
    /\ (post = [] \/ closing_ahead post)
    /\ forall g1 g2, w ++ u = g1 ++ g2 -> g2 <> [] -> ~ closing_ahead (g2 ++ post).
Proof.
  unfold _extract_consumption_from_text.
  destruct (extract_branch_cases text)
    as [[_ ->] | (_ & m & Hm & -> & _ & _)]; cbn [snd]; [discriminate|].
  intros [= <-].
  apply extract_search_span in Hm
    as (pre & w & u & post & Hc & -> & HF & Hleft & Hend & Hfirst).
  destruct (marker_word_no_space w HF) as [Hne Hns].
  exists pre, w, u, post. split; [exact Hc|].
  split; [now apply strip_word|]. split; [reflexivity|]. split; [exact HF|].
  split; [exact Hleft|]. split; [exact Hend|].
  intros g1 g2 Hg Hg2 Hcl.
  apply app_eq_app in Hg as (l & [[-> ->] | [-> ->]]).
  - destruct l as [|y l]; [now apply (Hfirst [] u)|].
    rewrite <- app_assoc in Hcl. apply closing_ahead_head in Hcl as ->.
    rewrite Forall_forall in Hns.
    assert (isspace 10 = false); [|discriminate].
    apply Hns, list_elem_of_In, in_or_app. right. now left.
  - now apply (Hfirst l g2).
Qed.

End SpanOfExtraction.

(** X9: where the text that [_extract_consumption_from_text] returns comes
    from.  The cleaned text splits into three parts: the part before the
    first place at which the marker stands in any case (not only in the
    case that the test at the start of the method asks for), the captured
    part, which begins with the marker there, and the rest, which is empty
    or begins with a closing line (a newline and one of the four closing
    phrases, in any case).  No closing line begins inside the captured
    part, and the result is the captured part stripped. *)
Theorem X9_extraction_span (text r : Py.str) :
  Scraper._extract_consumption_from_text text = Some r ->
  exists pre g post,
    Scraper.clean text = pre ++ g ++ post
    /\ r = Py.strip g
    /\ Spec.marker_ahead g
    /\ (forall p1 p2, pre = p1 ++ p2 -> p2 <> [] ->
        ~ Spec.marker_ahead (p2 ++ g ++ post))
    /\ (post = [] \/ Spec.closing_ahead post)
    /\ forall g1 g2, g = g1 ++ g2 -> g2 <> [] ->
                     ~ Spec.closing_ahead (g2 ++ post).
Proof.
  intros (pre & w & u & post & Hc & _ & Hr & HF & Hleft & Hend & Hfirst)%extraction_span.
  exists pre, (w ++ u), post. split; [exact Hc|]. split; [exact Hr|].
  split; [exists w, u; auto|]. auto.
Qed.

Lemma X9_extraction_span_witness :
  exists pre g post,
    Scraper.clean
      (Py.lit "Hallo, verbrauchswerte und Verbrauchswerte Mai 2025 MIT FREUNDLICHEN")
    = pre ++ g ++ post
    /\ Py.lit "verbrauchswerte und Verbrauchswerte Mai 2025 MIT FREUNDLICHEN"
       = Py.strip g
    /\ Spec.marker_ahead g
    /\ (forall p1 p2, pre = p1 ++ p2 -> p2 <> [] ->
        ~ Spec.marker_ahead (p2 ++ g ++ post))
    /\ (post = [] \/ Spec.closing_ahead post)
    /\ forall g1 g2, g = g1 ++ g2 -> g2 <> [] ->
                     ~ Spec.closing_ahead (g2 ++ post).
Proof.
  apply (X9_extraction_span
           (Py.lit "Hallo, verbrauchswerte und Verbrauchswerte Mai 2025 MIT FREUNDLICHEN")).
  vm_compute. reflexivity.
Defined.

(** X10: the text that [_extract_consumption_from_text] returns begins with
    the marker (in any case), has no white space at either end, and no
    closing line begins anywhere in it: no newline in it is followed by
    one of the four closing phrases, in any case. *)
Theorem X10_extracted_text (text r : Py.str) :
  Scraper._extract_consumption_from_text text = Some r ->
  Spec.marker_ahead r
  /\ (forall c t, r = c :: t -> Py.isspace c = false)
  /\ (forall t c, r = t ++ [c] -> Py.isspace c = false)
  /\ forall a b, r = a ++ b -> ~ Spec.closing_ahead b.
Proof.
  intros (pre & w & u & post & _ & Hr & Hs & HF & _ & _ & Hfirst)%extraction_span.
  split; [exists w, (Py.rstrip u); auto|].
  destruct (strip_ends (w ++ u)) as [H1 H2]. rewrite <- Hs in H1, H2.
  split; [exact H1|]. split; [exact H2|].
  intros a b Hab Hcl.
  destruct (rstrip_prefix u) as [tail Hu].
  destruct Hcl as (p & v & rest & Hp & -> & Hv).
  apply (Hfirst a ((10 :: v ++ rest) ++ tail)); [|discriminate|].
  - rewrite Hu, app_assoc, <- Hr, Hab, <- app_assoc. reflexivity.
  - exists p, v, (rest ++ tail ++ post). split; [exact Hp|]. split; [|exact Hv].
    simpl. now rewrite <- !app_assoc.
Qed.

Lemma X10_extracted_text_witness :
  Spec.marker_ahead (Py.lit "Verbrauchswerte Mai 2025")
  /\ (forall c t, Py.lit "Verbrauchswerte Mai 2025" = c :: t -> Py.isspace c = false)
  /\ (forall t c, Py.lit "Verbrauchswerte Mai 2025" = t ++ [c] -> Py.isspace c = false)
  /\ forall a b, Py.lit "Verbrauchswerte Mai 2025" = a ++ b -> ~ Spec.closing_ahead b.
Proof.
  apply (X10_extracted_text
           (Py.lit "Hallo  Verbrauchswerte Mai 2025 " ++ [10]
            ++ Py.lit "Viele Grüße")).
  vm_compute. reflexivity.
Defined.
(** ** What the three substitutions leave in the text *)

Section SubChars.
Import Py Re.

Variable fl : flags.
Variable r : regex.
Variable repl : str.

(** The result has characters of the subject and of the replacement only. *)
Lemma sub_go_chars (P : char -> Prop) skip s :
  Forall P s -> Forall P repl -> Forall P (sub_go fl r repl skip s).
Proof.
  intros Hs Hr. revert skip. induction Hs as [|c t Hc Ht IH]; intros skip;
    [constructor|].
  cbn [sub_go]. destruct skip as [|k]; [|apply IH].
  destruct (match_at fl r (c :: t)).
  - apply Forall_app_2; [exact Hr | apply IH].
  - constructor; [exact Hc | apply IH].
Qed.

(** A character at which the pattern always matches is not in the result,
    unless the replacement brings it. *)
Lemma sub_go_removes (f : char -> bool) skip s :
  (forall c t, f c = true -> match_at fl r (c :: t) <> None) ->
  Forall (fun c => f c = false) repl ->
  Forall (fun c => f c = false) (sub_go fl r repl skip s).
Proof.
  intros Hall Hr. revert skip. induction s as [|c t IH]; intros skip;
    [constructor|].
  cbn [sub_go]. destruct skip as [|k]; [|apply IH].
  destruct (match_at fl r (c :: t)) eqn:E.
  - apply Forall_app_2; [exact Hr | apply IH].
  - constructor; [|apply IH].
    destruct (f c) eqn:Ec; [|reflexivity]. now apply Hall in E.
Qed.

End SubChars.

Section Runs.
Import Py Re Spec.

Variable f : char -> bool.

Lemma leading_app u s :
  Forall (fun c => f c = true) u -> (forall y t, s = y :: t -> f y = false) ->
  leading f (u ++ s) = List.length u.
Proof.
  intros Hu Hs. induction Hu as [|c u Hc _ IH].
  - destruct s as [|y t]; [reflexivity|]. simpl. now rewrite (Hs y t).
  - simpl. now rewrite Hc, IH.
Qed.

Lemma apart_cons x s :
  apart f s -> (forall y t, s = y :: t -> f x && f y = false) -> apart f (x :: s).
Proof.
  intros Hs Hx. split; [|exact Hs]. destruct s as [|y t]; [exact I|].
  now apply (Hx y t).
Qed.

Lemma apart_tail x s : apart f (x :: s) -> apart f s.
Proof. now intros [_ H]. Qed.

Lemma apart_app_free w s :
  Forall (fun c => f c = false) w -> apart f s -> apart f (w ++ s).
Proof.
  intros Hw Hs. induction Hw as [|c w Hc _ IH]; [exact Hs|].
  simpl. split; [|exact IH].
  destruct (w ++ s); [exact I|]. now rewrite Hc.
Qed.

Lemma apart_no_pair a b s :
  apart f s -> f a = true -> f b = true -> contains [a; b] s = false.
Proof.
  intros Hs Ha Hb. induction s as [|x s IH]; [reflexivity|].
  destruct Hs as [Hx Hs]. cbn [contains]. rewrite (IH Hs), orb_false_r.
  destruct s as [|y s]; cbn [startswith]; [now rewrite andb_false_r|].
  assert (startswith s [] = true) as -> by (destruct s; reflexivity).
  rewrite andb_true_r.
  destruct (N.eqb_spec a x) as [<-|]; [|reflexivity].
  destruct (N.eqb_spec b y) as [<-|]; [|reflexivity].
  now rewrite Ha, Hb in Hx.
Qed.

(** A repetition that is greedy takes all the characters it can. *)
Lemma star_greedy_max fuel body s c x :
  (forall s c k, body s c k
                 = match s with
                   | y :: s' => if f y then k s' c else None
                   | [] => None
                   end) ->
  (List.length s <= fuel)%nat ->
  star_loop fuel true body s c (fun s' c' => Some (s', c')) = Some x ->
  exists u, s = u ++ fst x /\ Forall (fun c => f c = true) u /\ snd x = c
            /\ forall y t, fst x = y :: t -> f y = false.
Proof.
  intros Hbody. revert s. induction fuel as [|n IH]; intros s Hlen.
  - destruct s; [|simpl in Hlen; lia]. cbn [star_loop]. intros [= <-].
    exists []. repeat split; auto. discriminate.
  - cbn [star_loop]. rewrite Hbody. destruct s as [|y s].
    + cbn [orelse]. intros [= <-]. exists []. repeat split; auto. discriminate.
    + destruct (f y) eqn:Ey.
      * assert ((List.length s <? List.length (y :: s))%nat = true) as ->
            by (apply Nat.ltb_lt; simpl; lia).
        destruct (star_loop n true body s c _) as [x'|] eqn:E.
        -- cbn [orelse]. intros [= <-].
           apply IH in E as (u & Hu & HF & Hc & Hmax); [|simpl in Hlen; lia].
           exists (y :: u). simpl. rewrite <- Hu. repeat split; auto.
        -- cbn [orelse]. intros [= <-]. exists []. repeat split; auto.
           intros y' t [= <- _]. simpl in E.
           exfalso. clear -E IH Hlen Hbody.
           assert (Htot : forall m z d, star_loop m true body z d
                            (fun s' c' => Some (s', c')) <> None).
           { induction m as [|m IHm]; intros z d; cbn [star_loop]; [discriminate|].
             destruct (body z d _); discriminate. }
           now apply Htot in E.
      * cbn [orelse]. intros [= <-]. exists []. repeat split; auto.
        now intros y' t [= <- _].
Qed.

End Runs.
Section Collapse.
Import Py Re Spec.

Variable f : char -> bool.
Variable fl : flags.
Variable r : regex.
Variable b : char.

Hypothesis Hhead : forall c t, f c = false -> match_at fl r (c :: t) = None.
Hypothesis Hall : forall c t, f c = true -> match_at fl r (c :: t) <> None.
Hypothesis Hmax : forall s x, match_at fl r s = Some x ->
  exists u, s = u ++ fst x /\ u <> [] /\ Forall (fun c => f c = true) u
            /\ forall y t, fst x = y :: t -> f y = false.

(** Every run of characters of the class is replaced by one character:
    afterwards no two characters of the class are neighbours. *)
Lemma sub_go_collapse s :
  (forall skip, skip = leading f s ->
     apart f (sub_go fl r [b] skip s)
     /\ forall y t, sub_go fl r [b] skip s = y :: t -> f y = false)
  /\ apart f (sub_go fl r [b] 0 s).
Proof.
  induction s as [|c t [IHA IHB]].
  - split; [|exact I]. intros skip _. split; [exact I | discriminate].
  - assert (HB : apart f (sub_go fl r [b] 0 (c :: t))).
    { cbn [sub_go]. destruct (match_at fl r (c :: t)) as [x|] eqn:E.
      - destruct (Hmax _ _ E) as (u & Hu & Hne & HF & Hnext).
        destruct u as [|c' u]; [congruence|]. injection Hu as <- Ht.
        assert (Hk : (List.length (c :: t) - List.length (fst x) - 1)%nat
                     = leading f t).
        { rewrite Ht at 2. rewrite (leading_app f u (fst x)); auto.
          - rewrite Ht. simpl. rewrite length_app. lia.
          - now apply Forall_inv_tail in HF. }
        rewrite Hk. destruct (IHA _ eq_refl) as [Hap Hhd].
        cbn [app]. apply apart_cons; [exact Hap|].
        intros y o Hy. rewrite (Hhd y o Hy). apply andb_false_r.
      - apply apart_cons; [exact IHB|]. intros y o _.
        destruct (f c) eqn:Ec; [|reflexivity]. now apply Hall in E. }
    split; [|exact HB]. intros skip ->. cbn [leading].
    destruct (f c) eqn:Ec.
    + cbn [sub_go]. now apply IHA.
    + split; [exact HB|]. cbn [sub_go]. rewrite (Hhead c t Ec).
      now intros y o [= <- _].
Qed.

End Collapse.

Section Keeps.
Import Py Re Spec.

Variable f : char -> bool.
Variable fl : flags.
Variable r : regex.
Variable repl : str.

Hypothesis Hrepl : Forall (fun c => f c = false) repl.
Hypothesis Hne : repl <> [].

(** A substitution whose replacement has no character of a class brings no
    two characters of the class together. *)
Lemma sub_go_apart s :
  apart f s ->
  forall skip,
    apart f (sub_go fl r repl skip s)
    /\ (skip = 0%nat -> forall y o, sub_go fl r repl skip s = y :: o ->
        f y = true -> exists t, s = y :: t).
Proof.
  induction s as [|c t IH]; intros Hs skip.
  - split; [exact I|]. discriminate.
  - specialize (IH (apart_tail f c t Hs)). cbn [sub_go].
    destruct skip as [|k]; [|split; [apply IH | discriminate]].
    destruct (match_at fl r (c :: t)) as [x|].
    + split; [apply apart_app_free; [exact Hrepl | apply IH]|].
      intros _ y o Hy Hfy. destruct repl as [|z zs]; [congruence|].
      injection Hy as -> _. apply Forall_inv in Hrepl. congruence.
    + destruct (IH 0%nat) as [Hap Hhd]. split.
      * apply apart_cons; [exact Hap|]. intros y o Hy.
        destruct (f c) eqn:Ec; [|reflexivity].
        destruct (f y) eqn:Ey; [|reflexivity].
        destruct (Hhd eq_refl y o Hy Ey) as [t' ->].
        destruct Hs as [Hs _]. now rewrite Ec, Ey in Hs.
      * intros _ y o [= <- _] _. eauto.
Qed.

End Keeps.

Section Newlines.
Import Py Re Scraper Spec.

Local Abbreviation nl := (chr_match NOFLAGS 10).
Local Abbreviation squeeze := (sub_go NOFLAGS NEWLINES3 [10; 10]).

Lemma star_loop_total fuel g body s c :
  star_loop fuel g body s c (fun s' c' => Some (s', c')) <> None.
Proof.
  destruct fuel as [|n]; cbn [star_loop]; [discriminate|].
  destruct g; destruct (body s c _); discriminate.
Qed.

Lemma newlines3_match s x :
  match_at NOFLAGS NEWLINES3 s = Some x ->
  exists u, s = u ++ fst x /\ (3 <= List.length u)%nat
            /\ Forall (fun c => nl c = true) u
            /\ forall y t, fst x = y :: t -> nl y = false.
Proof.
  unfold match_at, NEWLINES3. cbn [rmatch].
  destruct s as [|a1 [|a2 [|a3 s]]];
    repeat match goal with
           | |- context [if chr_match NOFLAGS 10 ?a then _ else _] =>
               destruct (chr_match NOFLAGS 10 a) eqn:?
           end; try discriminate.
  intros H. apply (star_greedy_max nl) in H as (u & -> & HF & _ & Hmax);
    [|reflexivity | lia].
  exists (a1 :: a2 :: a3 :: u). repeat split; auto; simpl; lia.
Qed.

Lemma newlines3_none s :
  match_at NOFLAGS NEWLINES3 s = None -> (leading nl s <= 2)%nat.
Proof.
  unfold match_at, NEWLINES3. cbn [rmatch].
  destruct s as [|a1 [|a2 [|a3 s]]]; cbn [leading];
    repeat match goal with
           | |- context [if chr_match NOFLAGS 10 ?a then _ else _] =>
               destruct (chr_match NOFLAGS 10 a) eqn:?
           end; try lia.
  intros H. now apply star_loop_total in H.
Qed.

Lemma newlines3_head c t : nl c = false -> match_at NOFLAGS NEWLINES3 (c :: t) = None.
Proof. intros H. unfold NEWLINES3. now apply match_head_Chr. Qed.

Lemma contains3_cons c o :
  contains [10; 10; 10] (c :: o)
  = (nl c && startswith o [10; 10]) || contains [10; 10; 10] o.
Proof. reflexivity. Qed.

Lemma startswith_leading o :
  (leading nl o <= 1)%nat -> startswith o [10; 10] = false.
Proof.
  destruct o as [|a [|a' o]]; [reflexivity| |].
  - intros _. cbn [startswith]. apply andb_false_r.
  - cbn [leading startswith].
    change (chr_match NOFLAGS 10 a) with (10 =? a).
    change (chr_match NOFLAGS 10 a') with (10 =? a').
    destruct (10 =? a); [|reflexivity]. destruct (10 =? a'); [lia | reflexivity].
Qed.

(** After the third substitution no three newlines stand together. *)
Lemma sub_go_newlines s :
  (forall skip, skip = leading nl s ->
     contains [10; 10; 10] (squeeze skip s) = false
     /\ leading nl (squeeze skip s) = 0%nat)
  /\ contains [10; 10; 10] (squeeze 0 s) = false
  /\ (leading nl (squeeze 0 s) <= leading nl s)%nat
  /\ (leading nl (squeeze 0 s) <= 2)%nat.
Proof.
  induction s as [|c t (IHA & IHB & IHle & IH2)].
  - split; [intros skip _; split; reflexivity|]. repeat split; simpl; lia.
  - assert (HB : contains [10; 10; 10] (squeeze 0 (c :: t))
                 = false
                 /\ (leading nl (squeeze 0 (c :: t))
                     <= leading nl (c :: t))%nat
                 /\ (leading nl (squeeze 0 (c :: t))
                     <= 2)%nat).
    { cbn [sub_go]. destruct (match_at NOFLAGS NEWLINES3 (c :: t)) as [x|] eqn:E.
      - apply newlines3_match in E as (u & Hu & Hlen & HF & Hnext).
        destruct u as [|c' u]; [simpl in Hlen; lia|]. injection Hu as <- Ht.
        assert (Hk : (List.length (c :: t) - List.length (fst x) - 1)%nat
                     = leading nl t).
        { rewrite Ht at 2. rewrite (leading_app nl u (fst x)); auto.
          - rewrite Ht. simpl. rewrite length_app. lia.
          - now apply Forall_inv_tail in HF. }
        rewrite Hk. destruct (IHA _ eq_refl) as [Hno Hlead].
        set (out := squeeze (leading nl t) t) in *.
        cbn [app]. rewrite !contains3_cons, Hno.
        rewrite (startswith_leading out) by lia.
        match goal with
        | |- context [startswith ?o [10; 10]] =>
            rewrite (startswith_leading o) by (cbn [leading]; simpl; lia)
        end.
        split; [now rewrite !andb_false_r|].
        assert (leading nl (c :: t) = S (List.length u)) as ->.
        { rewrite Ht. change (c :: u ++ fst x) with ((c :: u) ++ fst x).
          now rewrite (leading_app nl (c :: u) (fst x)). }
        change (leading nl (10 :: 10 :: out)) with (S (S (leading nl out))).
        simpl in Hlen. lia.
      - apply newlines3_none in E. cbn [leading] in E |- *.
        rewrite contains3_cons, IHB.
        destruct (nl c) eqn:Ec; [|repeat split; simpl; lia].
        rewrite startswith_leading by lia. repeat split; simpl; lia. }
    split; [|exact HB]. intros skip ->. cbn [leading].
    destruct (nl c) eqn:Ec.
    + cbn [sub_go]. now apply IHA.
    + destruct HB as (H1 & _ & _). split; [exact H1|].
      cbn [sub_go]. rewrite (newlines3_head c t Ec). cbn [leading]. now rewrite Ec.
Qed.

End Newlines.
Section Cleaned.
Import Py Re Scraper Spec.

Lemma contains_single a s :
  Forall (fun c => (c =? a) = false) s -> contains [a] s = false.
Proof.
  induction 1 as [|c s Hc _ IH]; [reflexivity|].
  cbn [contains startswith]. rewrite IH, N.eqb_sym, Hc. reflexivity.
Qed.

Lemma line_end_matches c t :
  (c =? 13) = true -> match_at NOFLAGS LINE_END (c :: t) <> None.
Proof.
  intros ->%N.eqb_eq. unfold match_at, LINE_END, Opt. cbn [rmatch].
  change (chr_match NOFLAGS 13 13) with true. cbv iota.
  destruct t as [|y t]; cbn [orelse]; [discriminate|].
  destruct (chr_match NOFLAGS 10 y); cbn [orelse]; discriminate.
Qed.

Lemma blanks_match c t :
  blank c = true -> match_at NOFLAGS BLANKS (c :: t) <> None.
Proof.
  intros H. unfold match_at, BLANKS, Plus. cbn [rmatch]. rewrite H.
  apply star_loop_total.
Qed.

Lemma blanks_head c t : blank c = false -> match_at NOFLAGS BLANKS (c :: t) = None.
Proof. intros H. unfold BLANKS, Plus. now apply match_head_Cls. Qed.

Lemma blanks_max s x :
  match_at NOFLAGS BLANKS s = Some x ->
  exists u, s = u ++ fst x /\ u <> [] /\ Forall (fun c => blank c = true) u
            /\ forall y t, fst x = y :: t -> blank y = false.
Proof.
  unfold match_at, BLANKS, Plus. cbn [rmatch].
  destruct s as [|a s]; [discriminate|].
  destruct (blank a) eqn:Ea; [|discriminate].
  intros H. apply (star_greedy_max blank) in H; [|reflexivity | lia].
  destruct H as (u & Hu & HF & _ & Hmax).
  exists (a :: u). simpl. rewrite <- Hu. repeat split; auto; discriminate.
Qed.

Lemma cleaned_text text :
  Forall (fun c => (c =? 13) = false) (clean text)
  /\ Forall (fun c => (c =? 9) = false) (clean text)
  /\ apart blank (clean text)
  /\ contains [10; 10; 10] (clean text) = false.
Proof.
  unfold clean, sub.
  set (t1 := sub_go NOFLAGS LINE_END [10] 0 text).
  set (t2 := sub_go NOFLAGS BLANKS [32] 0 t1).
  assert (H1 : Forall (fun c => (c =? 13) = false) t1).
  { apply (sub_go_removes NOFLAGS LINE_END [10] (fun c => c =? 13));
      [exact line_end_matches | repeat constructor]. }
  assert (H2 : Forall (fun c => (c =? 13) = false) t2).
  { apply sub_go_chars; [exact H1 | repeat constructor]. }
  assert (H3 : Forall (fun c => (c =? 9) = false) t2).
  { apply (sub_go_removes NOFLAGS BLANKS [32] (fun c => c =? 9));
      [|repeat constructor].
    intros c t ->%N.eqb_eq. now apply blanks_match. }
  assert (H4 : apart blank t2).
  { apply (sub_go_collapse blank NOFLAGS BLANKS 32 blanks_head blanks_match
             blanks_max t1). }
  split; [apply sub_go_chars; [exact H2 | repeat constructor]|].
  split; [apply sub_go_chars; [exact H3 | repeat constructor]|].
  split; [|apply sub_go_newlines].
  apply (sub_go_apart blank NOFLAGS NEWLINES3 [10; 10]);
    [repeat constructor | discriminate | exact H4].
Qed.

End Cleaned.

(** X11: the text after the three substitutions that
    [_extract_consumption_from_text] applies before it searches.  It has no
    carriage return and no tab, no two spaces stand together, and no three
    newlines stand together: every kind of line end has become a newline,
    every run of spaces and tabs one space, every run of three or more
    newlines two. *)
Theorem X11_cleaned_text (text : Py.str) :
  Py.contains [13] (Scraper.clean text) = false
  /\ Py.contains [9] (Scraper.clean text) = false
  /\ Py.contains [32; 32] (Scraper.clean text) = false
  /\ Py.contains [10; 10; 10] (Scraper.clean text) = false.
Proof.
  destruct (cleaned_text text) as (H13 & H9 & Hap & H3).
  split; [now apply contains_single|]. split; [now apply contains_single|].
  split; [|exact H3]. now apply (apart_no_pair Scraper.blank).
Qed.
(** X12: decimal numbers with a comma or a point.  For digits, a comma or
    a point, and digits, [_parse_numeric_value] returns the same value for
    both separators: the integer part plus the fraction part over ten to
    the number of its digits (the value the literal denotes; [float] rounds
    it to a double). *)
Theorem X12_decimal_separator (ip fp : Py.str) :
  ip <> [] -> fp <> [] ->
  Forall (fun c => Py.isdecimal c = true) ip ->
  Forall (fun c => Py.isdecimal c = true) fp ->
  exists i f,
    Num.digits_value 0 ip = Some i /\ Num.digits_value 0 fp = Some f
    /\ Parser._parse_numeric_value (ip ++ 44 :: fp)
       = Exn.Ok (Qmake (Z.of_N (i * 10 ^ N.of_nat (List.length fp) + f))
                   (Z.to_pos (Z.of_N (10 ^ N.of_nat (List.length fp)))))
    /\ Parser._parse_numeric_value (ip ++ 46 :: fp)
       = Parser._parse_numeric_value (ip ++ 44 :: fp).
Proof.
  intros Hip Hfp Dip Dfp.
  destruct (parse_numeric_value_decimal 44 ip fp Hip Hfp Dip Dfp eq_refl)
    as (i & f & Hi & Hf & Hc).
  destruct (parse_numeric_value_decimal 46 ip fp Hip Hfp Dip Dfp eq_refl)
    as (i' & f' & Hi' & Hf' & Hp).
  assert (i' = i) as -> by congruence. assert (f' = f) as -> by congruence.
  exists i, f. split; [exact Hi|]. split; [exact Hf|]. split; [exact Hc|].
  etransitivity; [exact Hp|]. symmetry. exact Hc.
Qed.

Lemma X12_decimal_separator_witness :
  exists i f,
    Num.digits_value 0 [49; 50] = Some i
    /\ Num.digits_value 0 [51; 52; 53] = Some f
    /\ Parser._parse_numeric_value ([49; 50] ++ 44 :: [51; 52; 53])
       = Exn.Ok (Qmake (Z.of_N (i * 10 ^ N.of_nat (List.length [51; 52; 53]) + f))
                   (Z.to_pos (Z.of_N (10 ^ N.of_nat (List.length [51; 52; 53])))))
    /\ Parser._parse_numeric_value ([49; 50] ++ 46 :: [51; 52; 53])
       = Parser._parse_numeric_value ([49; 50] ++ 44 :: [51; 52; 53]).
Proof.
  apply (X12_decimal_separator [49; 50] [51; 52; 53]).
  - discriminate.
  - discriminate.
  - repeat constructor.
  - repeat constructor.
Defined.
(** ** The loop of main over the raw messages *)

Section Batch.
Import Py Exn Models Parser Database Main Spec.

(** The table with this hash is not asked to save it again. *)
Lemma save_message_new h (db : table) :
  (h ∉ db) -> save_message h db = (Ok tt, {[ h ]} ∪ db).
Proof. intros H. unfold save_message. now rewrite bool_decide_eq_false_2. Qed.

Lemma process_messages_Ok raws : forall db acc new db',
  process_messages raws db acc = (Ok new, db') ->
  db ⊆ db'
  /\ Forall (fun raw => exists pm, parse_message raw = Ok pm /\ content_hash pm ∈ db')
       raws
  /\ exists added,
       new = acc ++ added
       /\ NoDup (List.map content_hash added)
       /\ Forall (fun pm => (content_hash pm ∉ db) /\ content_hash pm ∈ db'
                            /\ exists raw, In raw raws /\ parse_message raw = Ok pm)
            added
       /\ forall h, h ∈ db' -> h ∈ db \/ In h (List.map content_hash added).
Proof.
  induction raws as [|raw rest IH]; intros db acc new db'; cbn [process_messages].
  - intros [= <- <-]. split; [reflexivity|]. split; [constructor|].
    exists []. rewrite app_nil_r. repeat split; auto; constructor.
  - destruct (parse_message raw) as [pm|e] eqn:Ep; [|discriminate].
    unfold check_exists. destruct (bool_decide (content_hash pm ∈ db)) eqn:Eh.
    + apply bool_decide_eq_true in Eh. intros H.
      apply IH in H as (Hsub & Hall & added & -> & Hnd & Hadd & Hdb).
      split; [exact Hsub|]. split.
      { constructor; [|exact Hall]. exists pm. split; [exact Ep|]. now apply Hsub. }
      exists added. repeat split; auto.
      eapply Forall_impl; [exact Hadd|]. intros x (H1 & H2 & raw' & Hin & Hp).
      repeat split; auto. exists raw'. split; [now right | exact Hp].
    + apply bool_decide_eq_false in Eh. rewrite (save_message_new _ _ Eh).
      intros H. apply IH in H as (Hsub & Hall & added & -> & Hnd & Hadd & Hdb).
      assert (Hh : content_hash pm ∈ db')
        by (apply Hsub, elem_of_union_l, elem_of_singleton; reflexivity).
      split; [intros x Hx; apply Hsub, elem_of_union_r, Hx|]. split.
      { constructor; [|exact Hall]. exists pm. auto. }
      exists (pm :: added). rewrite <- app_assoc. split; [reflexivity|].
      split; [|split].
      * cbn [List.map]. constructor; [|exact Hnd].
        intros (x & Hx & Hin)%list_elem_of_In%in_map_iff.
        rewrite Forall_forall in Hadd.
        destruct (Hadd x (proj2 (list_elem_of_In _ _) Hin)) as (Hn & _).
        apply Hn. rewrite Hx. apply elem_of_union_l, elem_of_singleton. reflexivity.
      * constructor.
        -- repeat split; auto. exists raw. split; [now left | exact Ep].
        -- eapply Forall_impl; [exact Hadd|].
           intros x (H1 & H2 & raw' & Hin & Hp).
           split; [intros Hc; apply H1, elem_of_union_r, Hc|].
           split; [exact H2|]. exists raw'. split; [now right | exact Hp].
      * intros h Hin. destruct (Hdb h Hin) as [H|H].
        -- apply elem_of_union in H as [->%elem_of_singleton|H]; [|now left].
           right. now left.
        -- right. now right.
Qed.

(** With every hash in the table the loop saves nothing. *)
Lemma process_messages_known raws db acc :
  Forall (fun raw => exists pm, parse_message raw = Ok pm /\ content_hash pm ∈ db)
    raws ->
  process_messages raws db acc = (Ok acc, db).
Proof.
  induction 1 as [|raw rest (pm & Hp & Hh) _ IH]; [reflexivity|].
  cbn [process_messages]. rewrite Hp. unfold check_exists.
  now rewrite bool_decide_eq_true_2.
Qed.

(** The loop is left by the error of the first message that does not
    parse; the messages before it are in the table then. *)
Lemma process_messages_Raise raws : forall db acc e db',
  process_messages raws db acc = (Raise e, db') ->
  db ⊆ db'
  /\ exists good bad rest,
       raws = good ++ bad :: rest
       /\ parse_message bad = Raise e
       /\ Forall (fun raw => exists pm, parse_message raw = Ok pm
                                        /\ content_hash pm ∈ db') good.
Proof.
  induction raws as [|raw rest IH]; intros db acc e db'; cbn [process_messages];
    [discriminate|].
  destruct (parse_message raw) as [pm|e0] eqn:Ep.
  2:{ intros [= <- <-]. split; [reflexivity|]. exists [], raw, rest. auto. }
  unfold check_exists. destruct (bool_decide (content_hash pm ∈ db)) eqn:Eh.
  - apply bool_decide_eq_true in Eh. intros H.
    apply IH in H as (Hsub & good & bad & rest' & -> & Hbad & Hgood).
    split; [exact Hsub|]. exists (raw :: good), bad, rest'.
    repeat split; auto. constructor; [|exact Hgood]. exists pm. auto.
  - apply bool_decide_eq_false in Eh. rewrite (save_message_new _ _ Eh).
    intros H. apply IH in H as (Hsub & good & bad & rest' & -> & Hbad & Hgood).
    split; [intros x Hx; apply Hsub, elem_of_union_r, Hx|].
    exists (raw :: good), bad, rest'.
    repeat split; auto. constructor; [|exact Hgood]. exists pm.
    split; [exact Ep|]. apply Hsub, elem_of_union_l, elem_of_singleton. reflexivity.
Qed.

Lemma main_Notify raws db new db' :
  main raws db = (Notify new, db') ->
  new <> [] /\ process_messages raws db [] = (Ok new, db').
Proof.
  unfold main. destruct raws as [|raw rest]; [discriminate|].
  destruct (process_messages (raw :: rest) db []) as [[[|pm pms]|e] db1];
    try discriminate.
  intros [= <- <-]. split; [discriminate | reflexivity].
Qed.


End Batch.
(** X13: a second run finds nothing new.  When the loop of [main] has gone
    through the raw messages without an exception, the table holds the hash
    of every one of them, and [main] on the same messages and the table as
    it is then saves nothing, leaves the table as it is and returns the
    exit code 2. *)
Theorem X13_second_run_finds_nothing
    (raw_messages : list Py.str) (db db' : Database.table)
    (new_messages : list Models.ParsedMessage) :
  Main.process_messages raw_messages db [] = (Exn.Ok new_messages, db') ->
  db ⊆ db'
  /\ Forall (fun raw => exists pm, Parser.parse_message raw = Exn.Ok pm
                                   /\ Models.content_hash pm ∈ db') raw_messages
  /\ Main.main raw_messages db' = (Main.Exit 2, db').
Proof.
  intros (Hsub & Hall & _)%process_messages_Ok.
  split; [exact Hsub|]. split; [exact Hall|].
  unfold Main.main. destruct raw_messages as [|raw rest]; [reflexivity|].
  now rewrite (process_messages_known _ _ [] Hall).
Qed.

Lemma X13_second_run_finds_nothing_witness :
  Main.main [Spec.notice] (snd (Main.process_messages [Spec.notice] ∅ []))
  = (Main.Exit 2, snd (Main.process_messages [Spec.notice] ∅ [])).
Proof.
  destruct (Main.process_messages [Spec.notice] ∅ []) as [[new|e] db'] eqn:E.
  - exact (proj2 (proj2 (X13_second_run_finds_nothing _ _ _ _ E))).
  - exfalso. apply process_messages_Raise in E as (_ & good & bad & rest & Hl & Hbad & _).
    destruct good as [|g [|g' good]]; try discriminate.
    injection Hl as <- _. vm_compute in Hbad. discriminate.
Defined.

(** X14: what [main] notifies.  When [main] goes on to send e-mails, the
    messages it sends them for are not empty in number, each is the parse
    of one of the raw messages, none had its hash in the table before, no
    two have the same hash, and the table afterwards is the table before
    with their hashes added. *)
Theorem X14_notified_messages
    (raw_messages : list Py.str) (db db' : Database.table)
    (new_messages : list Models.ParsedMessage) :
  Main.main raw_messages db = (Main.Notify new_messages, db') ->
  new_messages <> []
  /\ NoDup (List.map Models.content_hash new_messages)
  /\ Forall (fun pm => (Models.content_hash pm ∉ db)
                       /\ exists raw, In raw raw_messages
                                      /\ Parser.parse_message raw = Exn.Ok pm)
       new_messages
  /\ forall h, h ∈ db' <-> h ∈ db \/ In h (List.map Models.content_hash new_messages).
Proof.
  intros [Hne H]%main_Notify.
  apply process_messages_Ok in H as (Hsub & _ & added & -> & Hnd & Hadd & Hdb).
  cbn [app] in *. split; [exact Hne|]. split; [exact Hnd|]. split.
  - eapply Forall_impl; [exact Hadd|]. intros pm (H1 & _ & H3). auto.
  - intros h. split; [apply Hdb|]. intros [H|(pm & <- & Hin)%in_map_iff].
    + now apply Hsub.
    + rewrite Forall_forall in Hadd.
      now destruct (Hadd pm (proj2 (list_elem_of_In _ _) Hin)) as (_ & H2 & _).
Qed.

Lemma X14_notified_messages_witness :
  exists new db',
    Main.main [Spec.notice; Spec.notice] ∅ = (Main.Notify new, db')
    /\ new <> []
    /\ NoDup (List.map Models.content_hash new).
Proof.
  destruct (Main.main [Spec.notice; Spec.notice] ∅) as [[code|new] db'] eqn:E.
  - exfalso. vm_compute in E. discriminate.
  - exists new, db'. split; [reflexivity|].
    destruct (X14_notified_messages [Spec.notice; Spec.notice] ∅ db' new E)
      as (H1 & H2 & _).
    split; [exact H1 | exact H2].
Defined.


(** ** The name of the database *)

Section DatabaseName.
Import Py Exn Database Spec.

Lemma below_forallb (P : N -> bool) (n : nat) :
  forallb P (List.map N.of_nat (seq 0 n)) = true ->
  forall c, c < N.of_nat n -> P c = true.
Proof.
  intros H c Hc. rewrite forallb_forall in H. apply H.
  apply in_map_iff. exists (N.to_nat c). split; [lia|].
  apply in_seq. lia.
Qed.

Lemma safe_text_safe :
  forallb safe_char
    (lit "abcdefghijklmnopqrstuvwxyzABCDEFGHIJKLMNOPQRSTUVWXYZ0123456789_-") = true.
Proof. vm_compute. reflexivity. Qed.

Lemma safe_in_text :
  forallb
    (fun c =>
       implb (safe_char c)
         (existsb (N.eqb c)
            (lit "abcdefghijklmnopqrstuvwxyzABCDEFGHIJKLMNOPQRSTUVWXYZ0123456789_-")))
    (List.map N.of_nat (seq 0 123)) = true.
Proof. vm_compute. reflexivity. Qed.

Lemma safe_chars_spec c : bool_decide (c ∈ safe_chars) = safe_char c.
Proof.
  pose proof safe_text_safe as Hall. pose proof safe_in_text as Hex.
  unfold safe_chars.
  generalize dependent
    (lit "abcdefghijklmnopqrstuvwxyzABCDEFGHIJKLMNOPQRSTUVWXYZ0123456789_-").
  intros l Hall Hex.
  assert (Hin : c ∈ (list_to_set l : gset N) <-> existsb (N.eqb c) l = true).
  { rewrite elem_of_list_to_set, list_elem_of_In, existsb_exists. split.
    - intros H. exists c. split; [exact H | apply N.eqb_refl].
    - intros (x & Hx & ->%N.eqb_eq). exact Hx. }
  destruct (safe_char c) eqn:Es.
  - apply bool_decide_eq_true_2, Hin.
    assert (Hc : c < N.of_nat 123).
    { unfold safe_char in Es.
      rewrite !orb_true_iff, !andb_true_iff, !N.leb_le, !N.eqb_eq in Es. lia. }
    pose proof (below_forallb _ 123 Hex c Hc) as H.
    cbv beta in H. rewrite Es in H. exact H.
  - apply bool_decide_eq_false_2. intros H%Hin.
    apply existsb_exists in H as (x & Hx & ->%N.eqb_eq).
    rewrite forallb_forall in Hall. rewrite (Hall _ Hx) in Es. discriminate.
Qed.

Lemma validate_database_name_Ok name :
  _validate_database_name name = Ok tt <-> forallb Spec.safe_char name = true.
Proof.
  unfold _validate_database_name.
  assert (forallb (fun c => bool_decide (c ∈ safe_chars)) name
          = forallb Spec.safe_char name) as ->.
  { induction name as [|c name IH]; [reflexivity|].
    cbn [forallb]. now rewrite safe_chars_spec, IH. }
  destruct (forallb Spec.safe_char name); simpl; split; congruence.
Qed.

Lemma count_occ_safe name :
  forallb Spec.safe_char name = true -> @count_occ char N.eq_dec name 34 = 0%nat.
Proof.
  intros H. apply count_occ_not_In. intros Hin.
  rewrite forallb_forall in H. now apply H in Hin.
Qed.

End DatabaseName.

(** X16: the statement that creates the database.  When
    [create_database_if_not_exists] gets as far as its CREATE DATABASE
    statement, the name is not empty and has only the letters a-z and A-Z,
    the digits, the underscore and the hyphen, and the statement is CREATE
    DATABASE followed by the name between two double quotes, which are the
    only double quotes in it; a name with any other character is refused
    with the ValueError that quotes the name. *)
Theorem X16_create_database_statement (name : Py.str) :
  match Database.create_database_statement (Some name) with
  | Exn.Ok statement =>
      name <> [] /\ forallb Spec.safe_char name = true
      /\ statement = Py.lit "CREATE DATABASE " ++ [34] ++ name ++ [34]
      /\ count_occ N.eq_dec statement 34 = 2%nat
  | Exn.Raise e =>
      (name = []
       /\ e = Exn.ValueError (Py.lit "Database name not found in DATABASE_URL"))
      \/ (forallb Spec.safe_char name = false
          /\ e = Exn.ValueError
                   (Py.lit "Invalid database name (contains unsafe characters): "
                    ++ name))
  end.
Proof.
  unfold Database.create_database_statement.
  destruct name as [|c name]; [left; auto|].
  pose proof (validate_database_name_Ok (c :: name)) as Hv.
  unfold Database._validate_database_name in *.
  destruct (negb _) eqn:E; cbn [Exn.bind].
  - right. split; [|reflexivity].
    destruct (forallb Spec.safe_char (c :: name)); [|reflexivity].
    destruct Hv as [_ Hv]. now specialize (Hv eq_refl).
  - assert (Hs : forallb Spec.safe_char (c :: name) = true) by now apply Hv.
    split; [discriminate|]. split; [exact Hs|]. split; [reflexivity|].
    rewrite !count_occ_app, (count_occ_safe _ Hs).
    vm_compute. reflexivity.
Qed.
(** ** The parts of the messages URL *)

Section UrlContext.
Import Py Scraper.

Lemma split_parts sep s :
  split sep s <> []
  /\ Forall (Forall (fun c => (c =? sep) = false)) (split sep s).
Proof.
  induction s as [|c s [Hne IH]]; cbn [split].
  - split; [discriminate | repeat constructor].
  - destruct (c =? sep) eqn:E.
    + split; [discriminate|]. constructor; [constructor | exact IH].
    + destruct (split sep s) as [|l ls]; [congruence|].
      split; [discriminate|].
      apply Forall_cons_1 in IH as [Hl Hls].
      constructor; [constructor; assumption | exact Hls].
Qed.

Lemma split_word sep w :
  Forall (fun c => (c =? sep) = false) w -> split sep w = [w].
Proof.
  induction 1 as [|c w Hc _ IH]; [reflexivity|].
  cbn [split]. now rewrite Hc, IH.
Qed.

Lemma split_app sep w rest :
  Forall (fun c => (c =? sep) = false) w ->
  split sep (w ++ sep :: rest) = w :: split sep rest.
Proof.
  induction 1 as [|c w Hc _ IH]; cbn [app split].
  - now rewrite N.eqb_refl.
  - now rewrite Hc, IH.
Qed.

Lemma str_eqb_refl (s : str) : eqb s s = true.
Proof. induction s as [|c s IH]; simpl; [reflexivity | now rewrite N.eqb_refl]. Qed.

Lemma part_kept (part : str) : part <> [] -> negb (eqb part []) = true.
Proof. destruct part; [congruence | reflexivity]. Qed.

Lemma parts_of_filter (parts : list str) part :
  In part (List.filter (fun part => negb (eqb part [])) parts) ->
  In part parts /\ part <> [].
Proof.
  intros [Hin Hne]%filter_In. split; [exact Hin|].
  intros ->. discriminate.
Qed.

End UrlContext.

(** X17: the parts [_parse_message_url_context] returns.  When it returns
    a customer token, a facility object id and possibly an activity id,
    each of them is a non-empty piece of the path without a slash (so that
    the API paths built from them have the segments they are meant to
    have). *)
Theorem X17_url_context_parts
    (path customer_token facility_object_id : Py.str)
    (activity_id : option Py.str) :
  Scraper._parse_message_url_context path
  = Some (customer_token, facility_object_id, activity_id) ->
  Forall (fun part => part <> [] /\ Forall (fun c => (c =? 47) = false) part)
    (customer_token :: facility_object_id
     :: match activity_id with Some a => [a] | None => [] end).
Proof.
  unfold Scraper._parse_message_url_context.
  destruct (split_parts 47 path) as [_ Hparts].
  set (parts := List.filter _ (Py.split 47 path)).
  assert (Hall : Forall (fun part => part <> []
                                     /\ Forall (fun c => (c =? 47) = false) part)
                   parts).
  { apply Forall_forall. intros part [Hin Hne]%list_elem_of_In%parts_of_filter.
    split; [exact Hne|]. rewrite Forall_forall in Hparts.
    now apply Hparts, list_elem_of_In. }
  destruct parts as [|p0 [|p1 [|p2 [|p3 rest]]]]; try discriminate.
  destruct (negb _ || negb _); [discriminate|].
  intros [= <- <- <-].
  apply Forall_cons_1 in Hall as [H0 Hall].
  apply Forall_cons_1 in Hall as [_ Hall].
  apply Forall_cons_1 in Hall as [H2 Hall].
  apply Forall_cons_1 in Hall as [_ Hall].
  constructor; [exact H0|]. constructor; [exact H2|].
  destruct rest as [|p4 rest]; [constructor|].
  apply Forall_cons_1 in Hall as [H4 _]. now constructor.
Qed.

Lemma X17_url_context_parts_witness :
  Forall (fun part => part <> [] /\ Forall (fun c => (c =? 47) = false) part)
    [Py.lit "k1"; Py.lit "o2"; Py.lit "a3"].
Proof.
  apply (X17_url_context_parts (Py.lit "/k1/objekte/o2/nachrichten/a3")
           (Py.lit "k1") (Py.lit "o2") (Some (Py.lit "a3"))).
  vm_compute. reflexivity.
Defined.

(** X18: the path of the messages URL read back.  For a customer token, a
    facility object id and an activity id that are not empty and have no
    slash, the path /token/objekte/id/nachrichten/activity gives them back;
    without the activity part, with or without a slash at the end, it
    gives the token and the id and no activity. *)
Theorem X18_url_context_round_trip
    (customer_token facility_object_id activity_id : Py.str) :
  customer_token <> [] -> facility_object_id <> [] -> activity_id <> [] ->
  Forall (fun c => (c =? 47) = false) customer_token ->
  Forall (fun c => (c =? 47) = false) facility_object_id ->
  Forall (fun c => (c =? 47) = false) activity_id ->
  Scraper._parse_message_url_context
    (47 :: customer_token ++ 47 :: Py.lit "objekte" ++ 47 :: facility_object_id
        ++ 47 :: Py.lit "nachrichten" ++ 47 :: activity_id)
  = Some (customer_token, facility_object_id, Some activity_id)
  /\ Scraper._parse_message_url_context
       (47 :: customer_token ++ 47 :: Py.lit "objekte" ++ 47 :: facility_object_id
           ++ 47 :: Py.lit "nachrichten")
     = Some (customer_token, facility_object_id, None)
  /\ Scraper._parse_message_url_context
       (47 :: customer_token ++ 47 :: Py.lit "objekte" ++ 47 :: facility_object_id
           ++ 47 :: Py.lit "nachrichten" ++ [47])
     = Some (customer_token, facility_object_id, None).
Proof.
  intros Ht Hf Ha St Sf Sa.
  assert (So : Forall (fun c => (c =? 47) = false) (Py.lit "objekte"))
    by (vm_compute; repeat constructor).
  assert (Sn : Forall (fun c => (c =? 47) = false) (Py.lit "nachrichten"))
    by (vm_compute; repeat constructor).
  assert (Ho : negb (Py.eqb (Py.lit "objekte") []) = true) by reflexivity.
  assert (Hn : negb (Py.eqb (Py.lit "nachrichten") []) = true) by reflexivity.
  unfold Scraper._parse_message_url_context.
  change (Py.split 47 (47 :: ?s)) with (@nil Py.char :: Py.split 47 s).
  repeat split.
  - do 4 (rewrite split_app by assumption). rewrite split_word by assumption.
    cbn [List.filter Py.eqb negb]. rewrite Ho, Hn, !part_kept by assumption.
    now rewrite !str_eqb_refl.
  - do 3 (rewrite split_app by assumption). rewrite split_word by assumption.
    cbn [List.filter Py.eqb negb]. rewrite Ho, Hn, !part_kept by assumption.
    now rewrite !str_eqb_refl.
  - do 4 (rewrite split_app by assumption).
    cbn [Py.split List.filter Py.eqb negb].
    rewrite Ho, Hn, !part_kept by assumption.
    now rewrite !str_eqb_refl.
Qed.

Lemma X18_url_context_round_trip_witness :
  Scraper._parse_message_url_context
    (47 :: [107; 49] ++ 47 :: Py.lit "objekte" ++ 47 :: [111; 50]
        ++ 47 :: Py.lit "nachrichten" ++ 47 :: [97; 51])
  = Some ([107; 49], [111; 50], Some [97; 51]).
Proof.
  apply (X18_url_context_round_trip [107; 49] [111; 50] [97; 51]);
    try discriminate; repeat constructor.
Defined.


Example sha256_abc :
  Sha256.sha256_hex (Py.lit "abc")
  = Some (Py.lit "ba7816bf8f01cfea414140de5dae2223b00361a396177a9cb410ff61f20015ad").
Proof. vm_compute. reflexivity. Qed.

Example sha256_empty :
  Sha256.sha256_hex []
  = Some (Py.lit "e3b0c44298fc1c149afbf4c8996fb92427ae41e4649b934ca495991b7852b855").
Proof. vm_compute. reflexivity. Qed.

Example sha256_three_blocks :
  Sha256.sha256_hex (Py.lit "Verbrauchswerte für März 2025: 12,5 m³ — Heizung auf Basis der Liegenschaft, Kaltwasser, Warmwasser; Falls Sie Fragen haben")
  = Some (Py.lit "0fb97a10e6527552cbe63afb4085e10d6db07e264d2c78ebe3818b908022707e").
Proof. vm_compute. reflexivity. Qed.
